(** * Paper account ledger, order matching, rule engine and risk manager

    A shallow embedding of the trading core of [vnpy_ai_trader]:

    - [src/gateway/paper_account.py]  ([PaperPosition], [PaperAccount]),
    - [src/strategy/risk_manager.py]  ([RiskManager]),
    - [src/strategy/rule_engine.py]   ([RuleEngine]),

    together with the properties their specification states about them,
    and of two of their callers:

    - [src/web/trading_engine.py]     ([get_account], [reset_account]),
    - [scripts/run_paper_trading.py]  ([_bar_to_tick], [_check_entry],
      [_check_exit] of [PaperTradingRunner]).

    Conventions of the embedding.

    - Python [float]s are idealised as exact rationals ([Qc], canonical
      fractions with Leibniz equality): rounding, [nan] and [inf] are not
      modelled.  A literal such as [10.50] is written [float 10.50].
    - A Python object is its record of field values; a method that mutates
      [self] is a function to the new [self].
    - [PaperAccount.orders] and [PaperAccount.active_orders] hold references
      to the same [OrderData] objects.  The objects live in one store keyed
      by order id ([orders]); [active_orders] is the list of its keys in
      insertion order (the iteration order of a Python [dict]).
    - Events handed to the event engine ([on_order], [on_trade], ...,
      [write_log]) are appended to the queue [event_engine]; an event
      carries the field values its object had when it was emitted.
    - The locks serialise the methods; the embedding is the sequential
      behaviour of each method. *)

From Stdlib Require Import QArith Qcanon Qcabs Qround Lqa.
From stdpp Require Import gmap strings list fin_maps numbers pretty.

Open Scope Qc_scope.

(** ** Numbers *)

(** A float literal. *)
Definition float (q : Q) : Qc := Q2Qc q.
Arguments float q%_Q.

(** Python's [x % m] on floats, for [m > 0]: [x - m * floor (x / m)]. *)
Definition py_mod (x m : Qc) : Qc := x - m * Qc_of_Z (Qfloor (x / m)).

(** ** The data classes of the host framework ([vnpy.trader]) *)

Inductive Direction := LONG | SHORT | NET.
Inductive OrderType := LIMIT | MARKET | STOP | FAK | FOK | RFQ | ETF.
Inductive Status :=
  SUBMITTING | NOTTRADED | PARTTRADED | ALLTRADED | CANCELLED | REJECTED.
(** The two exchanges the paper gateway declares ([PaperAccount.exchanges]). *)
Inductive Exchange := SSE | SZSE.

#[global] Instance Direction_eq_dec : EqDecision Direction.
Proof. solve_decision. Defined.
#[global] Instance OrderType_eq_dec : EqDecision OrderType.
Proof. solve_decision. Defined.
#[global] Instance Status_eq_dec : EqDecision Status.
Proof. solve_decision. Defined.
#[global] Instance Exchange_eq_dec : EqDecision Exchange.
Proof. solve_decision. Defined.

Definition Exchange_value (e : Exchange) : string :=
  match e with SSE => "SSE" | SZSE => "SZSE" end.

(** [f"{symbol}.{exchange.value}"] *)
Definition make_vt_symbol (symbol : string) (exchange : Exchange) : string :=
  symbol +:+ "." +:+ Exchange_value exchange.

Module OrderRequest.
Record t := mk {
  symbol : string;
  exchange : Exchange;
  direction : Direction;
  type : OrderType;
  volume : Qc;
  price : Qc
}.
End OrderRequest.

Module CancelRequest.
Record t := mk {
  orderid : string;
  symbol : string;
  exchange : Exchange
}.
End CancelRequest.

(** Of [OrderData], [TradeData] and [TickData] the fields the account
    reads or writes are kept; time stamps ([datetime]), [offset], which is
    always [Offset.NONE] here, and the depth of the book beyond the best
    quotes are left out. *)
Module OrderData.
Record t := mk {
  symbol : string;
  exchange : Exchange;
  orderid : string;
  type : OrderType;
  direction : Direction;
  price : Qc;
  volume : Qc;
  traded : Qc;
  status : Status;
  gateway_name : string
}.

Definition vt_orderid (o : t) : string :=
  gateway_name o +:+ "." +:+ orderid o.

Definition set_status (s : Status) (o : t) : t :=
  mk (symbol o) (exchange o) (orderid o) (type o) (direction o) (price o)
     (volume o) (traded o) s (gateway_name o).

Definition set_traded (x : Qc) (o : t) : t :=
  mk (symbol o) (exchange o) (orderid o) (type o) (direction o) (price o)
     (volume o) x (status o) (gateway_name o).
End OrderData.

(** [OrderRequest.create_order_data]: a new order object, nothing traded,
    status [SUBMITTING]. *)
Definition create_order_data (req : OrderRequest.t) (orderid gateway_name : string)
  : OrderData.t :=
  OrderData.mk (OrderRequest.symbol req) (OrderRequest.exchange req) orderid
    (OrderRequest.type req) (OrderRequest.direction req)
    (OrderRequest.price req) (OrderRequest.volume req) 0 SUBMITTING gateway_name.

Module TradeData.
Record t := mk {
  symbol : string;
  exchange : Exchange;
  orderid : string;
  tradeid : string;
  direction : Direction;
  price : Qc;
  volume : Qc;
  gateway_name : string
}.
End TradeData.

Module TickData.
Record t := mk {
  symbol : string;
  exchange : Exchange;
  last_price : Qc;
  bid_price_1 : Qc;
  ask_price_1 : Qc;
  gateway_name : string
}.

Definition vt_symbol (tk : t) : string := make_vt_symbol (symbol tk) (exchange tk).
End TickData.

Module PositionData.
Record t := mk {
  symbol : string;
  exchange : Exchange;
  direction : Direction;
  volume : Qc;
  frozen : Qc;
  price : Qc;
  pnl : Qc;
  gateway_name : string
}.
End PositionData.

Module AccountData.
Record t := mk {
  accountid : string;
  balance : Qc;
  frozen : Qc;
  gateway_name : string
}.
End AccountData.

(** ** [class PaperPosition] *)

Module PaperPosition.
Record t := mk {
  symbol : string;
  exchange : Exchange;
  volume : Qc;
  frozen : Qc;
  avg_price : Qc;
  pnl : Qc
}.

(** [__init__] *)
Definition init (symbol : string) (exchange : Exchange) : t :=
  mk symbol exchange 0 0 0 0.

Definition set_volume (x : Qc) (self : t) : t :=
  mk (symbol self) (exchange self) x (frozen self) (avg_price self) (pnl self).
Definition set_avg_price (x : Qc) (self : t) : t :=
  mk (symbol self) (exchange self) (volume self) (frozen self) x (pnl self).
Definition set_pnl (x : Qc) (self : t) : t :=
  mk (symbol self) (exchange self) (volume self) (frozen self) (avg_price self) x.

Definition update_trade (direction : Direction) (volume' price : Qc) (self : t) : t :=
  if decide (direction = LONG) then
    (* Buying *)
    let total_cost := avg_price self * volume self + price * volume' in
    let self := set_volume (volume self + volume') self in
    if decide (0 < volume self)
    then set_avg_price (total_cost / volume self) self
    else self
  else
    (* Selling *)
    let self := set_volume (volume self - volume') self in
    if decide (volume self ≤ 0)
    then set_avg_price 0 (set_volume 0 self)
    else self.

Definition calculate_pnl (current_price : Qc) (self : t) : t :=
  if bool_decide (0 < volume self) && bool_decide (0 < avg_price self)
  then set_pnl ((current_price - avg_price self) * volume self) self
  else set_pnl 0 self.
End PaperPosition.

(** ** [class PaperAccount] *)

(** The second component of [_validate_order]'s result.  The two lot-size
    messages are constant strings; the other two are f-strings whose
    numbers are kept as fields ([{required:.2f}] and the like). *)
Inductive ErrorMsg :=
| NoError                                       (* the empty string *)
| VolumeTooSmall                                (* ["Volume must be at least 100 shares"] *)
| VolumeNotMultiple                             (* ["Volume must be multiple of 100"] *)
| InsufficientFunds (required available : Qc)   (* ["Insufficient funds: need .., have .."] *)
| InsufficientPosition (need have : Qc).        (* ["Insufficient position: need .., have .."] *)

(** The text of a message, up to its first formatted number. *)
Definition error_text (m : ErrorMsg) : string :=
  match m with
  | NoError => EmptyString
  | VolumeTooSmall => "Volume must be at least 100 shares"
  | VolumeNotMultiple => "Volume must be multiple of 100"
  | InsufficientFunds _ _ => "Insufficient funds: need "
  | InsufficientPosition _ _ => "Insufficient position: need "
  end.

(** The arguments of [write_log]: one constructor per f-string. *)
Inductive LogMsg :=
| LogInitialized (initial_capital : Qc)
| LogOrderRejected (error_msg : ErrorMsg)
| LogOrderSubmitted (vt_symbol : string) (direction : Direction) (volume price : Qc)
| LogOrderNotFound (orderid : string)
| LogOrderCancelled (orderid : string)
| LogTradeExecuted (vt_symbol : string) (direction : Direction)
    (volume price total_cost : Qc).

(** What the gateway puts on the event engine. *)
Inductive Event :=
| EventOrder (order : OrderData.t)
| EventTrade (trade : TradeData.t)
| EventPosition (position : PositionData.t)
| EventAccount (account : AccountData.t)
| EventTick (tick : TickData.t)
| EventLog (msg : LogMsg).

(** The [setting] dictionary of [connect]; [None] is an absent key. *)
Module Setting.
Record t := mk {
  initial_capital : option Qc;      (* ["初始资金"] *)
  commission_rate : option Qc;      (* ["手续费率"] *)
  stamp_duty_rate : option Qc;      (* ["印花税率"] *)
  slippage : option Qc;             (* ["滑点"] *)
  execution_delay : option Z        (* ["成交延迟(毫秒)"] *)
}.
End Setting.

(** The state of a [PaperAccount].  Left out: the subscription set and
    the thread handle with its flag, which no ledger operation reads, and
    [winning_trades], which is never updated. *)
Module PaperAccount.
Record t := mk {
  gateway_name : string;
  (* Account state *)
  initial_capital : Qc;
  balance : Qc;
  frozen : Qc;
  commission_rate : Qc;
  stamp_duty_rate : Qc;
  slippage : Qc;
  execution_delay : Z;
  (* Position tracking *)
  positions : gmap string PaperPosition.t;
  (* Order tracking *)
  orders : gmap string OrderData.t;
  active_orders : list string;
  order_count : nat;
  trade_count : nat;
  (* Market data *)
  ticks : gmap string TickData.t;
  (* Statistics *)
  total_commission : Qc;
  total_trades : nat;
  (* The event engine's queue, oldest event first *)
  event_engine : list Event
}.

Definition set_balance (x : Qc) (self : t) : t :=
  mk (gateway_name self) (initial_capital self) x (frozen self)
    (commission_rate self) (stamp_duty_rate self) (slippage self)
    (execution_delay self) (positions self) (orders self)
    (active_orders self) (order_count self) (trade_count self) (ticks self)
    (total_commission self) (total_trades self) (event_engine self).
Definition set_frozen (x : Qc) (self : t) : t :=
  mk (gateway_name self) (initial_capital self) (balance self) x
    (commission_rate self) (stamp_duty_rate self) (slippage self)
    (execution_delay self) (positions self) (orders self)
    (active_orders self) (order_count self) (trade_count self) (ticks self)
    (total_commission self) (total_trades self) (event_engine self).
Definition set_positions (x : gmap string PaperPosition.t) (self : t) : t :=
  mk (gateway_name self) (initial_capital self) (balance self) (frozen self)
    (commission_rate self) (stamp_duty_rate self) (slippage self)
    (execution_delay self) x (orders self) (active_orders self)
    (order_count self) (trade_count self) (ticks self)
    (total_commission self) (total_trades self) (event_engine self).
Definition set_orders (x : gmap string OrderData.t) (self : t) : t :=
  mk (gateway_name self) (initial_capital self) (balance self) (frozen self)
    (commission_rate self) (stamp_duty_rate self) (slippage self)
    (execution_delay self) (positions self) x (active_orders self)
    (order_count self) (trade_count self) (ticks self)
    (total_commission self) (total_trades self) (event_engine self).
Definition set_active_orders (x : list string) (self : t) : t :=
  mk (gateway_name self) (initial_capital self) (balance self) (frozen self)
    (commission_rate self) (stamp_duty_rate self) (slippage self)
    (execution_delay self) (positions self) (orders self) x
    (order_count self) (trade_count self) (ticks self)
    (total_commission self) (total_trades self) (event_engine self).
Definition set_order_count (x : nat) (self : t) : t :=
  mk (gateway_name self) (initial_capital self) (balance self) (frozen self)
    (commission_rate self) (stamp_duty_rate self) (slippage self)
    (execution_delay self) (positions self) (orders self)
    (active_orders self) x (trade_count self) (ticks self)
    (total_commission self) (total_trades self) (event_engine self).
Definition set_trade_count (x : nat) (self : t) : t :=
  mk (gateway_name self) (initial_capital self) (balance self) (frozen self)
    (commission_rate self) (stamp_duty_rate self) (slippage self)
    (execution_delay self) (positions self) (orders self)
    (active_orders self) (order_count self) x (ticks self)
    (total_commission self) (total_trades self) (event_engine self).
Definition set_ticks (x : gmap string TickData.t) (self : t) : t :=
  mk (gateway_name self) (initial_capital self) (balance self) (frozen self)
    (commission_rate self) (stamp_duty_rate self) (slippage self)
    (execution_delay self) (positions self) (orders self)
    (active_orders self) (order_count self) (trade_count self) x
    (total_commission self) (total_trades self) (event_engine self).
Definition set_total_commission (x : Qc) (self : t) : t :=
  mk (gateway_name self) (initial_capital self) (balance self) (frozen self)
    (commission_rate self) (stamp_duty_rate self) (slippage self)
    (execution_delay self) (positions self) (orders self)
    (active_orders self) (order_count self) (trade_count self) (ticks self)
    x (total_trades self) (event_engine self).
Definition set_total_trades (x : nat) (self : t) : t :=
  mk (gateway_name self) (initial_capital self) (balance self) (frozen self)
    (commission_rate self) (stamp_duty_rate self) (slippage self)
    (execution_delay self) (positions self) (orders self)
    (active_orders self) (order_count self) (trade_count self) (ticks self)
    (total_commission self) x (event_engine self).
Definition set_event_engine (x : list Event) (self : t) : t :=
  mk (gateway_name self) (initial_capital self) (balance self) (frozen self)
    (commission_rate self) (stamp_duty_rate self) (slippage self)
    (execution_delay self) (positions self) (orders self)
    (active_orders self) (order_count self) (trade_count self) (ticks self)
    (total_commission self) (total_trades self) x.

(** [__init__]: the state before [connect]. *)
Definition init (gateway_name : string) : t :=
  mk gateway_name (float 1000000) (float 1000000) 0 (float 0.0003)
    (float 0.001) (float 0.001) 100 ∅ ∅ [] 0%nat 0%nat ∅ 0 0%nat [].

(** [BaseGateway.on_event] and the wrappers around it. *)
Definition on_event (e : Event) (self : t) : t :=
  set_event_engine (event_engine self ++ [e]) self.
Definition on_order (order : OrderData.t) : t → t := on_event (EventOrder order).
Definition on_trade (trade : TradeData.t) : t → t := on_event (EventTrade trade).
Definition on_position (p : PositionData.t) : t → t := on_event (EventPosition p).
Definition on_account (a : AccountData.t) : t → t := on_event (EventAccount a).
Definition on_tick (tick : TickData.t) : t → t := on_event (EventTick tick).
Definition write_log (msg : LogMsg) : t → t := on_event (EventLog msg).

Definition _push_account (self : t) : t :=
  (* Calculate total position value *)
  let position_value :=
    map_fold (λ vt_symbol pos acc,
      match ticks self !! vt_symbol with
      | Some tick => acc + PaperPosition.volume pos * TickData.last_price tick
      | None => acc + PaperPosition.volume pos * PaperPosition.avg_price pos
      end) 0 (positions self) in
  let account :=
    AccountData.mk "PAPER" (balance self + frozen self + position_value)
      (frozen self) (gateway_name self) in
  on_account account self.

Definition _push_position (vt_symbol : string) (self : t) : t :=
  match positions self !! vt_symbol with
  | None => self
  | Some pos =>
      let position :=
        PositionData.mk (PaperPosition.symbol pos) (PaperPosition.exchange pos)
          LONG (PaperPosition.volume pos) (PaperPosition.frozen pos)
          (PaperPosition.avg_price pos) (PaperPosition.pnl pos)
          (gateway_name self) in
      on_position position self
  end.

(** [connect]; the background thread it starts only republishes the
    account ([_push_account]) and changes no ledger field. *)
Definition connect (setting : Setting.t) (self : t) : t :=
  let initial_capital := default (float 1000000) (Setting.initial_capital setting) in
  let self :=
    mk (gateway_name self) initial_capital initial_capital (frozen self)
      (default (float 0.0003) (Setting.commission_rate setting))
      (default (float 0.001) (Setting.stamp_duty_rate setting))
      (default (float 0.001) (Setting.slippage setting))
      (default 100%Z (Setting.execution_delay setting))
      (positions self) (orders self) (active_orders self) (order_count self)
      (trade_count self) (ticks self) (total_commission self)
      (total_trades self) (event_engine self) in
  let self := write_log (LogInitialized initial_capital) self in
  (* Push initial account data *)
  _push_account self.

Definition _validate_order (req : OrderRequest.t) (vt_symbol : string) (self : t)
  : bool * ErrorMsg :=
  (* Check minimum volume (100 shares for A-shares) *)
  if decide (OrderRequest.volume req < float 100) then (false, VolumeTooSmall)
  (* Check volume is multiple of 100 *)
  else if decide (py_mod (OrderRequest.volume req) (float 100) ≠ 0)
  then (false, VolumeNotMultiple)
  (* Check buy order has sufficient funds *)
  else if decide (OrderRequest.direction req = LONG) then
    let order_value := OrderRequest.price req * OrderRequest.volume req in
    let commission := order_value * commission_rate self in
    let required := order_value + commission in
    let available := balance self - frozen self in
    if decide (available < required)
    then (false, InsufficientFunds required available)
    else (true, NoError)
  (* Check sell order has sufficient position *)
  else if decide (OrderRequest.direction req = SHORT) then
    match positions self !! vt_symbol with
    | None => (false, InsufficientPosition (OrderRequest.volume req) 0)
    | Some pos =>
        if decide (PaperPosition.volume pos < OrderRequest.volume req)
        then (false, InsufficientPosition (OrderRequest.volume req)
                       (PaperPosition.volume pos))
        else (true, NoError)
    end
  else (true, NoError).

(** [f"PAPER_{self.order_count}"] *)
Definition make_orderid (order_count : nat) : string :=
  "PAPER_" +:+ pretty order_count.

(** [self.orders[orderid] = order; self.active_orders[orderid] = order]:
    the object is stored, and its key joins the active ones (at the end,
    unless it is there already). *)
Definition store_active (orderid : string) (order : OrderData.t) (self : t) : t :=
  let self := set_orders (<[orderid := order]> (orders self)) self in
  if decide (orderid ∈ active_orders self) then self
  else set_active_orders (active_orders self ++ [orderid]) self.

(** [del self.active_orders[orderid]] *)
Definition del_active (orderid : string) (self : t) : t :=
  set_active_orders (filter (λ k, k ≠ orderid) (active_orders self)) self.

Definition send_order (req : OrderRequest.t) (self : t) : string * t :=
  let self := set_order_count (S (order_count self)) self in
  let orderid := make_orderid (order_count self) in
  (* Create order data *)
  let order := create_order_data req orderid (gateway_name self) in
  let order := OrderData.set_status SUBMITTING order in
  (* Validate order *)
  let vt_symbol := make_vt_symbol (OrderRequest.symbol req) (OrderRequest.exchange req) in
  let '(is_valid, error_msg) := _validate_order req vt_symbol self in
  if negb is_valid then
    let order := OrderData.set_status REJECTED order in
    let self := on_order order self in
    let self := write_log (LogOrderRejected error_msg) self in
    (EmptyString, self)
  else
    (* Freeze funds for buy orders *)
    let self :=
      if decide (OrderRequest.direction req = LONG) then
        let order_value := OrderRequest.price req * OrderRequest.volume req in
        let commission := order_value * commission_rate self in
        let total_frozen := order_value + commission in
        let self := set_frozen (frozen self + total_frozen) self in
        set_balance (balance self - total_frozen) self
      else self in
    (* Update status to submitted; store order *)
    let order := OrderData.set_status NOTTRADED order in
    let self := store_active orderid order self in
    let self := on_order order self in
    let self :=
      write_log (LogOrderSubmitted vt_symbol (OrderRequest.direction req)
                   (OrderRequest.volume req) (OrderRequest.price req)) self in
    (OrderData.vt_orderid order, self).

Definition cancel_order (req : CancelRequest.t) (self : t) : t :=
  let orderid := CancelRequest.orderid req in
  if decide (orderid ∉ active_orders self)
  then write_log (LogOrderNotFound orderid) self
  else
    match orders self !! orderid with
    | None => self   (* an active key always has its object in the store *)
    | Some order =>
        (* Unfreeze funds for buy orders *)
        let self :=
          if decide (OrderData.direction order = LONG) then
            let remaining_volume := OrderData.volume order - OrderData.traded order in
            let order_value := OrderData.price order * remaining_volume in
            let commission := order_value * commission_rate self in
            let total_unfrozen := order_value + commission in
            let self := set_frozen (frozen self - total_unfrozen) self in
            set_balance (balance self + total_unfrozen) self
          else self in
        (* Update order status *)
        let order := OrderData.set_status CANCELLED order in
        let self := set_orders (<[orderid := order]> (orders self)) self in
        let self := del_active orderid self in
        let self := on_order order self in
        let self := _push_account self in
        write_log (LogOrderCancelled orderid) self
    end.

(** [_execute_trade].  The order object is passed by reference: [ref] is
    its key in the store and [order] its fields on entry. *)
Definition _execute_trade (ref : string) (order : OrderData.t) (price : Qc)
    (self : t) : t :=
  let self := set_trade_count (S (trade_count self)) self in
  let tradeid := "TRADE_" +:+ pretty (trade_count self) in
  let volume := OrderData.volume order - OrderData.traded order in
  let trade_value := price * volume in
  (* Calculate costs *)
  let commission := trade_value * commission_rate self in
  let stamp_duty :=
    if decide (OrderData.direction order = SHORT)
    then trade_value * stamp_duty_rate self else 0 in
  let total_cost := commission + stamp_duty in
  let self := set_total_commission (total_commission self + total_cost) self in
  (* Create trade data *)
  let trade :=
    TradeData.mk (OrderData.symbol order) (OrderData.exchange order)
      (OrderData.orderid order) tradeid (OrderData.direction order)
      price volume (gateway_name self) in
  (* Update position *)
  let vt_symbol := make_vt_symbol (OrderData.symbol order) (OrderData.exchange order) in
  let pos :=
    default (PaperPosition.init (OrderData.symbol order) (OrderData.exchange order))
      (positions self !! vt_symbol) in
  let pos := PaperPosition.update_trade (OrderData.direction order) volume price pos in
  let self := set_positions (<[vt_symbol := pos]> (positions self)) self in
  (* Update balance *)
  let self :=
    if decide (OrderData.direction order = LONG) then
      (* Buying: unfreeze and pay actual cost *)
      let order_value := OrderData.price order * volume in
      let commission_frozen := order_value * commission_rate self in
      let total_unfrozen := order_value + commission_frozen in
      let self := set_frozen (frozen self - total_unfrozen) self in
      let self := set_balance (balance self + total_unfrozen) self in
      set_balance (balance self - (trade_value + total_cost)) self
    else
      (* Selling: receive proceeds minus costs *)
      set_balance (balance self + (trade_value - total_cost)) self in
  (* Update order status *)
  let order := OrderData.set_traded (OrderData.traded order + volume) order in
  let order :=
    if decide (OrderData.volume order ≤ OrderData.traded order)
    then OrderData.set_status ALLTRADED order
    else OrderData.set_status PARTTRADED order in
  let self := set_orders (<[ref := order]> (orders self)) self in
  (* Push updates *)
  let self := on_trade trade self in
  let self := on_order order self in
  let self := _push_account self in
  let self := _push_position vt_symbol self in
  let self := set_total_trades (S (total_trades self)) self in
  write_log (LogTradeExecuted vt_symbol (OrderData.direction order) volume
               price total_cost) self.

(** The decision part of the loop body of [_match_orders]:
    [(can_fill, fill_price)] before slippage. *)
Definition can_fill_at (order : OrderData.t) (tick : TickData.t) : bool * Qc :=
  if decide (OrderData.type order = MARKET) then
    if decide (OrderData.direction order = LONG) then
      (true, if decide (0 < TickData.ask_price_1 tick)
             then TickData.ask_price_1 tick else TickData.last_price tick)
    else
      (true, if decide (0 < TickData.bid_price_1 tick)
             then TickData.bid_price_1 tick else TickData.last_price tick)
  else if decide (OrderData.type order = LIMIT) then
    if decide (OrderData.direction order = LONG) then
      (* Buy limit: fill if ask <= order price *)
      if bool_decide (0 < TickData.ask_price_1 tick)
         && bool_decide (TickData.ask_price_1 tick ≤ OrderData.price order)
      then (true, OrderData.price order)
      else if decide (TickData.last_price tick ≤ OrderData.price order)
      then (true, OrderData.price order)
      else (false, 0)
    else
      (* Sell limit: fill if bid >= order price *)
      if bool_decide (0 < TickData.bid_price_1 tick)
         && bool_decide (OrderData.price order ≤ TickData.bid_price_1 tick)
      then (true, OrderData.price order)
      else if decide (OrderData.price order ≤ TickData.last_price tick)
      then (true, OrderData.price order)
      else (false, 0)
  else (false, 0).

(** One iteration of [for orderid, order in self.active_orders.items()]. *)
Definition match_order (vt_symbol : string) (tick : TickData.t)
    (acc : t * list string) (orderid : string) : t * list string :=
  let '(self, orders_to_remove) := acc in
  match orders self !! orderid with
  | None => acc   (* an active key always has its object in the store *)
  | Some order =>
      let order_vt_symbol :=
        make_vt_symbol (OrderData.symbol order) (OrderData.exchange order) in
      if decide (order_vt_symbol ≠ vt_symbol) then acc
      else
        (* Check if order can be filled *)
        let '(can_fill, fill_price) := can_fill_at order tick in
        if can_fill then
          (* Apply slippage *)
          let fill_price :=
            if decide (OrderData.direction order = LONG)
            then fill_price * (1 + slippage self)
            else fill_price * (1 - slippage self) in
          (_execute_trade orderid order fill_price self,
           orders_to_remove ++ [orderid])
        else acc
  end.

Definition _match_orders (vt_symbol : string) (tick : TickData.t) (self : t) : t :=
  let '(self, orders_to_remove) :=
    foldl (match_order vt_symbol tick) (self, []) (active_orders self) in
  (* Remove filled orders *)
  foldl (λ self orderid, del_active orderid self) self orders_to_remove.

Definition update_tick (tick : TickData.t) (self : t) : t :=
  let vt_symbol := TickData.vt_symbol tick in
  let self := set_ticks (<[vt_symbol := tick]> (ticks self)) self in
  (* Update position P&L *)
  let self :=
    match positions self !! vt_symbol with
    | Some pos =>
        set_positions
          (<[vt_symbol := PaperPosition.calculate_pnl (TickData.last_price tick) pos]>
             (positions self)) self
    | None => self
    end in
  (* Trigger order matching *)
  let self := _match_orders vt_symbol tick self in
  (* Forward tick to strategy *)
  on_tick tick self.

(** The trades put on the event engine, oldest first. *)
Definition trades_of (events : list Event) : list TradeData.t :=
  omap (λ e, match e with EventTrade trade => Some trade | _ => None end) events.

(** The invariant quantity of the ledger:
    [balance + frozen + Σ position.volume × position.avg_price]. *)
Definition positions_cost (positions : gmap string PaperPosition.t) : Qc :=
  map_fold (λ _ pos acc, acc + PaperPosition.volume pos * PaperPosition.avg_price pos)
    0 positions.
Definition ledger_total (self : t) : Qc :=
  balance self + frozen self + positions_cost (positions self).

(** [query_account] *)
Definition query_account (self : t) : t := _push_account self.

(** [reset].  Its log line is the constant string
    ["Paper account reset to initial state"]; [msg] stands for it. *)
Definition reset (msg : LogMsg) (self : t) : t :=
  let self := set_positions ∅ self in
  let self := set_orders ∅ self in
  let self := set_active_orders [] self in
  let self := set_balance (initial_capital self) self in
  let self := set_frozen 0 self in
  let self := set_total_commission 0 self in
  let self := set_total_trades 0%nat self in
  let self := set_order_count 0%nat self in
  let self := set_trade_count 0%nat self in
  let self := write_log msg self in
  _push_account self.
End PaperAccount.

(** ** [class RiskManager] *)

Module RiskLimits.
Record t := mk {
  max_positions : Z;
  position_size : Qc;
  max_drawdown : Qc;
  daily_loss_limit : Qc;
  sector_concentration : Qc
}.
End RiskLimits.

(** The [risk_config] dictionary; [None] is an absent key. *)
Module RiskConfig.
Record t := mk {
  max_positions : option Z;
  position_size : option Qc;
  max_drawdown : option Qc;
  daily_loss_limit : option Qc;
  sector_concentration : option Qc
}.
End RiskConfig.

(** A row of the signals data frame, columns [vt_symbol] and [signal]. *)
Module Signal.
Record t := mk {
  vt_symbol : string;
  signal : Qc
}.
End Signal.

(** A [polars.DataFrame] of signals is the list of its rows, in order. *)
Abbreviation DataFrame := (list Signal.t).

(** The state of a [RiskManager]; [sector_exposure] is never read or
    written by the methods below and is left out, as are the calls to the
    module's logger. *)
Module RiskManager.
Record t := mk {
  limits : RiskLimits.t;
  (* Track current state *)
  peak_portfolio_value : Qc;
  daily_start_value : Qc;
  current_drawdown : Qc;
  daily_pnl : Qc
}.

(** [__init__] *)
Definition init (risk_config : option RiskConfig.t) : t :=
  let config := default (RiskConfig.mk None None None None None) risk_config in
  mk (RiskLimits.mk
        (default 30%Z (RiskConfig.max_positions config))
        (default (float 0.03) (RiskConfig.position_size config))
        (default (float 0.15) (RiskConfig.max_drawdown config))
        (default (float 0.05) (RiskConfig.daily_loss_limit config))
        (default (float 0.3) (RiskConfig.sector_concentration config)))
     0 0 0 0.

Definition set_peak_portfolio_value (x : Qc) (self : t) : t :=
  mk (limits self) x (daily_start_value self) (current_drawdown self) (daily_pnl self).
Definition set_current_drawdown (x : Qc) (self : t) : t :=
  mk (limits self) (peak_portfolio_value self) (daily_start_value self) x (daily_pnl self).

Definition _update_tracking (portfolio_value : Qc) (self : t) : t :=
  (* Update peak value for drawdown calculation *)
  let self :=
    if decide (peak_portfolio_value self < portfolio_value)
    then set_peak_portfolio_value portfolio_value self
    else self in
  (* Calculate current drawdown *)
  if decide (0 < peak_portfolio_value self)
  then set_current_drawdown
         ((peak_portfolio_value self - portfolio_value) / peak_portfolio_value self) self
  else set_current_drawdown 0 self.

Definition _is_trading_allowed (self : t) : bool :=
  (* Block trading if max drawdown exceeded *)
  if decide (RiskLimits.max_drawdown (limits self) < current_drawdown self)
  then false
  else true.

(** [signals] is [None] for Python's [None]. *)
Definition apply_filters (signals : option DataFrame)
    (current_positions : gmap string Qc) (portfolio_value : Qc) (self : t)
  : option DataFrame * t :=
  match signals with
  | None => (signals, self)
  | Some df =>
      if decide (length df = 0%nat) then (signals, self)
      else
        (* Update tracking *)
        let self := _update_tracking portfolio_value self in
        (* Check if trading is allowed based on risk limits *)
        if negb (_is_trading_allowed self)
        then (Some [], self)   (* [signals.filter(pl.lit(False))] *)
        else
          (* Calculate available slots for new positions *)
          let current_count :=
            length (filter (λ v, v ≠ 0) (map_to_list current_positions).*2) in
          let available_slots :=
            (RiskLimits.max_positions (limits self) - Z.of_nat current_count)%Z in
          if decide (available_slots ≤ 0)%Z then
            (* Only allow signals for existing positions (exits) *)
            let existing_symbols := (map_to_list current_positions).*1 in
            (Some (filter (λ row, Signal.vt_symbol row ∈ existing_symbols) df), self)
          else
            (* Limit number of new signals *)
            (Some (take (Z.to_nat available_slots) df), self)
  end.

Definition set_daily_start_value (x : Qc) (self : t) : t :=
  mk (limits self) (peak_portfolio_value self) x (current_drawdown self) (daily_pnl self).
Definition set_daily_pnl (x : Qc) (self : t) : t :=
  mk (limits self) (peak_portfolio_value self) (daily_start_value self)
    (current_drawdown self) x.

Definition reset_daily (portfolio_value : Qc) (self : t) : t :=
  let self := set_daily_start_value portfolio_value self in
  set_daily_pnl 0 self.

Definition update_pnl (portfolio_value : Qc) (self : t) : t :=
  if decide (0 < daily_start_value self)
  then set_daily_pnl (portfolio_value - daily_start_value self) self
  else self.
End RiskManager.

(** ** Python exceptions *)

Inductive PyExn := ValueError | TypeError | KeyError | ZeroDivisionError.

#[global] Instance PyExn_eq_dec : EqDecision PyExn.
Proof. solve_decision. Defined.

(** The outcome of evaluating an expression or a function body. *)
Inductive PyResult (A : Type) :=
| Return (a : A)
| Raise (e : PyExn).
Arguments Return {A} a.
Arguments Raise {A} e.

#[global] Instance PyResult_eq_dec `{EqDecision A} : EqDecision (PyResult A).
Proof. solve_decision. Defined.

#[global] Instance PyResult_ret : MRet PyResult := @Return.
#[global] Instance PyResult_bind : MBind PyResult :=
  λ A B f m, match m with Return a => f a | Raise e => Raise e end.
#[global] Instance PyResult_fmap : FMap PyResult :=
  λ A B f m, match m with Return a => Return (f a) | Raise e => Raise e end.

(** [try: body / except (e1, e2, ...): handler] *)
Definition try_except {A} (body : PyResult A) (caught : list PyExn)
    (handler : PyResult A) : PyResult A :=
  match body with
  | Return a => Return a
  | Raise e => if decide (e ∈ caught) then handler else Raise e
  end.

(** [d[k]] on a dictionary. *)
Definition py_getitem {A} (d : gmap string A) (k : string) : PyResult A :=
  match d !! k with Some a => Return a | None => Raise KeyError end.

(** [x / y] on floats. *)
Definition py_div (x y : Qc) : PyResult Qc :=
  if decide (y = 0) then Raise ZeroDivisionError else Return (x / y).

(** ** [class RuleEngine] *)

(** A JSON value found as the comparand of a condition: a number
    ([int], [float] or [bool]), a string, or anything else ([None], a list,
    a dictionary). *)
Inductive Value :=
| VNum (x : Qc)
| VStr (s : string)
| VOther.

(** [params] is carried by the Python class but read by no method. *)
Module RuleCondition.
Record t := mk {
  indicator : string;
  operator : string;
  value : Value;
  logic : string
}.
End RuleCondition.

(** A condition of the strategy JSON; [None] is an absent key. *)
Module CondConfig.
Record t := mk {
  indicator : option string;
  operator : option string;
  value : option Value;
  logic : option string
}.
End CondConfig.

(** The [entry_rules] or [exit_rules] section of the strategy JSON. *)
Module RulesConfig.
Record t := mk {
  conditions : list CondConfig.t;
  take_profit : option Qc;
  stop_loss : option Qc;
  holding_days : option Z;
  trailing_stop : option Qc
}.
Definition empty : t := mk [] None None None None.
End RulesConfig.

Module StrategyConfig.
Record t := mk {
  entry_rules : option RulesConfig.t;
  exit_rules : option RulesConfig.t
}.
End StrategyConfig.

(** The second component of [check_exit_signal]'s result, one constructor
    per f-string. *)
Inductive ExitReason :=
| NoReason                            (* the empty string *)
| TakeProfit (pnl_pct : Qc)           (* [f"take_profit ({pnl_pct:.2%})"] *)
| StopLoss (pnl_pct : Qc)             (* [f"stop_loss ({pnl_pct:.2%})"] *)
| MaxHoldingDays (holding_days : Z)   (* [f"max_holding_days ({holding_days})"] *)
| Condition (indicator : string).     (* [f"condition_{rule.indicator}"] *)

(** Truth value of an optional number: neither [None] nor zero. *)
Definition truthy_Qc (x : option Qc) : bool :=
  match x with Some x => bool_decide (x ≠ 0) | None => false end.
Definition truthy_Z (x : option Z) : bool :=
  match x with Some x => bool_decide (x ≠ 0%Z) | None => false end.

Module RuleEngine.
Section Float.

(** Python's [float(s)] on a string [s]: [None] when it raises
    [ValueError]. *)
Variable float_of_str : string → option Qc.

(** [float(v)] *)
Definition py_float (v : Value) : PyResult Qc :=
  match v with
  | VNum x => Return x
  | VStr s =>
      match float_of_str s with Some x => Return x | None => Raise ValueError end
  | VOther => Raise TypeError
  end.

Record t := mk {
  config : StrategyConfig.t;
  entry_rules : list RuleCondition.t;
  exit_rules : list RuleCondition.t
}.

Definition _parse_rules (rules_config : RulesConfig.t) : list RuleCondition.t :=
  (λ cond,
     RuleCondition.mk
       (default EmptyString (CondConfig.indicator cond))
       (default EmptyString (CondConfig.operator cond))
       (default (VNum 0) (CondConfig.value cond))
       (default "and" (CondConfig.logic cond)))
  <$> RulesConfig.conditions rules_config.

(** [__init__] *)
Definition init (strategy_config : StrategyConfig.t) : t :=
  mk strategy_config
    (_parse_rules (default RulesConfig.empty (StrategyConfig.entry_rules strategy_config)))
    (_parse_rules (default RulesConfig.empty (StrategyConfig.exit_rules strategy_config))).

Definition _evaluate_condition (rule : RuleCondition.t)
    (indicator_values : gmap string Qc) : PyResult bool :=
  if decide (indicator_values !! RuleCondition.indicator rule = None)
  then Return false
  else
    current_value ← py_getitem indicator_values (RuleCondition.indicator rule);
    (* If compare_value is a string, it might reference another indicator *)
    compare_value ←
      match RuleCondition.value rule with
      | VStr s =>
          if decide (is_Some (indicator_values !! s))
          then VNum <$> py_getitem indicator_values s
          else Return (VStr s)
      | v => Return v
      end;
    r ← try_except (Some <$> py_float compare_value) [ValueError; TypeError]
          (Return None);
    match r with
    | None => Return false
    | Some compare_value =>
        (* Evaluate based on operator *)
        let op := RuleCondition.operator rule in
        if bool_decide (op = ">") || bool_decide (op = "gt")
        then Return (bool_decide (compare_value < current_value))
        else if bool_decide (op = "<") || bool_decide (op = "lt")
        then Return (bool_decide (current_value < compare_value))
        else if bool_decide (op = ">=") || bool_decide (op = "ge")
        then Return (bool_decide (compare_value ≤ current_value))
        else if bool_decide (op = "<=") || bool_decide (op = "le")
        then Return (bool_decide (current_value ≤ compare_value))
        else if bool_decide (op = "==") || bool_decide (op = "eq")
        then Return (bool_decide (Qcabs (current_value - compare_value) < float 0.0001))
        else if bool_decide (op = "!=") || bool_decide (op = "ne")
        then Return (bool_decide (float 0.0001 ≤ Qcabs (current_value - compare_value)))
        else if bool_decide (op = "cross_above") || bool_decide (op = "cross_below")
        then Return false
        else Return false
    end.
(** [for i in range(1, len(conditions_met))]: the running [final_result]
    is combined with [conditions_met[i]] by [logic_operators[i - 1]]. *)
Fixpoint combine_conditions (final_result : bool) (logic_operators : list string)
    (conditions_met : list bool) : bool :=
  match conditions_met, logic_operators with
  | c :: conditions_met, op :: logic_operators =>
      combine_conditions
        (if decide (op = "and") then final_result && c else final_result || c)
        logic_operators conditions_met
  | _, _ => final_result
  end.

(** [sum(conditions_met)]: [True] counts 1, [False] counts 0. *)
Definition py_sum (conditions_met : list bool) : Z :=
  foldr (λ (b : bool) acc, ((if b then 1 else 0) + acc)%Z) 0%Z conditions_met.

Definition check_entry_signal (symbol : string) (bar_data : gmap string Qc)
    (indicator_values : gmap string Qc) (self : t) : PyResult (bool * Qc) :=
  if decide (entry_rules self = []) then Return (false, 0)
  else
    (* Evaluate each condition *)
    conditions_met ←
      mapM (λ rule, _evaluate_condition rule indicator_values) (entry_rules self);
    let logic_operators := RuleCondition.logic <$> entry_rules self in
    (* Combine results based on logic operators *)
    let final_result :=
      match conditions_met with
      | c :: rest => combine_conditions c logic_operators rest
      | [] => false
      end in
    (* Calculate signal strength based on how many conditions are met *)
    strength ←
      (if decide (conditions_met = []) then Return 0
       else py_div (Qc_of_Z (py_sum conditions_met))
                   (Qc_of_Z (Z.of_nat (length conditions_met))));
    Return (final_result, strength).

(** A statement that may execute [return r] (result [Some r]), followed by
    the rest of the function body. *)
Definition or_continue {R} (stmt : PyResult (option R)) (rest : PyResult R)
  : PyResult R :=
  r ← stmt; match r with Some r => Return r | None => rest end.

(** [for rule in self.exit_rules: ...] of [check_exit_signal]. *)
Fixpoint check_exit_conditions (rules : list RuleCondition.t)
    (indicator_values : option (gmap string Qc))
  : PyResult (option (bool * ExitReason)) :=
  match rules with
  | [] => Return None
  | rule :: rules =>
      match indicator_values with
      | Some values =>
          if decide (values = ∅)
          then check_exit_conditions rules indicator_values
          else
            result ← _evaluate_condition rule values;
            if (result : bool)
            then Return (Some (true, Condition (RuleCondition.indicator rule)))
            else check_exit_conditions rules indicator_values
      | None => check_exit_conditions rules indicator_values
      end
  end.

Definition check_exit_signal (symbol : string) (entry_price current_price : Qc)
    (holding_days : Z) (indicator_values : option (gmap string Qc)) (self : t)
  : PyResult (bool * ExitReason) :=
  let exit_config :=
    default RulesConfig.empty (StrategyConfig.exit_rules (config self)) in
  (* Check take profit *)
  let take_profit := RulesConfig.take_profit exit_config in
  or_continue
    (if truthy_Qc take_profit && bool_decide (0 < entry_price) then
       pnl_pct ← py_div (current_price - entry_price) entry_price;
       if decide (default 0 take_profit ≤ pnl_pct)
       then Return (Some (true, TakeProfit pnl_pct))
       else Return None
     else Return None)
  (* Check stop loss *)
  (let stop_loss := RulesConfig.stop_loss exit_config in
   or_continue
    (if truthy_Qc stop_loss && bool_decide (0 < entry_price) then
       pnl_pct ← py_div (current_price - entry_price) entry_price;
       if decide (pnl_pct ≤ - default 0 stop_loss)
       then Return (Some (true, StopLoss pnl_pct))
       else Return None
     else Return None)
  (* Check holding days *)
  (let max_holding_days := RulesConfig.holding_days exit_config in
   or_continue
    (if truthy_Z max_holding_days
        && bool_decide (default 0 max_holding_days ≤ holding_days)%Z
     then Return (Some (true, MaxHoldingDays holding_days))
     else Return None)
  (* Check additional conditions *)
  (or_continue (check_exit_conditions (exit_rules self) indicator_values)
    (Return (false, NoReason))))).
End Float.

(** [evaluate] and [_apply_rule].  [indicator_data] maps an indicator to
    its data frame, whose content [_apply_rule] never reads; [None] is
    Python's [None]. *)
Section Evaluate.

Context {IndicatorFrame : Type}.

Definition _apply_rule (df : DataFrame) (rule : RuleCondition.t)
    (indicator_data : option (gmap string IndicatorFrame)) : PyResult DataFrame :=
  (* If we have indicator data, use it for evaluation *)
  _ ← match indicator_data with
      | Some data =>
          if bool_decide (data ≠ ∅)
             && bool_decide (is_Some (data !! RuleCondition.indicator rule))
          then (λ ind_df, ()) <$> py_getitem data (RuleCondition.indicator rule)
          else Return ()
      | None => Return ()
      end;
  (* For now, just pass through *)
  Return df.

(** [for rule in self.entry_rules: try: ... except Exception: ...] *)
Fixpoint apply_rules (result_df : DataFrame) (rules : list RuleCondition.t)
    (indicator_data : option (gmap string IndicatorFrame)) : PyResult DataFrame :=
  match rules with
  | [] => Return result_df
  | rule :: rules =>
      result_df ←
        try_except (_apply_rule result_df rule indicator_data)
          [ValueError; TypeError; KeyError; ZeroDivisionError]
          (Return result_df);
      apply_rules result_df rules indicator_data
  end.

Definition evaluate (signals_df : option DataFrame)
    (indicator_data : option (gmap string IndicatorFrame)) (self : t)
  : PyResult (option DataFrame) :=
  match signals_df with
  | None => Return signals_df
  | Some df =>
      if decide (length df = 0%nat) then Return signals_df
      else
        (* Start with original signals *)
        let result_df := df in
        (* Apply each entry rule as a filter/adjustment *)
        Some <$> apply_rules result_df (entry_rules self) indicator_data
  end.
End Evaluate.
End RuleEngine.

(** ** The exit rules as the specification words them *)

Section ExitSpec.

Variable float_of_str : string → option Qc.

(** Whether a declarative condition holds on the indicator values. *)
Definition condition_met (rule : RuleCondition.t) (indicator_values : gmap string Qc)
  : bool :=
  match RuleEngine._evaluate_condition float_of_str rule indicator_values with
  | Return b => b
  | Raise _ => false
  end.

(** The exit rules in their fixed priority order: take-profit, stop-loss,
    max-holding-days, then the declarative exit conditions.  Each rule
    comes with whether it is satisfied and with the reason it reports;
    thresholds are fractions of the entry price. *)
Definition spec_exit_rules (self : RuleEngine.t) (entry_price current_price : Qc)
    (holding_days : Z) (indicator_values : option (gmap string Qc))
  : list (bool * ExitReason) :=
  let exit_config :=
    default RulesConfig.empty (StrategyConfig.exit_rules (RuleEngine.config self)) in
  let pnl_pct := (current_price - entry_price) / entry_price in
  [ (match RulesConfig.take_profit exit_config with
     | Some take_profit => bool_decide (take_profit ≠ 0 ∧ take_profit ≤ pnl_pct)
     | None => false
     end, TakeProfit pnl_pct);
    (match RulesConfig.stop_loss exit_config with
     | Some stop_loss => bool_decide (stop_loss ≠ 0 ∧ pnl_pct ≤ - stop_loss)
     | None => false
     end, StopLoss pnl_pct);
    (match RulesConfig.holding_days exit_config with
     | Some days => bool_decide (days ≠ 0 ∧ days ≤ holding_days)%Z
     | None => false
     end, MaxHoldingDays holding_days) ]
  ++ ((λ rule,
         (match indicator_values with
          | Some values => bool_decide (values ≠ ∅) && condition_met rule values
          | None => false
          end, Condition (RuleCondition.indicator rule)))
      <$> RuleEngine.exit_rules self).

(** The first satisfied rule decides, with its reason; no rule, no exit. *)
Definition spec_first_satisfied (rules : list (bool * ExitReason))
  : bool * ExitReason :=
  match filter (λ r, r.1 = true) rules with
  | r :: _ => (true, r.2)
  | [] => (false, NoReason)
  end.

End ExitSpec.

(** ** Runs of the paper account, and what a fill does *)

(** The calls the account receives. *)
Inductive Action :=
| SendOrder (req : OrderRequest.t)
| CancelOrder (req : CancelRequest.t)
| UpdateTick (tick : TickData.t).

Definition step (self : PaperAccount.t) (a : Action) : PaperAccount.t :=
  match a with
  | SendOrder req => (PaperAccount.send_order req self).2
  | CancelOrder req => PaperAccount.cancel_order req self
  | UpdateTick tick => PaperAccount.update_tick tick self
  end.

Definition run (actions : list Action) (self : PaperAccount.t) : PaperAccount.t :=
  foldl step self actions.

(** The events put on the engine between two states of one run. *)
Definition events_since (before after : PaperAccount.t) : list Event :=
  drop (length (PaperAccount.event_engine before)) (PaperAccount.event_engine after).

(** The volume a fill trades, its notional, and the commission and stamp
    duty charged on it. *)
Definition fill_volume (order : OrderData.t) : Qc :=
  OrderData.volume order - OrderData.traded order.

Definition fill_cost (self : PaperAccount.t) (order : OrderData.t) (price : Qc) : Qc :=
  price * fill_volume order * PaperAccount.commission_rate self
  + (if decide (OrderData.direction order = SHORT)
     then price * fill_volume order * PaperAccount.stamp_duty_rate self
     else 0).

(** The reservation of a buy order for [volume] shares:
    [price × volume × (1 + commission_rate)]. *)
Definition reservation (self : PaperAccount.t) (price volume : Qc) : Qc :=
  price * volume * (1 + PaperAccount.commission_rate self).

(** An order after its fill. *)
Definition executed (order : OrderData.t) : OrderData.t :=
  OrderData.set_status ALLTRADED
    (OrderData.set_traded (OrderData.traded order + fill_volume order) order).

(** The trade a fill of [order] at [price] reports. *)
Definition trade_of (self : PaperAccount.t) (order : OrderData.t) (price : Qc)
  : TradeData.t :=
  TradeData.mk (OrderData.symbol order) (OrderData.exchange order)
    (OrderData.orderid order)
    ("TRADE_" +:+ pretty (S (PaperAccount.trade_count self)))
    (OrderData.direction order) price (fill_volume order)
    (PaperAccount.gateway_name self).

(** The position of the order's symbol after the fill. *)
Definition position_after (self : PaperAccount.t) (order : OrderData.t) (price : Qc)
  : PaperPosition.t :=
  PaperPosition.update_trade (OrderData.direction order) (fill_volume order) price
    (default (PaperPosition.init (OrderData.symbol order) (OrderData.exchange order))
       (PaperAccount.positions self
          !! make_vt_symbol (OrderData.symbol order) (OrderData.exchange order))).

(** Whether the order stored under [k] fills on [tick], and at which price
    (slippage applied). *)
Definition fill_of (vt_symbol : string) (tick : TickData.t) (self : PaperAccount.t)
    (k : string) : option (OrderData.t * Qc) :=
  match PaperAccount.orders self !! k with
  | None => None
  | Some order =>
      if decide (make_vt_symbol (OrderData.symbol order) (OrderData.exchange order)
                 = vt_symbol)
      then
        if (PaperAccount.can_fill_at order tick).1
        then Some (order,
                   if decide (OrderData.direction order = LONG)
                   then (PaperAccount.can_fill_at order tick).2
                        * (1 + PaperAccount.slippage self)
                   else (PaperAccount.can_fill_at order tick).2
                        * (1 - PaperAccount.slippage self))
        else None
      else None
  end.

(** The fills of one tick, in the order of the loop of [_match_orders]. *)
Inductive fills (vt_symbol : string) (tick : TickData.t)
  : list string → PaperAccount.t → PaperAccount.t → Prop :=
| fills_nil self : fills vt_symbol tick [] self self
| fills_cons k ks order price self self' :
    fill_of vt_symbol tick self k = Some (order, price) →
    fills vt_symbol tick ks (PaperAccount._execute_trade k order price self) self' →
    fills vt_symbol tick (k :: ks) self self'.

(** Well-formed ledgers: what every state reached from [init] satisfies. *)
Record wf (self : PaperAccount.t) : Prop := {
  wf_active_nodup : NoDup (PaperAccount.active_orders self);
  wf_active_order : ∀ k, k ∈ PaperAccount.active_orders self →
    ∃ order, PaperAccount.orders self !! k = Some order
      ∧ OrderData.orderid order = k
      ∧ OrderData.traded order = 0
      ∧ float 100 ≤ OrderData.volume order
      ∧ OrderData.status order = NOTTRADED;
  wf_active_id : ∀ k, k ∈ PaperAccount.active_orders self →
    ∃ n, (n ≤ PaperAccount.order_count self)%nat ∧ k = PaperAccount.make_orderid n;
  wf_position_volume : ∀ vt_symbol pos,
    PaperAccount.positions self !! vt_symbol = Some pos → 0 ≤ PaperPosition.volume pos;
  wf_trade_id : ∀ trade,
    trade ∈ PaperAccount.trades_of (PaperAccount.event_engine self) →
    (TradeData.orderid trade ∉ PaperAccount.active_orders self)
    ∧ (∃ n, (n ≤ PaperAccount.order_count self)%nat
            ∧ TradeData.orderid trade = PaperAccount.make_orderid n);
  wf_trade_nodup :
    NoDup (TradeData.orderid <$> PaperAccount.trades_of (PaperAccount.event_engine self))
}.

(** [volume × avg_price] of the position stored under [vt_symbol]. *)
Definition cost_at (positions : gmap string PaperPosition.t) (vt_symbol : string) : Qc :=
  match positions !! vt_symbol with
  | Some pos => PaperPosition.volume pos * PaperPosition.avg_price pos
  | None => 0
  end.

(** The account once [update_tick] has stored the tick and refreshed the
    P&L of its position, before the matching. *)
Definition with_tick (tick : TickData.t) (self : PaperAccount.t) : PaperAccount.t :=
  let vt_symbol := TickData.vt_symbol tick in
  let self :=
    PaperAccount.set_ticks (<[vt_symbol := tick]> (PaperAccount.ticks self)) self in
  match PaperAccount.positions self !! vt_symbol with
  | Some pos =>
      PaperAccount.set_positions
        (<[vt_symbol := PaperPosition.calculate_pnl (TickData.last_price tick) pos]>
           (PaperAccount.positions self)) self
  | None => self
  end.

(** ** The limit-order fill rule as the specification words it *)

(** A limit buy fills when the best ask is positive and at most the order
    price, or the last trade price is at most the order price. *)
Definition limit_buy_fills (order : OrderData.t) (tick : TickData.t) : Prop :=
  (0 < TickData.ask_price_1 tick ∧ TickData.ask_price_1 tick ≤ OrderData.price order)
  ∨ TickData.last_price tick ≤ OrderData.price order.

(** A limit sell is symmetric on the bid side. *)
Definition limit_sell_fills (order : OrderData.t) (tick : TickData.t) : Prop :=
  (0 < TickData.bid_price_1 tick ∧ OrderData.price order ≤ TickData.bid_price_1 tick)
  ∨ OrderData.price order ≤ TickData.last_price tick.

(** ** [PaperAccount.get_statistics] *)

(** The dictionary [get_statistics] returns. *)
Module Statistics.
Record t := mk {
  initial_capital : Qc;
  current_balance : Qc;
  frozen : Qc;
  total_pnl : Qc;
  total_commission : Qc;
  total_trades : nat;
  return_pct : Qc
}.
End Statistics.

Definition get_statistics (self : PaperAccount.t) : PyResult Statistics.t :=
  let total_pnl :=
    map_fold (λ _ pos acc, acc + PaperPosition.pnl pos) 0 (PaperAccount.positions self) in
  ratio ← py_div (PaperAccount.balance self + total_pnl - PaperAccount.initial_capital self)
            (PaperAccount.initial_capital self);
  Return (Statistics.mk (PaperAccount.initial_capital self) (PaperAccount.balance self)
            (PaperAccount.frozen self) total_pnl (PaperAccount.total_commission self)
            (PaperAccount.total_trades self) (ratio * float 100)).

(** [TradingEngine.get_account], for an engine whose paper account is
    [self]: the statistics with the available funds,
    [current_balance - frozen], in place of the return. *)
Module AccountInfo.
Record t := mk {
  initial_capital : Qc;
  balance : Qc;
  frozen : Qc;
  available : Qc;
  total_pnl : Qc;
  total_commission : Qc;
  total_trades : nat;
  return_pct : Qc
}.
End AccountInfo.

Definition get_account (self : PaperAccount.t) : PyResult AccountInfo.t :=
  stats ← get_statistics self;
  Return (AccountInfo.mk (Statistics.initial_capital stats) (Statistics.current_balance stats)
            (Statistics.frozen stats)
            (Statistics.current_balance stats - Statistics.frozen stats)
            (Statistics.total_pnl stats) (Statistics.total_commission stats)
            (Statistics.total_trades stats) (Statistics.return_pct stats)).

(** ** [RiskManager]: position sizing and order checks *)

(** [int(x)] on a float: truncation towards zero. *)
Definition py_int (x : Qc) : Z :=
  if decide (0 ≤ x) then Qfloor x else Qceiling x.

Module RiskChecks.

Definition calculate_position_size (symbol : string) (price portfolio_value : Qc)
    (volatility : option Qc) (self : RiskManager.t) : Qc :=
  (* Base position size *)
  let base_size :=
    portfolio_value * RiskLimits.position_size (RiskManager.limits self) in
  (* Adjust for volatility if provided *)
  let base_size :=
    if truthy_Qc volatility && bool_decide (0 < default 0 volatility) then
      (* Higher volatility -> smaller position *)
      let ratio := float 0.02 / default 0 volatility in
      let vol_factor := if decide (ratio < 1) then ratio else 1 in
      base_size * vol_factor
    else base_size in
  (* Ensure minimum viable position (at least 100 shares at current price) *)
  let min_size := price * float 100 in
  if decide (base_size < min_size) then min_size else base_size.

(** [lot_size] defaults to 100. *)
Definition calculate_volume (position_value price : Qc) (lot_size : Z)
    (self : RiskManager.t) : PyResult Z :=
  if decide (price ≤ 0) then Return 0%Z
  else
    shares ← py_div position_value price;
    (* Round down to nearest lot size *)
    lots ← py_div shares (Qc_of_Z lot_size);
    let volume := (py_int lots * lot_size)%Z in
    Return (if decide (0 < volume)%Z then volume else 0%Z).

Definition check_order (symbol direction : string) (volume : Z) (price : Qc)
    (current_positions : gmap string Qc) (portfolio_value : Qc)
    (self : RiskManager.t) : bool * string :=
  let limits := RiskManager.limits self in
  let order_value := Qc_of_Z volume * price in
  (* Check daily loss limit *)
  if decide (RiskManager.daily_pnl self
             < - RiskLimits.daily_loss_limit limits * portfolio_value)
  then (false, "Daily loss limit exceeded")
  (* Check drawdown limit *)
  else if decide (RiskLimits.max_drawdown limits < RiskManager.current_drawdown self)
  then (false, "Maximum drawdown exceeded")
  (* Check position limit for buys *)
  else if decide (direction = "buy") then
    let current_count :=
      length (filter (λ v, v ≠ 0) (map_to_list current_positions).*2) in
    if bool_decide (current_positions !! symbol = None)
       && bool_decide (RiskLimits.max_positions limits ≤ Z.of_nat current_count)%Z
    then (false, "Maximum positions reached")
    (* Check single position size *)
    else if decide (portfolio_value * RiskLimits.position_size limits * float 1.5
                    < order_value)
    then (false, "Position size too large")
    else (true, EmptyString)
  else (true, EmptyString).

End RiskChecks.

(** ** Accounting over a run of the paper account *)

(** The settings [connect] installs. *)
Definition settings (self : PaperAccount.t) : string * Qc * Qc * Qc * Qc * Z :=
  (PaperAccount.gateway_name self, PaperAccount.initial_capital self,
   PaperAccount.commission_rate self, PaperAccount.stamp_duty_rate self,
   PaperAccount.slippage self, PaperAccount.execution_delay self).

Definition sum_Qc (l : list Qc) : Qc := foldr Qcplus 0 l.

(** What [_execute_trade] charges on a trade: the commission, and the
    stamp duty when it is a sell. *)
Definition trade_cost (self : PaperAccount.t) (trade : TradeData.t) : Qc :=
  TradeData.price trade * TradeData.volume trade * PaperAccount.commission_rate self
  + (if decide (TradeData.direction trade = SHORT)
     then TradeData.price trade * TradeData.volume trade
          * PaperAccount.stamp_duty_rate self
     else 0).

(** What a trade moves into the account before costs: its value is paid
    by a buy and received otherwise. *)
Definition trade_cash (trade : TradeData.t) : Qc :=
  if decide (TradeData.direction trade = LONG)
  then - (TradeData.price trade * TradeData.volume trade)
  else TradeData.price trade * TradeData.volume trade.

(** [f"TRADE_{self.trade_count}"] for the [count] trades after the
    [trade_count]-th. *)
Definition tradeids_from (trade_count count : nat) : list string :=
  (λ i, "TRADE_" +:+ pretty i) <$> seq (S trade_count) count.

(** A call that trades nothing: settings, counters of trades, commission
    and balance + frozen stay, and no trade is queued. *)
Record quiet (self self' : PaperAccount.t) : Prop := {
  quiet_settings : settings self' = settings self;
  quiet_trade_count : PaperAccount.trade_count self' = PaperAccount.trade_count self;
  quiet_total_trades : PaperAccount.total_trades self' = PaperAccount.total_trades self;
  quiet_total_commission :
    PaperAccount.total_commission self' = PaperAccount.total_commission self;
  quiet_cash :
    PaperAccount.balance self' + PaperAccount.frozen self'
    = PaperAccount.balance self + PaperAccount.frozen self;
  quiet_events : ∃ new,
    PaperAccount.event_engine self' = PaperAccount.event_engine self ++ new
    ∧ PaperAccount.trades_of new = []
}.

(** The trades queued between two states account for the change of the
    counters, of the commission total and of balance + frozen. *)
Record accounted (self self' : PaperAccount.t) : Prop := {
  accounted_settings : settings self' = settings self;
  accounted_events : ∃ new,
    PaperAccount.event_engine self' = PaperAccount.event_engine self ++ new
    ∧ PaperAccount.trade_count self'
      = (PaperAccount.trade_count self + length (PaperAccount.trades_of new))%nat
    ∧ PaperAccount.total_trades self'
      = (PaperAccount.total_trades self + length (PaperAccount.trades_of new))%nat
    ∧ TradeData.tradeid <$> PaperAccount.trades_of new
      = tradeids_from (PaperAccount.trade_count self)
          (length (PaperAccount.trades_of new))
    ∧ PaperAccount.total_commission self'
      = PaperAccount.total_commission self
        + sum_Qc (trade_cost self <$> PaperAccount.trades_of new)
    ∧ PaperAccount.balance self' + PaperAccount.frozen self'
      = PaperAccount.balance self + PaperAccount.frozen self
        + sum_Qc (trade_cash <$> PaperAccount.trades_of new)
        - sum_Qc (trade_cost self <$> PaperAccount.trades_of new)
}.

(** What the order stored under [k] holds back when it is a buy: the
    reservation of its unfilled volume. *)
Definition reserved_by (self : PaperAccount.t) (k : string) : Qc :=
  match PaperAccount.orders self !! k with
  | Some order =>
      if decide (OrderData.direction order = LONG)
      then reservation self (OrderData.price order) (fill_volume order)
      else 0
  | None => 0
  end.

Definition active_reserved (self : PaperAccount.t) : Qc :=
  sum_Qc (reserved_by self <$> PaperAccount.active_orders self).

(** Every stored order has an identifier the counter has issued. *)
Definition ids_issued (self : PaperAccount.t) : Prop :=
  ∀ k, is_Some (PaperAccount.orders self !! k) →
       ∃ n, (n ≤ PaperAccount.order_count self)%nat ∧ k = PaperAccount.make_orderid n.

(** [TradingEngine.reset_account], for an engine whose paper account is
    [self]: the result of [get_account] after the reset, and the account. *)
Definition reset_account (msg : LogMsg) (self : PaperAccount.t)
  : PyResult AccountInfo.t * PaperAccount.t :=
  let self := PaperAccount.reset msg self in
  (get_account self, self).

(** The calls a [RiskManager] receives between two order checks. *)
Inductive RiskCall :=
| ApplyFilters (signals : option DataFrame) (current_positions : gmap string Qc)
    (portfolio_value : Qc)
| UpdatePnl (portfolio_value : Qc)
| ResetDaily (portfolio_value : Qc).

Definition risk_step (self : RiskManager.t) (c : RiskCall) : RiskManager.t :=
  match c with
  | ApplyFilters signals current_positions portfolio_value =>
      (RiskManager.apply_filters signals current_positions portfolio_value self).2
  | UpdatePnl portfolio_value => RiskManager.update_pnl portfolio_value self
  | ResetDaily portfolio_value => RiskManager.reset_daily portfolio_value self
  end.

Definition risk_run (calls : list RiskCall) (self : RiskManager.t) : RiskManager.t :=
  foldl risk_step self calls.

(** ** Reading a condition *)

(** The rule with another operator. *)
Definition with_operator (operator : string) (rule : RuleCondition.t) : RuleCondition.t :=
  RuleCondition.mk (RuleCondition.indicator rule) operator (RuleCondition.value rule)
    (RuleCondition.logic rule).

Section Comparand.

Variable float_of_str : string → option Qc.

(** The number a condition compares its indicator with: the number
    itself, the value of the indicator a string names, or else the number
    the string spells; none for any other value. *)
Definition comparand (rule : RuleCondition.t) (indicator_values : gmap string Qc)
  : option Qc :=
  match RuleCondition.value rule with
  | VNum x => Some x
  | VStr s =>
      match indicator_values !! s with
      | Some y => Some y
      | None => float_of_str s
      end
  | VOther => None
  end.

End Comparand.

(** ** The replay runner ([scripts/run_paper_trading.py]) *)

(** Of [BarData], the fields the runner reads when it trades. *)
Module BarData.
Record t := mk {
  symbol : string;
  exchange : Exchange;
  close_price : Qc
}.
End BarData.

(** The [strategy_config] dictionary of the runner; [None] is an absent
    key. *)
Module RunnerConfig.
Record t := mk {
  entry_rules : option RulesConfig.t;
  exit_rules : option RulesConfig.t;
  risk_control : option RiskConfig.t
}.
End RunnerConfig.

(** The reasons of [_check_exit], one constructor per f-string. *)
Inductive RunnerExit :=
| RunnerNoExit                            (* the empty string *)
| RunnerTakeProfit (take_profit : Qc)     (* [f"Take profit at {take_profit*100:.1f}%"] *)
| RunnerStopLoss (stop_loss : Qc).        (* [f"Stop loss at {stop_loss*100:.1f}%"] *)

Module PaperTradingRunner.

Definition _bar_to_tick (bar : BarData.t) : TickData.t :=
  TickData.mk (BarData.symbol bar) (BarData.exchange bar) (BarData.close_price bar)
    (BarData.close_price bar * float 0.999)   (* Simulated bid *)
    (BarData.close_price bar * float 1.001)   (* Simulated ask *)
    "PAPER".

Definition _check_entry (strategy_config : RunnerConfig.t)
    (paper_account : PaperAccount.t) (vt_symbol : string) (bar : BarData.t)
  : PyResult (bool * Z) :=
  (* Get entry rules from config *)
  let entry_rules :=
    default RulesConfig.empty (RunnerConfig.entry_rules strategy_config) in
  let conditions := RulesConfig.conditions entry_rules in
  let should_enter := bool_decide (0 < length conditions)%nat in
  if should_enter then
    (* Calculate position size based on risk control *)
    let risk_control :=
      default (RiskConfig.mk None None None None None)
        (RunnerConfig.risk_control strategy_config) in
    let position_size_pct :=
      default (float 0.1) (RiskConfig.position_size risk_control) in
    let available :=
      PaperAccount.balance paper_account - PaperAccount.frozen paper_account in
    let position_value := available * position_size_pct in
    shares ← py_div position_value (BarData.close_price bar);
    let volume := (py_int (shares / float 100) * 100)%Z in
    Return (bool_decide (100 ≤ volume)%Z, volume)
  else Return (false, 0%Z).

Definition _check_exit (strategy_config : RunnerConfig.t) (vt_symbol : string)
    (entry_price current_price : Qc) : bool * RunnerExit :=
  let exit_rules :=
    default RulesConfig.empty (RunnerConfig.exit_rules strategy_config) in
  (* Check take profit *)
  let take_profit := default (float 0.1) (RulesConfig.take_profit exit_rules) in
  if decide (entry_price * (1 + take_profit) ≤ current_price)
  then (true, RunnerTakeProfit take_profit)
  else
    (* Check stop loss *)
    let stop_loss := default (float 0.05) (RulesConfig.stop_loss exit_rules) in
    if decide (current_price ≤ entry_price * (1 - stop_loss))
    then (true, RunnerStopLoss stop_loss)
    else (false, RunnerNoExit).

End PaperTradingRunner.

(** * Properties *)

(** ** Arithmetic on [Qc] *)

Lemma Qc_eq_Qeq (x y : Qc) : x = y ↔ (this x == this y)%Q.
Proof. split; [by intros -> | apply Qc_is_canon]. Qed.

(** Linear arithmetic on [Qc], by way of [Q]. *)
Ltac qc_lra :=
  repeat match goal with
  | H : @eq Qc _ _ |- _ => apply Qc_eq_Qeq in H
  | H : ¬ @eq Qc _ _ |- _ => rewrite Qc_eq_Qeq in H
  | |- @eq Qc _ _ => apply Qc_is_canon
  | |- ¬ @eq Qc _ _ => rewrite Qc_eq_Qeq
  end;
  unfold float, Qcle, Qclt, Qcminus, Qcplus, Qcopp, Qcmult, Q2Qc in *;
  cbn [this] in *; rewrite ?Qred_correct in *; lra.

(** An equation between closed [Qc] terms. *)
Ltac qc_compute := apply Qc_is_canon; vm_compute; reflexivity.

(** ** [PaperPosition.update_trade] *)

Section Position.
Import PaperPosition.

Lemma update_trade_long (volume' price : Qc) (pos : t) :
  0 < volume pos + volume' →
  update_trade LONG volume' price pos
  = mk (symbol pos) (exchange pos) (volume pos + volume') (frozen pos)
       ((avg_price pos * volume pos + price * volume') / (volume pos + volume'))
       (pnl pos).
Proof.
  intros Hpos. unfold update_trade. rewrite decide_True by done. simpl.
  by rewrite decide_True by done.
Qed.

Lemma update_trade_sell_part (direction : Direction) (volume' price : Qc) (pos : t) :
  direction ≠ LONG → volume' < volume pos →
  update_trade direction volume' price pos = set_volume (volume pos - volume') pos.
Proof.
  intros Hd Hlt. unfold update_trade. rewrite decide_False by done. simpl.
  rewrite decide_False; [done | qc_lra].
Qed.

Lemma update_trade_sell_all (direction : Direction) (volume' price : Qc) (pos : t) :
  direction ≠ LONG → volume pos ≤ volume' →
  update_trade direction volume' price pos
  = mk (symbol pos) (exchange pos) 0 (frozen pos) 0 (pnl pos).
Proof.
  intros Hd Hle. unfold update_trade. rewrite decide_False by done. simpl.
  rewrite decide_True; [done | qc_lra].
Qed.

End Position.

(** ** [RiskManager.apply_filters] *)

Section Risk.
Import RiskManager.

Lemma _update_tracking_limits (portfolio_value : Qc) (self : t) :
  limits (_update_tracking portfolio_value self) = limits self.
Proof. unfold _update_tracking. by repeat case_decide. Qed.

Lemma _update_tracking_peak (portfolio_value : Qc) (self : t) :
  peak_portfolio_value (_update_tracking portfolio_value self)
  = if decide (peak_portfolio_value self < portfolio_value)
    then portfolio_value else peak_portfolio_value self.
Proof. unfold _update_tracking. by repeat case_decide. Qed.

Lemma _update_tracking_drawdown (portfolio_value : Qc) (self : t) :
  let self' := _update_tracking portfolio_value self in
  current_drawdown self'
  = if decide (0 < peak_portfolio_value self')
    then (peak_portfolio_value self' - portfolio_value) / peak_portfolio_value self'
    else 0.
Proof. unfold _update_tracking. by repeat case_decide. Qed.

(** For a non-empty frame the tracking is updated first, and the filters
    act on the updated state. *)
Lemma apply_filters_nonempty (df : DataFrame) (current_positions : gmap string Qc)
    (portfolio_value : Qc) (self : t) :
  df ≠ [] →
  let self' := _update_tracking portfolio_value self in
  let current_count :=
    length (filter (λ v, v ≠ 0) (map_to_list current_positions).*2) in
  let available_slots :=
    (RiskLimits.max_positions (limits self) - Z.of_nat current_count)%Z in
  apply_filters (Some df) current_positions portfolio_value self
  = (if decide (RiskLimits.max_drawdown (limits self) < current_drawdown self')
     then Some []
     else if decide (available_slots ≤ 0)%Z
     then Some (filter (λ row, Signal.vt_symbol row ∈ (map_to_list current_positions).*1) df)
     else Some (take (Z.to_nat available_slots) df),
     self').
Proof.
  intros Hne. unfold apply_filters.
  rewrite decide_False by (by destruct df).
  unfold _is_trading_allowed. rewrite !_update_tracking_limits. simpl.
  by repeat case_decide.
Qed.

(** C5.  The tracked peak never decreases across calls.  On a non-empty
    input the tracking is updated first: the peak becomes the larger of
    the old peak and the current value, the drawdown is
    (peak − current)/peak, and when it exceeds [max_drawdown] the result
    is the empty frame, whatever the signals are.  With peak 120,000,
    current value 95,000 and [max_drawdown] 0.15 the result is empty. *)
Theorem apply_filters_drawdown_gate :
  (∀ (signals : option DataFrame) (current_positions : gmap string Qc)
     (portfolio_value : Qc) (self : t),
     peak_portfolio_value self
     ≤ peak_portfolio_value
         (apply_filters signals current_positions portfolio_value self).2)
  ∧ (∀ (df : DataFrame) (current_positions : gmap string Qc)
       (portfolio_value : Qc) (self : t),
       df ≠ [] →
       let r := apply_filters (Some df) current_positions portfolio_value self in
       portfolio_value ≤ peak_portfolio_value r.2
       ∧ (peak_portfolio_value r.2 = portfolio_value
          ∨ peak_portfolio_value r.2 = peak_portfolio_value self)
       ∧ (0 < peak_portfolio_value r.2 →
            current_drawdown r.2
            = (peak_portfolio_value r.2 - portfolio_value) / peak_portfolio_value r.2)
       ∧ (RiskLimits.max_drawdown (limits self) < current_drawdown r.2 →
            r.1 = Some []))
  ∧ (∀ (df : DataFrame) (current_positions : gmap string Qc) (self : t),
       df ≠ [] →
       peak_portfolio_value self = float 120000 →
       RiskLimits.max_drawdown (limits self) = float 0.15 →
       (apply_filters (Some df) current_positions (float 95000) self).1 = Some []).
Proof.
  split; [|split].
  - intros [df|] current_positions portfolio_value self; [|done].
    destruct (decide (df = [])) as [->|Hne]; [done|].
    rewrite apply_filters_nonempty by done. simpl.
    rewrite _update_tracking_peak. case_decide; [qc_lra | done].
  - intros df current_positions portfolio_value self Hne r. subst r.
    rewrite apply_filters_nonempty by done. simpl.
    pose proof (_update_tracking_drawdown portfolio_value self) as Hdd.
    simpl in Hdd. rewrite Hdd. clear Hdd.
    rewrite _update_tracking_peak.
    repeat split.
    + case_decide; [done | qc_lra].
    + case_decide; auto.
    + intros Hpos. by rewrite decide_True.
    + intros Hdd. by rewrite decide_True.
  - intros df current_positions self Hne Hpeak Hmax.
    rewrite apply_filters_nonempty by done. simpl.
    pose proof (_update_tracking_drawdown (float 95000) self) as Hdd.
    simpl in Hdd. rewrite Hdd. clear Hdd.
    rewrite _update_tracking_peak, Hpeak, Hmax.
    rewrite (decide_False (P := float 120000 < float 95000)) by (by vm_compute).
    rewrite (decide_True (P := 0 < float 120000)) by (by vm_compute).
    done.
Qed.

Lemma apply_filters_drawdown_gate_witness :
  let self := mk (RiskLimits.mk 30 (float 0.03) (float 0.15) (float 0.05) (float 0.3))
                (float 120000) 0 0 0 in
  (apply_filters (Some [Signal.mk "000001.SZSE" 1; Signal.mk "600000.SSE" 1]) ∅
     (float 95000) self).1 = Some [].
Proof.
  intros self.
  apply (proj2 (proj2 apply_filters_drawdown_gate)); [done | | ]; by vm_compute.
Defined.

(** When trading is allowed, a full book lets through the rows whose
    symbol is a key of [current_positions], and otherwise the first
    [max_positions − count] rows pass, in their order. *)
Lemma apply_filters_slots (df : DataFrame) (current_positions : gmap string Qc)
    (portfolio_value : Qc) (self : t) :
  df ≠ [] →
  _is_trading_allowed (_update_tracking portfolio_value self) = true →
  let current_count :=
    length (filter (λ v, v ≠ 0) (map_to_list current_positions).*2) in
  let result := (apply_filters (Some df) current_positions portfolio_value self).1 in
  ((RiskLimits.max_positions (limits self) ≤ Z.of_nat current_count)%Z →
     result = Some (filter (λ row, is_Some (current_positions !! Signal.vt_symbol row)) df))
  ∧ ((Z.of_nat current_count < RiskLimits.max_positions (limits self))%Z →
       result
       = Some (take (Z.to_nat (RiskLimits.max_positions (limits self))
                     - current_count) df)).
Proof.
  intros Hne Hallowed current_count result. subst result.
  rewrite apply_filters_nonempty by done. simpl.
  unfold _is_trading_allowed in Hallowed.
  rewrite _update_tracking_limits in Hallowed.
  destruct (decide (_ < _)) as [|_]; [done|]. fold current_count.
  split; intros Hcount.
  - rewrite decide_True by lia. f_equal.
    apply list_filter_iff. intros row.
    rewrite list_elem_of_fmap. split.
    + intros [[k v] [-> Hin]]. apply elem_of_map_to_list in Hin. by exists v.
    + intros [v Hv]. exists (Signal.vt_symbol row, v). split; [done|].
      by apply elem_of_map_to_list.
  - rewrite decide_False by lia. do 2 f_equal. lia.
Qed.

(** C6.  A symbol that was closed stays in [current_positions] with
    position zero.  With the book full ([max_positions] = 1, one non-zero
    position), a signal for such a symbol passes the filter although the
    symbol is not held. *)
Theorem apply_filters_passes_closed_symbol :
  let self := init (Some (RiskConfig.mk (Some 1%Z) None None None None)) in
  let current_positions : gmap string Qc :=
    <["A" := float 100]> (<["B" := 0]> ∅) in
  let signals := [Signal.mk "B" 1]%list in
  current_positions !! "B" = Some 0
  ∧ length (filter (λ v, v ≠ 0) (map_to_list current_positions).*2) = 1%nat
  ∧ (apply_filters (Some signals) current_positions (float 100000) self).1
    = Some signals.
Proof. by vm_compute. Qed.

End Risk.

(** ** [RuleEngine]: conditions, entry and exit signals *)

Section Rules.
Import RuleEngine.

Variable float_of_str : string → option Qc.

Abbreviation _evaluate_condition := (_evaluate_condition float_of_str).
Abbreviation check_entry_signal := (check_entry_signal float_of_str).
Abbreviation check_exit_signal := (check_exit_signal float_of_str).
Abbreviation check_exit_conditions := (check_exit_conditions float_of_str).

Lemma _evaluate_condition_absent (rule : RuleCondition.t)
    (indicator_values : gmap string Qc) :
  indicator_values !! RuleCondition.indicator rule = None →
  _evaluate_condition rule indicator_values = Return false.
Proof. intros Habs. unfold RuleEngine._evaluate_condition. by rewrite decide_True. Qed.

(** The dictionary look-ups are guarded and the conversion sits under
    [try]: no exception leaves [_evaluate_condition]. *)
Lemma _evaluate_condition_total (rule : RuleCondition.t)
    (indicator_values : gmap string Qc) :
  ∃ b, _evaluate_condition rule indicator_values = Return b.
Proof.
  unfold RuleEngine._evaluate_condition, py_getitem.
  destruct (indicator_values !! RuleCondition.indicator rule) as [current|];
    [rewrite decide_False by done | rewrite decide_True by done; eauto].
  simpl. destruct (RuleCondition.value rule) as [x|s|]; simpl.
  - repeat (destruct (_ || _); [eauto|]). eauto.
  - destruct (indicator_values !! s) as [y|].
    + rewrite decide_True by done. simpl.
      repeat (destruct (_ || _); [eauto|]). eauto.
    + rewrite decide_False by (by intros [? ?]). simpl.
      destruct (float_of_str s); simpl; [|eauto].
      repeat (destruct (_ || _); [eauto|]). eauto.
  - eauto.
Qed.

Lemma _evaluate_condition_met (rule : RuleCondition.t)
    (indicator_values : gmap string Qc) :
  _evaluate_condition rule indicator_values
  = Return (condition_met float_of_str rule indicator_values).
Proof.
  unfold condition_met.
  destruct (_evaluate_condition_total rule indicator_values) as [b ->]. done.
Qed.

Lemma _evaluate_condition_unconvertible (rule : RuleCondition.t)
    (indicator_values : gmap string Qc) :
  RuleCondition.value rule = VOther
  ∨ (∃ s, RuleCondition.value rule = VStr s
          ∧ indicator_values !! s = None ∧ float_of_str s = None) →
  _evaluate_condition rule indicator_values = Return false.
Proof.
  intros Hbad. unfold RuleEngine._evaluate_condition, py_getitem.
  destruct (indicator_values !! RuleCondition.indicator rule) as [current|];
    [rewrite decide_False by done | by rewrite decide_True].
  simpl. destruct Hbad as [->|(s & -> & Hs & Hfloat)]; simpl; [done|].
  rewrite Hs. rewrite decide_False by (by intros [? ?]).
  simpl. by rewrite Hfloat.
Qed.

Lemma mapM_Return {A B} (f : A → PyResult B) (g : A → B) (l : list A) :
  (∀ x, f x = Return (g x)) → mapM f l = Return (g <$> l).
Proof.
  intros Hf. induction l as [|x l IH]; [done|].
  simpl. rewrite Hf. simpl. rewrite IH. done.
Qed.

Lemma py_sum_count {A} (g : A → bool) (l : list A) :
  py_sum (g <$> l) = Z.of_nat (length (filter (λ x, g x = true) l)).
Proof.
  induction l as [|x l IH]; [done|].
  rewrite fmap_cons. unfold py_sum in *. simpl foldr. rewrite IH.
  rewrite filter_cons. destruct (g x); simpl; lia.
Qed.


End Rules.


(** ** [RuleEngine.check_exit_signal] against the priority list *)

Section Exit.
Import RuleEngine.

Variable float_of_str : string → option Qc.

Lemma spec_first_satisfied_cons (b : bool) (reason : ExitReason)
    (rules : list (bool * ExitReason)) :
  spec_first_satisfied ((b, reason) :: rules)
  = if b then (true, reason) else spec_first_satisfied rules.
Proof. unfold spec_first_satisfied. rewrite filter_cons. by destruct b. Qed.

Lemma py_div_pos (x y : Qc) : 0 < y → py_div x y = Return (x / y).
Proof.
  intros Hy. unfold py_div. rewrite decide_False; [done|].
  intros ->. by apply Qclt_not_eq in Hy.
Qed.

Lemma take_profit_stage (take_profit : option Qc) (entry_price current_price : Qc)
    (rest : PyResult (bool * ExitReason)) :
  0 < entry_price →
  let pnl_pct := (current_price - entry_price) / entry_price in
  or_continue
    (if truthy_Qc take_profit && bool_decide (0 < entry_price) then
       pnl_pct ← py_div (current_price - entry_price) entry_price;
       if decide (default 0 take_profit ≤ pnl_pct)
       then Return (Some (true, TakeProfit pnl_pct))
       else Return None
     else Return None) rest
  = if match take_profit with
       | Some take_profit => bool_decide (take_profit ≠ 0 ∧ take_profit ≤ pnl_pct)
       | None => false
       end
    then Return (true, TakeProfit pnl_pct) else rest.
Proof.
  intros Hentry pnl_pct. rewrite py_div_pos by done.
  rewrite (bool_decide_eq_true_2 _ Hentry), andb_true_r.
  destruct take_profit as [tp|]; simpl; [|done]. fold pnl_pct.
  destruct (decide (tp ≠ 0)) as [Hnz|Hz];
    [rewrite (bool_decide_eq_true_2 _ Hnz) | rewrite (bool_decide_eq_false_2 _ Hz)];
    simpl.
  - destruct (decide (tp ≤ pnl_pct));
      [rewrite bool_decide_eq_true_2 by done | rewrite bool_decide_eq_false_2 by tauto];
      done.
  - by rewrite bool_decide_eq_false_2 by tauto.
Qed.

Lemma stop_loss_stage (stop_loss : option Qc) (entry_price current_price : Qc)
    (rest : PyResult (bool * ExitReason)) :
  0 < entry_price →
  let pnl_pct := (current_price - entry_price) / entry_price in
  or_continue
    (if truthy_Qc stop_loss && bool_decide (0 < entry_price) then
       pnl_pct ← py_div (current_price - entry_price) entry_price;
       if decide (pnl_pct ≤ - default 0 stop_loss)
       then Return (Some (true, StopLoss pnl_pct))
       else Return None
     else Return None) rest
  = if match stop_loss with
       | Some stop_loss => bool_decide (stop_loss ≠ 0 ∧ pnl_pct ≤ - stop_loss)
       | None => false
       end
    then Return (true, StopLoss pnl_pct) else rest.
Proof.
  intros Hentry pnl_pct. rewrite py_div_pos by done.
  rewrite (bool_decide_eq_true_2 _ Hentry), andb_true_r.
  destruct stop_loss as [sl|]; simpl; [|done]. fold pnl_pct.
  destruct (decide (sl ≠ 0)) as [Hnz|Hz];
    [rewrite (bool_decide_eq_true_2 _ Hnz) | rewrite (bool_decide_eq_false_2 _ Hz)];
    simpl.
  - destruct (decide (pnl_pct ≤ - sl));
      [rewrite bool_decide_eq_true_2 by done | rewrite bool_decide_eq_false_2 by tauto];
      done.
  - by rewrite bool_decide_eq_false_2 by tauto.
Qed.

Lemma holding_days_stage (max_holding_days : option Z) (holding_days : Z)
    (rest : PyResult (bool * ExitReason)) :
  or_continue
    (if truthy_Z max_holding_days
        && bool_decide (default 0 max_holding_days ≤ holding_days)%Z
     then Return (Some (true, MaxHoldingDays holding_days))
     else Return None) rest
  = if match max_holding_days with
       | Some days => bool_decide (days ≠ 0 ∧ days ≤ holding_days)%Z
       | None => false
       end
    then Return (true, MaxHoldingDays holding_days) else rest.
Proof.
  destruct max_holding_days as [days|]; simpl; [|done].
  destruct (decide (days ≠ 0)%Z) as [Hnz|Hz];
    [rewrite (bool_decide_eq_true_2 _ Hnz) | rewrite (bool_decide_eq_false_2 _ Hz)];
    simpl.
  - destruct (decide (days ≤ holding_days)%Z) as [Hle|Hgt];
      [rewrite (bool_decide_eq_true_2 _ Hle), bool_decide_eq_true_2 by done
      |rewrite (bool_decide_eq_false_2 _ Hgt), bool_decide_eq_false_2 by tauto];
      done.
  - by rewrite bool_decide_eq_false_2 by tauto.
Qed.

Lemma conditions_stage (rules : list RuleCondition.t)
    (indicator_values : option (gmap string Qc)) :
  or_continue (check_exit_conditions float_of_str rules indicator_values)
    (Return (false, NoReason))
  = Return (spec_first_satisfied
      ((λ rule,
          (match indicator_values with
           | Some values =>
               bool_decide (values ≠ ∅) && condition_met float_of_str rule values
           | None => false
           end, Condition (RuleCondition.indicator rule))) <$> rules)).
Proof.
  induction rules as [|rule rules IH]; [done|].
  rewrite fmap_cons, spec_first_satisfied_cons. simpl.
  destruct indicator_values as [values|]; [|done].
  case_decide as Hempty.
  - rewrite bool_decide_eq_false_2 by naive_solver. done.
  - rewrite bool_decide_eq_true_2 by done. simpl.
    rewrite _evaluate_condition_met. simpl.
    destruct (condition_met float_of_str rule values); [done|]. apply IH.
Qed.

(** C7.  For a positive entry price, [check_exit_signal] returns what the
    first satisfied rule of the priority list (take-profit, stop-loss,
    max-holding-days, then the declarative exit conditions) gives, with
    that rule's reason.  With entry price 10.00, [take_profit] 0.10,
    [stop_loss] 0.05 and current price 11.00 the result is an exit for
    take-profit, whatever the holding days, the other settings, the exit
    conditions and the indicator values are. *)
Theorem check_exit_signal_priority :
  (∀ (self : t) (symbol : string) (entry_price current_price : Qc)
     (holding_days : Z) (indicator_values : option (gmap string Qc)),
     0 < entry_price →
     check_exit_signal float_of_str symbol entry_price current_price holding_days
       indicator_values self
     = Return (spec_first_satisfied
                 (spec_exit_rules float_of_str self entry_price current_price
                    holding_days indicator_values)))
  ∧ (∀ (self : t) (symbol : string) (holding_days : Z)
       (indicator_values : option (gmap string Qc)) (exit_config : RulesConfig.t),
       StrategyConfig.exit_rules (config self) = Some exit_config →
       RulesConfig.take_profit exit_config = Some (float 0.10) →
       RulesConfig.stop_loss exit_config = Some (float 0.05) →
       check_exit_signal float_of_str symbol (float 10.00) (float 11.00)
         holding_days indicator_values self
       = Return (true, TakeProfit (float 0.10))).
Proof.
  assert (∀ (self : t) (symbol : string) (entry_price current_price : Qc)
     (holding_days : Z) (indicator_values : option (gmap string Qc)),
     0 < entry_price →
     check_exit_signal float_of_str symbol entry_price current_price holding_days
       indicator_values self
     = Return (spec_first_satisfied
                 (spec_exit_rules float_of_str self entry_price current_price
                    holding_days indicator_values))) as Hspec.
  { intros self symbol entry_price current_price holding_days indicator_values Hentry.
    unfold RuleEngine.check_exit_signal, spec_exit_rules.
    rewrite take_profit_stage, stop_loss_stage by done.
    rewrite holding_days_stage, conditions_stage.
    simpl app. rewrite !spec_first_satisfied_cons.
    repeat (destruct (match _ with Some _ => _ | None => false end); [done|]).
    done. }
  split; [exact Hspec|].
  intros self symbol holding_days indicator_values exit_config Hcfg Htp Hsl.
  rewrite Hspec by (by vm_compute).
  unfold spec_exit_rules. rewrite Hcfg. simpl. rewrite Htp.
  rewrite spec_first_satisfied_cons.
  assert ((float 11.00 - float 10.00) / float 10.00 = float 0.10) as -> by qc_compute.
  rewrite bool_decide_eq_true_2; [done|].
  split; by vm_compute.
Qed.

End Exit.

Lemma check_exit_signal_priority_witness :
  let exit_config :=
    RulesConfig.mk [CondConfig.mk (Some "rsi") (Some ">") (Some (VNum (float 70))) None]
      (Some (float 0.10)) (Some (float 0.05)) (Some 5%Z) None in
  let self := RuleEngine.init (StrategyConfig.mk None (Some exit_config)) in
  RuleEngine.check_exit_signal (λ _, None) "000001.SZSE" (float 10.00) (float 11.00)
    30 (Some (<["rsi" := float 80]> ∅)) self
  = Return (true, TakeProfit (float 0.10)).
Proof.
  intros exit_config self.
  by apply (proj2 (check_exit_signal_priority (λ _, None)) self "000001.SZSE" 30%Z
              (Some (<["rsi" := float 80]> ∅)) exit_config).
Defined.

(** ** [PaperAccount]: fills, orders and the ledger *)

Section Account.
Import PaperAccount.

Lemma fill_volume_executed (order : OrderData.t) :
  OrderData.volume order ≤ OrderData.traded order + fill_volume order.
Proof. unfold fill_volume. qc_lra. Qed.

Ltac account_cbv :=
  cbv [_execute_trade _push_position _push_account write_log on_trade on_order
       on_account on_position on_tick on_event
       set_balance set_frozen set_positions set_orders set_active_orders
       set_order_count set_trade_count set_ticks set_total_commission
       set_total_trades set_event_engine
       gateway_name initial_capital balance frozen commission_rate stamp_duty_rate
       slippage execution_delay positions orders active_orders order_count
       trade_count ticks total_commission total_trades event_engine].

(** What [_execute_trade] leaves in each field. *)
Lemma _execute_trade_fields (k : string) (order : OrderData.t) (price : Qc) (self : t) :
  let self' := _execute_trade k order price self in
  let vt_symbol := make_vt_symbol (OrderData.symbol order) (OrderData.exchange order) in
  (gateway_name self' = gateway_name self
   ∧ commission_rate self' = commission_rate self
   ∧ stamp_duty_rate self' = stamp_duty_rate self
   ∧ slippage self' = slippage self
   ∧ active_orders self' = active_orders self
   ∧ order_count self' = order_count self
   ∧ ticks self' = ticks self)
  ∧ (orders self' = <[k := executed order]> (orders self)
     ∧ positions self' = <[vt_symbol := position_after self order price]> (positions self)
     ∧ total_commission self' = total_commission self + fill_cost self order price)
  ∧ (balance self' + frozen self'
     = balance self + frozen self
       + (if decide (OrderData.direction order = LONG)
          then - (price * fill_volume order) else price * fill_volume order)
       - fill_cost self order price)
  ∧ (frozen self'
     = if decide (OrderData.direction order = LONG)
       then frozen self - reservation self (OrderData.price order) (fill_volume order)
       else frozen self)
  ∧ (∃ e1 e2 e3 e4,
       event_engine self'
       = event_engine self
         ++ [EventTrade (trade_of self order price); EventOrder e1; EventAccount e2;
             EventPosition e3; EventLog e4]).
Proof.
  intros self' vt_symbol. subst self' vt_symbol.
  unfold fill_cost, reservation, position_after, executed, fill_volume, trade_of.
  unfold _execute_trade.
  destruct (decide (OrderData.direction order = LONG)) as [Hd|Hd].
  - account_cbv. rewrite lookup_insert_eq. account_cbv.
    rewrite Hd. rewrite (decide_False (P := LONG = SHORT)) by done.
    cbn [OrderData.set_traded OrderData.volume OrderData.traded].
    rewrite (decide_True (P := _ ≤ _)) by apply fill_volume_executed.
    repeat split; try done; try ring.
    rewrite <- !app_assoc. simpl. eexists _, _, _, _. reflexivity.
  - account_cbv. rewrite lookup_insert_eq. account_cbv.
    cbn [OrderData.set_traded OrderData.volume OrderData.traded].
    rewrite (decide_True (P := _ ≤ _)) by apply fill_volume_executed.
    repeat split; try done; try (case_decide; ring).
    rewrite <- !app_assoc. simpl. eexists _, _, _, _. reflexivity.
Qed.

(** Brings the facts of [_execute_trade_fields] into the context and
    names the state after the fill. *)
Ltac exec_fields k order price self :=
  let H := fresh in
  pose proof (_execute_trade_fields k order price self) as H; cbv zeta in H;
  destruct H as ((?Hgateway & ?Hrate & ?Hduty & ?Hslip & ?Hactive & ?Hcount & ?Hticks)
                 & (?Horders & ?Hpositions & ?Hcommission)
                 & ?Hcash & ?Hfrozen & (?e1 & ?e2 & ?e3 & ?e4 & ?Hevents));
  let self' := fresh "after" in
  set (self' := _execute_trade k order price self) in *; clearbody self'.

Lemma filter_ext_in {A} (P Q : A → Prop) `{∀ x, Decision (P x)}
    `{∀ x, Decision (Q x)} (l : list A) :
  (∀ x, x ∈ l → P x ↔ Q x) → filter P l = filter Q l.
Proof.
  induction l as [|x l IH]; intros Hext; [done|].
  rewrite !filter_cons, IH by (intros; apply Hext; by right).
  pose proof (Hext x (list_elem_of_here _ _)) as Hx.
  destruct (decide (P x)), (decide (Q x)); tauto || done.
Qed.

Lemma filter_all_in {A} (P : A → Prop) `{∀ x, Decision (P x)} (l : list A) :
  (∀ x, x ∈ l → P x) → filter P l = l.
Proof.
  induction l as [|x l IH]; intros Hall; [done|].
  rewrite filter_cons_True by (apply Hall; by left).
  rewrite IH; [done|]. intros; apply Hall; by right.
Qed.

Lemma filter_none_in {A} (P : A → Prop) `{∀ x, Decision (P x)} (l : list A) :
  (∀ x, x ∈ l → ¬ P x) → filter P l = [].
Proof.
  induction l as [|x l IH]; intros Hnone; [done|].
  rewrite filter_cons_False by (apply Hnone; by left).
  apply IH. intros; apply Hnone; by right.
Qed.

Lemma Forall2_impl_elem_of {A B} (P Q : A → B → Prop) (l : list A) (k : list B) :
  Forall2 P l k → (∀ x y, x ∈ l → P x y → Q x y) → Forall2 Q l k.
Proof.
  induction 1 as [|x y l k Hxy Hlk IH]; intros Himpl; constructor.
  - apply Himpl; [by left | done].
  - apply IH. intros x' y' Hx'. apply Himpl. by right.
Qed.

Lemma make_orderid_inj : Inj (=) (=) make_orderid.
Proof.
  intros n m Heq. unfold make_orderid in Heq.
  apply (inj (String.append "PAPER_")) in Heq. by apply (inj pretty) in Heq.
Qed.

Lemma trades_of_app (l1 l2 : list Event) :
  trades_of (l1 ++ l2) = trades_of l1 ++ trades_of l2.
Proof. apply omap_app. Qed.

Lemma _execute_trade_trades (k : string) (order : OrderData.t) (price : Qc) (self : t) :
  trades_of (event_engine (_execute_trade k order price self))
  = trades_of (event_engine self) ++ [trade_of self order price].
Proof. exec_fields k order price self. rewrite Hevents, trades_of_app. done. Qed.

Lemma _execute_trade_orders (k : string) (order : OrderData.t) (price : Qc) (self : t) :
  orders (_execute_trade k order price self) = <[k := executed order]> (orders self).
Proof. by exec_fields k order price self. Qed.

(** One iteration of the loop, by cases on [fill_of]. *)
Lemma match_order_fill_of (vt_symbol : string) (tick : TickData.t) (self : t)
    (orders_to_remove : list string) (k : string) :
  match_order vt_symbol tick (self, orders_to_remove) k
  = match fill_of vt_symbol tick self k with
    | Some (order, price) =>
        (_execute_trade k order price self, orders_to_remove ++ [k])
    | None => (self, orders_to_remove)
    end.
Proof.
  unfold match_order, fill_of.
  destruct (orders self !! k) as [order|]; [|done].
  destruct (decide (_ = vt_symbol)) as [Heq|Hne].
  - rewrite decide_False by (by intros []).
    by destruct (can_fill_at order tick) as [[] fill_price].
  - by rewrite decide_True.
Qed.

(** A fill touches the stored object of its own order only. *)
Lemma fill_of_execute_ne (vt_symbol : string) (tick : TickData.t) (self : t)
    (k k' : string) (order : OrderData.t) (price : Qc) :
  k ≠ k' →
  fill_of vt_symbol tick (_execute_trade k order price self) k'
  = fill_of vt_symbol tick self k'.
Proof.
  intros Hne. exec_fields k order price self. unfold fill_of.
  by rewrite Horders, lookup_insert_ne, Hslip.
Qed.

Lemma foldl_match_order_fills (vt_symbol : string) (tick : TickData.t)
    (l : list string) :
  NoDup l → ∀ (self : t) (orders_to_remove : list string),
  let ks := filter (λ k, is_Some (fill_of vt_symbol tick self k)) l in
  ∃ self',
    foldl (match_order vt_symbol tick) (self, orders_to_remove) l
    = (self', orders_to_remove ++ ks)
    ∧ fills vt_symbol tick ks self self'.
Proof.
  induction 1 as [|k l Hk Hl IH]; intros self orders_to_remove ks; subst ks.
  - exists self. simpl. rewrite app_nil_r. split; [done | constructor].
  - rewrite filter_cons.
    change (foldl ?f ?a (k :: l)) with (foldl f (f a k) l).
    rewrite match_order_fill_of.
    destruct (fill_of vt_symbol tick self k) as [[order price]|] eqn:Hfill.
    + rewrite decide_True by done.
      destruct (IH (_execute_trade k order price self) (orders_to_remove ++ [k]))
        as (self' & Hfold & Hfills).
      assert (filter (λ k0, is_Some (fill_of vt_symbol tick
                                       (_execute_trade k order price self) k0)) l
              = filter (λ k0, is_Some (fill_of vt_symbol tick self k0)) l) as Hsame.
      { apply filter_ext_in. intros k0 Hk0.
        rewrite fill_of_execute_ne; [done|]. by intros ->. }
      rewrite Hsame in Hfold, Hfills.
      exists self'. rewrite Hfold, <- app_assoc. split; [done|].
      by econstructor.
    + rewrite decide_False by (by intros [? ?]).
      apply IH.
Qed.

Lemma foldl_del_active (ks : list string) (self : t) :
  foldl (λ self orderid, del_active orderid self) self ks
  = set_active_orders (filter (λ k, k ∉ ks) (active_orders self)) self.
Proof.
  revert self. induction ks as [|k ks IH]; intros self.
  - simpl. rewrite filter_all_in by (intros; apply not_elem_of_nil).
    by destruct self.
  - simpl. rewrite IH. unfold del_active, set_active_orders. simpl. f_equal.
    rewrite list_filter_filter. apply list_filter_iff. intros k'.
    rewrite not_elem_of_cons. tauto.
Qed.

(** [_match_orders] executes the fills of the tick and removes the filled
    orders from the active ones. *)
Lemma _match_orders_fills (vt_symbol : string) (tick : TickData.t) (self : t) :
  NoDup (active_orders self) →
  let ks := filter (λ k, is_Some (fill_of vt_symbol tick self k)) (active_orders self) in
  ∃ self',
    fills vt_symbol tick ks self self'
    ∧ _match_orders vt_symbol tick self
      = set_active_orders (filter (λ k, k ∉ ks) (active_orders self')) self'.
Proof.
  intros Hnodup ks.
  destruct (foldl_match_order_fills vt_symbol tick _ Hnodup self [])
    as (self' & Hfold & Hfills).
  exists self'. split; [done|].
  unfold _match_orders. rewrite Hfold. simpl. apply foldl_del_active.
Qed.

Lemma fill_of_Some (vt_symbol : string) (tick : TickData.t) (self : t) (k : string)
    (order : OrderData.t) (price : Qc) :
  fill_of vt_symbol tick self k = Some (order, price) →
  orders self !! k = Some order
  ∧ make_vt_symbol (OrderData.symbol order) (OrderData.exchange order) = vt_symbol
  ∧ (can_fill_at order tick).1 = true
  ∧ price = (if decide (OrderData.direction order = LONG)
             then (can_fill_at order tick).2 * (1 + slippage self)
             else (can_fill_at order tick).2 * (1 - slippage self)).
Proof.
  unfold fill_of. destruct (orders self !! k) as [order'|]; [|done].
  case_decide; [|done].
  destruct (can_fill_at order' tick).1 eqn:Hcan; [|done].
  by intros [= <- <-].
Qed.

(** The fills of a tick leave the settings, the active keys and the
    stored objects of the other orders alone. *)
Lemma fills_frame (vt_symbol : string) (tick : TickData.t) (ks : list string)
    (self self' : t) :
  fills vt_symbol tick ks self self' →
  (gateway_name self' = gateway_name self
   ∧ commission_rate self' = commission_rate self
   ∧ stamp_duty_rate self' = stamp_duty_rate self
   ∧ slippage self' = slippage self
   ∧ active_orders self' = active_orders self
   ∧ order_count self' = order_count self
   ∧ ticks self' = ticks self)
  ∧ (∀ k, k ∉ ks → orders self' !! k = orders self !! k)
  ∧ (∃ new, event_engine self' = event_engine self ++ new).
Proof.
  induction 1 as [self|k ks order price self self' Hfill Hfills IH].
  - repeat split; try done. exists []. by rewrite app_nil_r.
  - exec_fields k order price self.
    destruct IH as ((-> & -> & -> & -> & -> & -> & ->) & IHorders & (new & ->)).
    repeat split; try done.
    + intros k' [Hne Hk']%not_elem_of_cons.
      by rewrite IHorders, Horders, lookup_insert_ne.
    + rewrite Hevents, <- app_assoc. by eexists.
Qed.

(** Every order among the fills ends as [executed], and reports one
    trade, for its whole remaining volume, at its fill price. *)
Lemma fills_orders_trades (vt_symbol : string) (tick : TickData.t) (ks : list string)
    (self self' : t) :
  fills vt_symbol tick ks self self' → NoDup ks →
  (∀ k, k ∈ ks →
     ∃ order price, fill_of vt_symbol tick self k = Some (order, price)
                    ∧ orders self' !! k = Some (executed order))
  ∧ (∃ trades,
       trades_of (event_engine self') = trades_of (event_engine self) ++ trades
       ∧ Forall2 (λ k trade,
           ∃ order price,
             fill_of vt_symbol tick self k = Some (order, price)
             ∧ TradeData.orderid trade = OrderData.orderid order
             ∧ TradeData.direction trade = OrderData.direction order
             ∧ TradeData.price trade = price
             ∧ TradeData.volume trade = fill_volume order) ks trades).
Proof.
  induction 1 as [self|k ks order price self self' Hfill Hfills IH];
    intros Hnodup.
  - split; [by intros k ?%elem_of_nil|]. exists []. by rewrite app_nil_r.
  - apply NoDup_cons in Hnodup as [Hk Hnodup].
    destruct (IH Hnodup) as (IHorders & trades & IHtrades & IHall).
    split.
    + intros k' [->|Hk']%elem_of_cons.
      * exists order, price. split; [done|].
        destruct (fills_frame _ _ _ _ _ Hfills) as (_ & Hother & _).
        by rewrite Hother, _execute_trade_orders, lookup_insert_eq.
      * destruct (IHorders k' Hk') as (order' & price' & Hfill' & Hexec).
        exists order', price'. split; [|done].
        rewrite <- Hfill'. symmetry. apply fill_of_execute_ne. by intros ->.
    + exists (trade_of self order price :: trades). split.
      * rewrite IHtrades, _execute_trade_trades, <- app_assoc. done.
      * constructor; [by exists order, price|].
        eapply Forall2_impl_elem_of; [exact IHall|].
        intros k' trade Hk' (order' & price' & Hfill' & Hrest).
        exists order', price'. split; [|done].
        rewrite <- Hfill'. symmetry. apply fill_of_execute_ne. by intros ->.
Qed.

(** *** The ledger total across a fill *)

Lemma positions_cost_insert (positions : gmap string PaperPosition.t)
    (vt_symbol : string) (pos : PaperPosition.t) :
  positions_cost (<[vt_symbol := pos]> positions)
  = positions_cost positions - cost_at positions vt_symbol
    + PaperPosition.volume pos * PaperPosition.avg_price pos.
Proof.
  unfold positions_cost, cost_at.
  assert (∀ (j1 j2 : string) (z1 z2 : PaperPosition.t) (y : Qc),
    y + PaperPosition.volume z2 * PaperPosition.avg_price z2
      + PaperPosition.volume z1 * PaperPosition.avg_price z1
    = y + PaperPosition.volume z1 * PaperPosition.avg_price z1
      + PaperPosition.volume z2 * PaperPosition.avg_price z2) as Hcomm
    by (intros; ring).
  destruct (positions !! vt_symbol) as [old|] eqn:Hold.
  - rewrite <- insert_delete_eq.
    rewrite map_fold_insert_L; [|by intros; apply Hcomm|apply lookup_delete_eq].
    rewrite (map_fold_delete_L _ _ vt_symbol old positions);
      [|by intros; apply Hcomm|done].
    ring.
  - rewrite map_fold_insert_L; [|by intros; apply Hcomm|done]. ring.
Qed.

Lemma update_trade_nonneg (direction : Direction) (volume' price : Qc)
    (pos : PaperPosition.t) :
  0 ≤ PaperPosition.volume pos → 0 < volume' →
  0 ≤ PaperPosition.volume (PaperPosition.update_trade direction volume' price pos).
Proof.
  intros Hvol Hpos. destruct (decide (direction = LONG)) as [->|Hd].
  - rewrite update_trade_long by qc_lra. simpl. qc_lra.
  - destruct (decide (PaperPosition.volume pos ≤ volume')) as [Hle|Hgt].
    + by rewrite update_trade_sell_all.
    + rewrite update_trade_sell_part by (done || qc_lra). simpl. qc_lra.
Qed.

(** The position a fill starts from has a non-negative volume. *)
Lemma position_before_nonneg (self : t) (order : OrderData.t) :
  (∀ vt_symbol pos, positions self !! vt_symbol = Some pos → 0 ≤ PaperPosition.volume pos) →
  0 ≤ PaperPosition.volume
        (default (PaperPosition.init (OrderData.symbol order) (OrderData.exchange order))
           (positions self
              !! make_vt_symbol (OrderData.symbol order) (OrderData.exchange order))).
Proof.
  intros Hpos. destruct (positions self !! _) as [pos|] eqn:Hlook; simpl.
  - by eapply Hpos.
  - done.
Qed.

Lemma _execute_trade_positions_nonneg (k : string) (order : OrderData.t) (price : Qc)
    (self : t) :
  0 < fill_volume order →
  (∀ vt_symbol pos, positions self !! vt_symbol = Some pos → 0 ≤ PaperPosition.volume pos) →
  ∀ vt_symbol pos,
    positions (_execute_trade k order price self) !! vt_symbol = Some pos →
    0 ≤ PaperPosition.volume pos.
Proof.
  intros Hvol Hpos vt_symbol pos. exec_fields k order price self.
  rewrite Hpositions.
  destruct (decide (make_vt_symbol (OrderData.symbol order) (OrderData.exchange order)
                    = vt_symbol)) as [<-|Hne].
  - rewrite lookup_insert_eq. intros [= <-].
    apply update_trade_nonneg; [|done]. by apply position_before_nonneg.
  - rewrite lookup_insert_ne by done. apply Hpos.
Qed.

(** A buy fill lowers the ledger total by its commission only: the cash
    paid for the shares reappears as position cost. *)
Lemma ledger_buy (self after : t) (order : OrderData.t) (price : Qc) :
  positions after
  = <[make_vt_symbol (OrderData.symbol order) (OrderData.exchange order)
      := position_after self order price]> (positions self) →
  balance after + frozen after
  = balance self + frozen self + - (price * fill_volume order)
    - fill_cost self order price →
  OrderData.direction order = LONG →
  0 < fill_volume order →
  (∀ vt_symbol pos, positions self !! vt_symbol = Some pos → 0 ≤ PaperPosition.volume pos) →
  ledger_total after = ledger_total self - fill_cost self order price.
Proof.
  intros Hpositions Hcash Hd Hvol Hpos.
  unfold ledger_total. rewrite Hpositions, positions_cost_insert.
  pose proof (position_before_nonneg self order Hpos) as Hbefore.
  unfold position_after, cost_at. rewrite Hd.
  destruct (positions self !! _) as [pos|]; simpl in Hbefore; simpl default.
  - rewrite update_trade_long by (clear - Hvol Hbefore; qc_lra).
    cbn [PaperPosition.volume PaperPosition.avg_price].
    assert (PaperPosition.volume pos + fill_volume order ≠ 0) as Hne
      by (clear - Hvol Hbefore; qc_lra).
    transitivity (balance after + frozen after
                  + positions_cost (positions self) + price * fill_volume order);
      [by field | rewrite Hcash; ring].
  - rewrite update_trade_long by (clear - Hvol; simpl; qc_lra).
    cbn [PaperPosition.volume PaperPosition.avg_price PaperPosition.init].
    transitivity (balance after + frozen after
                  + positions_cost (positions self) + price * fill_volume order);
      [field; clear - Hvol; qc_lra | rewrite Hcash; ring].
Qed.

Lemma _execute_trade_ledger_buy (k : string) (order : OrderData.t) (price : Qc)
    (self : t) :
  OrderData.direction order = LONG →
  0 < fill_volume order →
  (∀ vt_symbol pos, positions self !! vt_symbol = Some pos → 0 ≤ PaperPosition.volume pos) →
  ledger_total (_execute_trade k order price self)
  = ledger_total self - fill_cost self order price.
Proof.
  intros Hd Hvol Hpos.
  destruct (_execute_trade_fields k order price self)
    as (_ & (_ & Hpositions & _) & Hcash & _).
  rewrite decide_True in Hcash by done.
  by apply ledger_buy.
Qed.

(** A sell fill of at most the held volume changes the ledger total by
    the realised profit or loss, less commission and stamp duty. *)
Lemma ledger_sell (self after : t) (order : OrderData.t) (price : Qc)
    (pos : PaperPosition.t) :
  positions after
  = <[make_vt_symbol (OrderData.symbol order) (OrderData.exchange order)
      := position_after self order price]> (positions self) →
  balance after + frozen after
  = balance self + frozen self + price * fill_volume order
    - fill_cost self order price →
  OrderData.direction order ≠ LONG →
  positions self !! make_vt_symbol (OrderData.symbol order) (OrderData.exchange order)
  = Some pos →
  fill_volume order ≤ PaperPosition.volume pos →
  ledger_total after
  = ledger_total self
    + (price - PaperPosition.avg_price pos) * fill_volume order
    - fill_cost self order price.
Proof.
  intros Hpositions Hcash Hd Hlook Hheld.
  unfold ledger_total. rewrite Hpositions, positions_cost_insert.
  unfold position_after, cost_at. rewrite Hlook. simpl default.
  destruct (decide (PaperPosition.volume pos ≤ fill_volume order)) as [Hle|Hgt].
  - rewrite update_trade_sell_all by done.
    cbn [PaperPosition.volume PaperPosition.avg_price].
    assert (fill_volume order = PaperPosition.volume pos) as Heq
      by (clear - Hle Hheld; qc_lra).
    transitivity (balance after + frozen after + positions_cost (positions self)
                  - PaperPosition.volume pos * PaperPosition.avg_price pos);
      [ring | rewrite Hcash, Heq; ring].
  - rewrite update_trade_sell_part by (done || (clear - Hgt; qc_lra)).
    cbn [PaperPosition.volume PaperPosition.avg_price PaperPosition.set_volume].
    transitivity (balance after + frozen after + positions_cost (positions self)
                  - fill_volume order * PaperPosition.avg_price pos);
      [ring | rewrite Hcash; ring].
Qed.

Lemma _execute_trade_ledger_sell (k : string) (order : OrderData.t) (price : Qc)
    (self : t) (pos : PaperPosition.t) :
  OrderData.direction order ≠ LONG →
  positions self !! make_vt_symbol (OrderData.symbol order) (OrderData.exchange order)
  = Some pos →
  fill_volume order ≤ PaperPosition.volume pos →
  ledger_total (_execute_trade k order price self)
  = ledger_total self
    + (price - PaperPosition.avg_price pos) * fill_volume order
    - fill_cost self order price.
Proof.
  intros Hd Hlook Hheld.
  destruct (_execute_trade_fields k order price self)
    as (_ & (_ & Hpositions & _) & Hcash & _).
  rewrite decide_False in Hcash by done.
  by eapply ledger_sell.
Qed.

(** Fills of buy orders only: the ledger total falls by the commissions
    charged, and no position volume turns negative. *)
Lemma fills_ledger_buys (vt_symbol : string) (tick : TickData.t) (ks : list string)
    (self self' : t) :
  fills vt_symbol tick ks self self' → NoDup ks →
  (∀ k order, k ∈ ks → orders self !! k = Some order →
     OrderData.direction order = LONG ∧ 0 < fill_volume order) →
  (∀ vt pos, positions self !! vt = Some pos → 0 ≤ PaperPosition.volume pos) →
  ledger_total self'
  = ledger_total self - (total_commission self' - total_commission self).
Proof.
  induction 1 as [self|k ks order price self self' Hfill Hfills IH];
    intros Hnodup Hbuys Hpos.
  - ring.
  - apply NoDup_cons in Hnodup as [Hk Hnodup].
    apply fill_of_Some in Hfill as (Horder & _).
    destruct (Hbuys k order (list_elem_of_here _ _) Horder) as [Hlong Hvol].
    pose proof (_execute_trade_ledger_buy k order price self Hlong Hvol Hpos) as Hstep.
    pose proof (_execute_trade_positions_nonneg k order price self Hvol Hpos) as Hpos'.
    assert (∀ k' order', k' ∈ ks →
              orders (_execute_trade k order price self) !! k' = Some order' →
              OrderData.direction order' = LONG ∧ 0 < fill_volume order') as Hbuys'.
    { intros k' order' Hk'. rewrite _execute_trade_orders.
      rewrite lookup_insert_ne by (by intros ->).
      apply Hbuys. by right. }
    specialize (IH Hnodup Hbuys' Hpos').
    destruct (_execute_trade_fields k order price self)
      as (_ & (_ & _ & Hcommission) & _).
    revert IH Hstep Hcommission.
    generalize (_execute_trade k order price self). intros after -> -> ->. ring.
Qed.

Lemma fills_positions_nonneg (vt_symbol : string) (tick : TickData.t)
    (ks : list string) (self self' : t) :
  fills vt_symbol tick ks self self' → NoDup ks →
  (∀ k order, k ∈ ks → orders self !! k = Some order → 0 < fill_volume order) →
  (∀ vt pos, positions self !! vt = Some pos → 0 ≤ PaperPosition.volume pos) →
  ∀ vt pos, positions self' !! vt = Some pos → 0 ≤ PaperPosition.volume pos.
Proof.
  induction 1 as [self|k ks order price self self' Hfill Hfills IH];
    intros Hnodup Hvols Hpos; [done|].
  apply NoDup_cons in Hnodup as [Hk Hnodup].
  apply fill_of_Some in Hfill as (Horder & _).
  apply IH; [done| |].
  - intros k' order' Hk'. rewrite _execute_trade_orders.
    rewrite lookup_insert_ne by (by intros ->).
    apply Hvols. by right.
  - apply _execute_trade_positions_nonneg; [|done].
    eapply Hvols; [by left | done].
Qed.

(** *** [update_tick] *)

Lemma update_tick_with_tick (tick : TickData.t) (self : t) :
  update_tick tick self
  = on_tick tick (_match_orders (TickData.vt_symbol tick) tick (with_tick tick self)).
Proof. done. Qed.

Lemma with_tick_fields (tick : TickData.t) (self : t) :
  let self' := with_tick tick self in
  (gateway_name self' = gateway_name self
   ∧ commission_rate self' = commission_rate self
   ∧ stamp_duty_rate self' = stamp_duty_rate self
   ∧ slippage self' = slippage self
   ∧ active_orders self' = active_orders self
   ∧ order_count self' = order_count self
   ∧ orders self' = orders self)
  ∧ (balance self' = balance self
     ∧ frozen self' = frozen self
     ∧ total_commission self' = total_commission self
     ∧ event_engine self' = event_engine self)
  ∧ positions_cost (positions self') = positions_cost (positions self)
  ∧ ((∀ vt pos, positions self !! vt = Some pos → 0 ≤ PaperPosition.volume pos) →
     ∀ vt pos, positions self' !! vt = Some pos → 0 ≤ PaperPosition.volume pos).
Proof.
  unfold with_tick. cbv zeta. cbn [positions set_ticks].
  destruct (positions self !! TickData.vt_symbol tick) as [pos|] eqn:Hpos.
  - repeat split; try done.
    + cbn [positions set_positions set_ticks].
      rewrite positions_cost_insert. unfold cost_at. rewrite Hpos.
      unfold PaperPosition.calculate_pnl. destruct (_ && _); simpl; ring.
    + cbn [positions set_positions set_ticks]. intros Hnonneg vt pos'.
      destruct (decide (TickData.vt_symbol tick = vt)) as [<-|Hne].
      * rewrite lookup_insert_eq. intros [= <-].
        unfold PaperPosition.calculate_pnl. destruct (_ && _); simpl; by eapply Hnonneg.
      * rewrite lookup_insert_ne by done. apply Hnonneg.
  - repeat split; done.
Qed.

Lemma fill_of_with_tick (vt_symbol : string) (tick tick' : TickData.t) (self : t)
    (k : string) :
  fill_of vt_symbol tick (with_tick tick' self) k = fill_of vt_symbol tick self k.
Proof.
  destruct (with_tick_fields tick' self) as ((_ & _ & _ & Hslip & _ & _ & Horders) & _).
  unfold fill_of. by rewrite Horders, Hslip.
Qed.

(** *** [send_order] and [cancel_order], field by field *)

Ltac account_cbv_all :=
  cbv [send_order cancel_order del_active fst snd
       _push_position _push_account write_log on_trade on_order
       on_account on_position on_tick on_event
       set_balance set_frozen set_positions set_orders set_active_orders
       set_order_count set_trade_count set_ticks set_total_commission
       set_total_trades set_event_engine
       gateway_name initial_capital balance frozen commission_rate stamp_duty_rate
       slippage execution_delay positions orders active_orders order_count
       trade_count ticks total_commission total_trades event_engine].

Lemma store_active_fields (orderid : string) (order : OrderData.t) (self : t) :
  store_active orderid order self
  = set_active_orders
      (if decide (orderid ∈ active_orders self) then active_orders self
       else active_orders self ++ [orderid])
      (set_orders (<[orderid := order]> (orders self)) self).
Proof.
  unfold store_active. cbv zeta. cbn [active_orders set_orders].
  by destruct (decide (orderid ∈ active_orders self)), self.
Qed.

Lemma send_order_validate (req : OrderRequest.t) (self : t) :
  send_order req self
  = let self1 := set_order_count (S (order_count self)) self in
    let orderid := make_orderid (S (order_count self)) in
    let order := create_order_data req orderid (gateway_name self) in
    let vt_symbol :=
      make_vt_symbol (OrderRequest.symbol req) (OrderRequest.exchange req) in
    match _validate_order req vt_symbol self with
    | (false, error_msg) =>
        (EmptyString,
         write_log (LogOrderRejected error_msg)
           (on_order (OrderData.set_status REJECTED order) self1))
    | (true, _) =>
        let self2 :=
          if decide (OrderRequest.direction req = LONG) then
            let total_frozen :=
              OrderRequest.price req * OrderRequest.volume req
              + OrderRequest.price req * OrderRequest.volume req * commission_rate self in
            set_balance (balance self - total_frozen)
              (set_frozen (frozen self + total_frozen) self1)
          else self1 in
        (OrderData.vt_orderid order,
         write_log (LogOrderSubmitted vt_symbol (OrderRequest.direction req)
                      (OrderRequest.volume req) (OrderRequest.price req))
           (on_order (OrderData.set_status NOTTRADED order)
              (store_active orderid (OrderData.set_status NOTTRADED order) self2)))
    end.
Proof.
  unfold send_order. cbv zeta.
  change (_validate_order req ?vt (set_order_count ?n self))
    with (_validate_order req vt self).
  destruct (_validate_order req _ self) as [[] error_msg]; [|done].
  cbn [negb]. by destruct (decide (OrderRequest.direction req = LONG)).
Qed.

(** A rejected order: the counter advances and two events are queued;
    nothing else changes. *)
Lemma send_order_rejected (req : OrderRequest.t) (self : t) (error_msg : ErrorMsg) :
  _validate_order req
    (make_vt_symbol (OrderRequest.symbol req) (OrderRequest.exchange req)) self
  = (false, error_msg) →
  send_order req self
  = (EmptyString,
     set_event_engine
       (event_engine self
        ++ [EventOrder
              (OrderData.set_status REJECTED
                 (create_order_data req (make_orderid (S (order_count self)))
                    (gateway_name self)));
            EventLog (LogOrderRejected error_msg)])
       (set_order_count (S (order_count self)) self)).
Proof.
  intros Hvalid. rewrite send_order_validate. cbv zeta. rewrite Hvalid.
  account_cbv_all. by rewrite <- app_assoc.
Qed.

(** An accepted order. *)
Lemma send_order_accepted (req : OrderRequest.t) (self : t) (error_msg : ErrorMsg) :
  _validate_order req
    (make_vt_symbol (OrderRequest.symbol req) (OrderRequest.exchange req)) self
  = (true, error_msg) →
  let orderid := make_orderid (S (order_count self)) in
  let order :=
    OrderData.set_status NOTTRADED
      (create_order_data req orderid (gateway_name self)) in
  let amount :=
    if decide (OrderRequest.direction req = LONG)
    then reservation self (OrderRequest.price req) (OrderRequest.volume req)
    else 0 in
  let self' := (send_order req self).2 in
  (send_order req self).1 = gateway_name self +:+ "." +:+ orderid
  ∧ (gateway_name self' = gateway_name self
     ∧ commission_rate self' = commission_rate self
     ∧ stamp_duty_rate self' = stamp_duty_rate self
     ∧ slippage self' = slippage self
     ∧ positions self' = positions self
     ∧ total_commission self' = total_commission self
     ∧ order_count self' = S (order_count self))
  ∧ (orders self' = <[orderid := order]> (orders self)
     ∧ active_orders self'
       = if decide (orderid ∈ active_orders self) then active_orders self
         else active_orders self ++ [orderid])
  ∧ (balance self' = balance self - amount ∧ frozen self' = frozen self + amount)
  ∧ (∃ e, event_engine self' = event_engine self ++ [EventOrder order; EventLog e]).
Proof.
  intros Hvalid orderid order amount self'. subst self' amount order orderid.
  rewrite send_order_validate. cbv zeta. rewrite Hvalid, store_active_fields.
  unfold reservation.
  destruct (decide (OrderRequest.direction req = LONG));
    account_cbv_all;
    (repeat split; try done; try ring;
     rewrite <- app_assoc; by eexists).
Qed.

Lemma cancel_order_inactive (req : CancelRequest.t) (self : t) :
  CancelRequest.orderid req ∉ active_orders self →
  cancel_order req self
  = write_log (LogOrderNotFound (CancelRequest.orderid req)) self.
Proof. intros Hnot. unfold cancel_order. cbv zeta. by rewrite decide_True. Qed.

Lemma cancel_order_active (req : CancelRequest.t) (self : t) (order : OrderData.t) :
  CancelRequest.orderid req ∈ active_orders self →
  orders self !! CancelRequest.orderid req = Some order →
  let orderid := CancelRequest.orderid req in
  let amount :=
    if decide (OrderData.direction order = LONG)
    then reservation self (OrderData.price order) (fill_volume order)
    else 0 in
  let self' := cancel_order req self in
  (gateway_name self' = gateway_name self
   ∧ commission_rate self' = commission_rate self
   ∧ stamp_duty_rate self' = stamp_duty_rate self
   ∧ slippage self' = slippage self
   ∧ positions self' = positions self
   ∧ total_commission self' = total_commission self
   ∧ order_count self' = order_count self)
  ∧ (orders self' = <[orderid := OrderData.set_status CANCELLED order]> (orders self)
     ∧ active_orders self' = filter (λ k, k ≠ orderid) (active_orders self))
  ∧ (balance self' = balance self + amount ∧ frozen self' = frozen self - amount)
  ∧ (∃ e1 e2 e3,
       event_engine self'
       = event_engine self ++ [EventOrder e1; EventAccount e2; EventLog e3]).
Proof.
  intros Hactive Horder orderid amount self'. subst self' amount orderid.
  unfold cancel_order. cbv zeta. rewrite decide_False by (by intros ?).
  rewrite Horder. unfold reservation, fill_volume.
  destruct (decide (OrderData.direction order = LONG));
    account_cbv_all;
    (repeat split; try done; try ring;
     rewrite <- !app_assoc; by eexists _, _, _).
Qed.

(** *** Lot-size rejections *)

Lemma py_mod_multiple (v : Qc) :
  py_mod v (float 100) = 0 ↔ ∃ n : Z, v = float 100 * Qc_of_Z n.
Proof.
  unfold py_mod. split.
  - intros Hmod. exists (Qfloor (this v / this (float 100))).
    set (m := Qc_of_Z (Qfloor (this v / this (float 100)))) in *.
    transitivity (v - float 100 * m + float 100 * m); [ring|].
    rewrite Hmod. ring.
  - intros [n ->].
    assert (this (float 100 * Qc_of_Z n) / this (float 100) == inject_Z n)%Q as Hdiv.
    { unfold Qcmult, float, Q2Qc. cbn [this]. rewrite !Qred_correct.
      change (this (Qc_of_Z n)) with (inject_Z n). field. }
    rewrite Hdiv, Qfloor_Z. ring.
Qed.

Lemma _validate_order_lot (req : OrderRequest.t) (vt_symbol : string) (self : t) :
  OrderRequest.volume req < float 100
  ∨ ¬ (∃ n : Z, OrderRequest.volume req = float 100 * Qc_of_Z n) →
  _validate_order req vt_symbol self = (false, VolumeTooSmall)
  ∨ _validate_order req vt_symbol self = (false, VolumeNotMultiple).
Proof.
  intros Hlot. unfold _validate_order.
  destruct (decide (OrderRequest.volume req < float 100)); [by left|].
  destruct Hlot as [?|Hmultiple]; [done|].
  rewrite decide_True; [by right|].
  by rewrite py_mod_multiple.
Qed.

(** C3 as stated fails: a rejected call does change the account, the
    order counter advances.  Here a fresh account rejects 50 shares. *)
Lemma send_order_rejected_counter :
  let self := init "PAPER" in
  let req := OrderRequest.mk "000001" SZSE LONG LIMIT (float 50) (float 10) in
  OrderRequest.volume req < float 100
  ∧ (send_order req self).1 = EmptyString
  ∧ order_count self = 0%nat
  ∧ order_count (send_order req self).2 = 1%nat
  ∧ (send_order req self).2 ≠ self.
Proof.
  intros self req.
  assert (_validate_order req
            (make_vt_symbol (OrderRequest.symbol req) (OrderRequest.exchange req)) self
          = (false, VolumeTooSmall)) as Hvalid by by vm_compute.
  rewrite (send_order_rejected _ _ _ Hvalid).
  repeat split; try done;
    intros Heq; by apply (f_equal order_count) in Heq.
Qed.

(** C3, amended.  An order whose volume is below 100 or is not a multiple
    of 100 is rejected: [send_order] returns the empty identifier, queues
    the rejected order and logs one of the two lot-size reasons, and
    advances the order counter; every other field of the account, balance
    and frozen among them, is unchanged. *)
Theorem send_order_lot_rejected (req : OrderRequest.t) (self : t) :
  OrderRequest.volume req < float 100
  ∨ ¬ (∃ n : Z, OrderRequest.volume req = float 100 * Qc_of_Z n) →
  let self' := (send_order req self).2 in
  ∃ error_msg,
    (error_msg = VolumeTooSmall ∨ error_msg = VolumeNotMultiple)
    ∧ error_text error_msg ≠ EmptyString
    ∧ (send_order req self).1 = EmptyString
    ∧ self'
      = set_event_engine
          (event_engine self
           ++ [EventOrder
                 (OrderData.set_status REJECTED
                    (create_order_data req (make_orderid (S (order_count self)))
                       (gateway_name self)));
               EventLog (LogOrderRejected error_msg)])
          (set_order_count (S (order_count self)) self)
    ∧ balance self' = balance self
    ∧ frozen self' = frozen self
    ∧ positions self' = positions self
    ∧ orders self' = orders self
    ∧ active_orders self' = active_orders self.
Proof.
  intros Hlot self'. subst self'.
  destruct (_validate_order_lot req
              (make_vt_symbol (OrderRequest.symbol req) (OrderRequest.exchange req))
              self Hlot) as [Hvalid|Hvalid];
    rewrite (send_order_rejected _ _ _ Hvalid);
    eexists; (split; [by (left + right)|]); done.
Qed.

Lemma send_order_lot_rejected_witness :
  let self := init "PAPER" in
  let req := OrderRequest.mk "000001" SZSE LONG LIMIT (float 150) (float 10) in
  balance (send_order req self).2 = balance self
  ∧ frozen (send_order req self).2 = frozen self.
Proof.
  intros self req.
  destruct (send_order_lot_rejected req self) as (msg & _ & _ & _ & _ & Hb & Hf & _).
  - right. rewrite <- py_mod_multiple. by vm_compute.
  - by split.
Defined.

(** *** Cancelling *)

(** C4.  Cancelling an active buy order moves the reservation of its
    unfilled remainder, (volume − traded) × price × (1 + commission_rate),
    from frozen back to balance, marks the order [CANCELLED] and removes it
    from the active orders.  Submitting a buy order and cancelling it
    before any fill restores balance and frozen.  Cancelling an order
    that is not active changes nothing but the log. *)
Theorem cancel_order_unfreezes :
  (∀ (req : CancelRequest.t) (self : t) (order : OrderData.t),
     CancelRequest.orderid req ∈ active_orders self →
     orders self !! CancelRequest.orderid req = Some order →
     OrderData.direction order = LONG →
     let amount :=
       (OrderData.volume order - OrderData.traded order) * OrderData.price order
       * (1 + commission_rate self) in
     let self' := cancel_order req self in
     frozen self' = frozen self - amount
     ∧ balance self' = balance self + amount
     ∧ orders self' !! CancelRequest.orderid req
       = Some (OrderData.set_status CANCELLED order)
     ∧ CancelRequest.orderid req ∉ active_orders self')
  ∧ (∀ (req : OrderRequest.t) (self : t),
       OrderRequest.direction req = LONG →
       (send_order req self).1 ≠ EmptyString →
       let orderid := make_orderid (S (order_count self)) in
       let self' :=
         cancel_order
           (CancelRequest.mk orderid (OrderRequest.symbol req) (OrderRequest.exchange req))
           (send_order req self).2 in
       balance self' = balance self
       ∧ frozen self' = frozen self
       ∧ OrderData.status <$> orders self' !! orderid = Some CANCELLED)
  ∧ (∀ (req : CancelRequest.t) (self : t),
       CancelRequest.orderid req ∉ active_orders self →
       let self' := cancel_order req self in
       balance self' = balance self
       ∧ frozen self' = frozen self
       ∧ orders self' = orders self
       ∧ active_orders self' = active_orders self
       ∧ event_engine self'
         = event_engine self ++ [EventLog (LogOrderNotFound (CancelRequest.orderid req))]).
Proof.
  split; [|split].
  - intros req self order Hactive Horder Hlong amount self'. subst amount self'.
    destruct (cancel_order_active req self order Hactive Horder)
      as (_ & (Horders & Hact) & (Hbalance & Hfrozen) & _).
    rewrite decide_True in Hbalance, Hfrozen by done.
    rewrite Hbalance, Hfrozen, Horders, Hact, lookup_insert_eq.
    unfold reservation, fill_volume.
    repeat split; try ring.
    rewrite list_elem_of_filter. by intros [? _].
  - intros req self Hlong Hid orderid self'. subst self'.
    destruct (_validate_order req
                (make_vt_symbol (OrderRequest.symbol req) (OrderRequest.exchange req))
                self) as [[] error_msg] eqn:Hvalid;
      [|by rewrite (send_order_rejected _ _ _ Hvalid) in Hid].
    destruct (send_order_accepted req self error_msg Hvalid)
      as (_ & (_ & Hrate & _) & (Horders & Hact) & (Hbalance & Hfrozen) & _).
    rewrite decide_True in Hbalance, Hfrozen by done.
    fold orderid in Horders, Hact.
    set (order := OrderData.set_status NOTTRADED
                    (create_order_data req orderid (gateway_name self))) in *.
    assert (orderid ∈ active_orders (send_order req self).2) as Hin.
    { rewrite Hact. case_decide; [done|]. apply elem_of_app. right. by left. }
    assert (orders (send_order req self).2 !! orderid = Some order) as Hlook
      by (by rewrite Horders, lookup_insert_eq).
    destruct (cancel_order_active
                (CancelRequest.mk orderid (OrderRequest.symbol req)
                   (OrderRequest.exchange req))
                (send_order req self).2 order Hin Hlook)
      as (_ & (Horders' & _) & (Hbalance' & Hfrozen') & _).
    rewrite decide_True in Hbalance', Hfrozen' by done.
    cbn [CancelRequest.orderid] in *.
    revert Hbalance Hfrozen Hrate Hbalance' Hfrozen' Horders'.
    generalize (send_order req self).2.
    intros self1 Hbalance Hfrozen Hrate Hbalance' Hfrozen' Horders'.
    generalize dependent (cancel_order
      (CancelRequest.mk orderid (OrderRequest.symbol req) (OrderRequest.exchange req))
      self1).
    intros self2 -> -> ->. rewrite lookup_insert_eq.
    unfold reservation, fill_volume in *. rewrite Hbalance, Hfrozen, Hrate.
    subst order. cbn [OrderData.price OrderData.volume OrderData.traded
                  OrderData.set_status create_order_data OrderData.status].
    repeat split; ring.
  - intros req self Hnot self'. subst self'.
    by rewrite cancel_order_inactive.
Qed.

Lemma cancel_order_unfreezes_witness :
  let self := init "PAPER" in
  let req := OrderRequest.mk "000001" SZSE LONG LIMIT (float 1000) (float 10.50) in
  let self' :=
    cancel_order (CancelRequest.mk "PAPER_1" "000001" SZSE) (send_order req self).2 in
  balance self' = balance self ∧ frozen self' = frozen self.
Proof.
  intros self req self'.
  destruct (proj1 (proj2 cancel_order_unfreezes) req self) as (Hb & Hf & _);
    [done | by vm_compute | by split].
Defined.

(** *** Well-formedness is kept by every call *)

Lemma wf_init (gateway_name : string) : wf (init gateway_name).
Proof.
  split; cbn.
  - constructor.
  - by intros k ?%elem_of_nil.
  - by intros k ?%elem_of_nil.
  - intros vt pos. by rewrite lookup_empty.
  - by intros trade ?%elem_of_nil.
  - constructor.
Qed.

Lemma _validate_order_volume (req : OrderRequest.t) (vt_symbol : string) (self : t)
    (error_msg : ErrorMsg) :
  _validate_order req vt_symbol self = (true, error_msg) →
  float 100 ≤ OrderRequest.volume req.
Proof.
  unfold _validate_order.
  destruct (decide (OrderRequest.volume req < float 100)) as [|Hge]; [done|].
  intros _. by apply Qcnot_lt_le.
Qed.

(** The identifier of a new order is not among the active ones, nor among
    the trades reported so far. *)
Lemma new_orderid_fresh (self : t) :
  wf self →
  (make_orderid (S (order_count self)) ∉ active_orders self)
  ∧ (∀ trade, trade ∈ trades_of (event_engine self) →
              TradeData.orderid trade ≠ make_orderid (S (order_count self))).
Proof.
  intros Hwf. split.
  - intros Hin. destruct (wf_active_id _ Hwf _ Hin) as (n & Hn & Heq).
    apply make_orderid_inj in Heq. lia.
  - intros trade Hin Heq.
    destruct (wf_trade_id _ Hwf _ Hin) as (_ & n & Hn & Heq').
    rewrite Heq in Heq'. apply make_orderid_inj in Heq'. lia.
Qed.

Lemma wf_send_order (req : OrderRequest.t) (self : t) :
  wf self → wf (send_order req self).2.
Proof.
  intros Hwf.
  destruct (_validate_order req
              (make_vt_symbol (OrderRequest.symbol req) (OrderRequest.exchange req))
              self) as [[] error_msg] eqn:Hvalid.
  - destruct (send_order_accepted req self error_msg Hvalid)
      as (_ & (_ & _ & _ & _ & Hpositions & _ & Hcount)
          & (Horders & Hactive) & _ & (e & Hevents)).
    destruct (new_orderid_fresh self Hwf) as [Hfresh Hfresh_trades].
    rewrite decide_False in Hactive by done.
    assert (trades_of (event_engine (send_order req self).2)
            = trades_of (event_engine self)) as Htrades.
    { rewrite Hevents, trades_of_app. apply app_nil_r. }
    apply _validate_order_volume in Hvalid.
    split.
    + rewrite Hactive. apply NoDup_app. split; [by apply wf_active_nodup|].
      split; [|apply NoDup_singleton].
      intros k Hk ->%list_elem_of_singleton. done.
    + intros k. rewrite Hactive, Horders, elem_of_app, list_elem_of_singleton.
      intros [Hk| ->].
      * rewrite lookup_insert_ne by (by intros <-).
        by apply wf_active_order.
      * rewrite lookup_insert_eq. eexists. split; [done|]. by repeat split.
    + intros k. rewrite Hactive, Hcount, elem_of_app, list_elem_of_singleton.
      intros [Hk| ->].
      * destruct (wf_active_id _ Hwf _ Hk) as (n & Hn & ->).
        exists n. split; [lia|done].
      * by eexists.
    + rewrite Hpositions. by apply wf_position_volume.
    + intros trade. rewrite Htrades, Hactive, Hcount. intros Hin.
      destruct (wf_trade_id _ Hwf _ Hin) as (Hnot & n & Hn & Heq). split.
      * rewrite not_elem_of_app, list_elem_of_singleton. split; [done|].
        by apply Hfresh_trades.
      * exists n. split; [lia|done].
    + rewrite Htrades. by apply wf_trade_nodup.
  - rewrite (send_order_rejected _ _ _ Hvalid). cbn [snd].
    split; cbn [active_orders orders order_count positions event_engine
                set_event_engine set_order_count];
      rewrite ?trades_of_app, ?app_nil_r.
    + by apply wf_active_nodup.
    + by apply wf_active_order.
    + intros k Hk. destruct (wf_active_id _ Hwf _ Hk) as (n & Hn & ->).
      exists n. split; [lia|done].
    + by apply wf_position_volume.
    + intros trade Hin.
      destruct (wf_trade_id _ Hwf _ Hin) as (Hnot & n & Hn & Heq).
      split; [done|]. exists n. split; [lia|done].
    + by apply wf_trade_nodup.
Qed.

Lemma wf_cancel_order (req : CancelRequest.t) (self : t) :
  wf self → wf (cancel_order req self).
Proof.
  intros Hwf.
  destruct (decide (CancelRequest.orderid req ∈ active_orders self)) as [Hin|Hnot].
  - destruct (wf_active_order _ Hwf _ Hin) as (order & Horder & _).
    destruct (cancel_order_active req self order Hin Horder)
      as ((_ & _ & _ & _ & Hpositions & _ & Hcount)
          & (Horders & Hactive) & _ & (e1 & e2 & e3 & Hevents)).
    assert (trades_of (event_engine (cancel_order req self))
            = trades_of (event_engine self)) as Htrades.
    { rewrite Hevents, trades_of_app. apply app_nil_r. }
    split.
    + rewrite Hactive. apply NoDup_filter. by apply wf_active_nodup.
    + intros k. rewrite Hactive, Horders, list_elem_of_filter. intros [Hne Hk].
      rewrite lookup_insert_ne by done. by apply wf_active_order.
    + intros k. rewrite Hactive, Hcount, list_elem_of_filter. intros [_ Hk].
      by apply wf_active_id.
    + rewrite Hpositions. by apply wf_position_volume.
    + intros trade. rewrite Htrades, Hactive, Hcount. intros Htrade.
      destruct (wf_trade_id _ Hwf _ Htrade) as (Hnotin & Hid). split; [|done].
      rewrite list_elem_of_filter. by intros [_ ?].
    + rewrite Htrades. by apply wf_trade_nodup.
  - rewrite cancel_order_inactive by done.
    split; cbn [write_log on_event active_orders orders order_count positions
                event_engine set_event_engine];
      rewrite ?trades_of_app, ?app_nil_r; by apply Hwf.
Qed.

(** [update_tick] stores the tick, executes the fills among the active
    orders and removes the filled orders from them. *)
Lemma update_tick_fills (tick : TickData.t) (self : t) :
  NoDup (active_orders self) →
  let vt_symbol := TickData.vt_symbol tick in
  let ks := filter (λ k, is_Some (fill_of vt_symbol tick self k)) (active_orders self) in
  ∃ after,
    fills vt_symbol tick ks (with_tick tick self) after
    ∧ update_tick tick self
      = on_tick tick
          (set_active_orders (filter (λ k, k ∉ ks) (active_orders self)) after).
Proof.
  intros Hnodup vt_symbol ks.
  destruct (with_tick_fields tick self) as ((_ & _ & _ & _ & Hactive & _) & _).
  assert (filter (λ k, is_Some (fill_of vt_symbol tick (with_tick tick self) k))
            (active_orders (with_tick tick self)) = ks) as Hks.
  { rewrite Hactive. apply filter_ext_in. intros k _.
    by rewrite fill_of_with_tick. }
  destruct (_match_orders_fills vt_symbol tick (with_tick tick self))
    as (after & Hfills & Hmatch); [by rewrite Hactive|].
  rewrite Hks in Hfills, Hmatch.
  exists after. split; [done|].
  rewrite update_tick_with_tick. fold vt_symbol. rewrite Hmatch.
  destruct (fills_frame _ _ _ _ _ Hfills) as ((_ & _ & _ & _ & -> & _) & _).
  by rewrite Hactive.
Qed.

(** The orders a tick fills are active orders, each with its object. *)
Lemma filled_active (vt_symbol : string) (tick : TickData.t) (self : t) (k : string) :
  wf self →
  k ∈ filter (λ k, is_Some (fill_of vt_symbol tick self k)) (active_orders self) →
  ∃ order price,
    fill_of vt_symbol tick self k = Some (order, price)
    ∧ orders self !! k = Some order
    ∧ OrderData.orderid order = k
    ∧ OrderData.traded order = 0
    ∧ float 100 ≤ OrderData.volume order
    ∧ 0 < fill_volume order.
Proof.
  intros Hwf [[[order price] Hfill] Hactive]%list_elem_of_filter.
  destruct (wf_active_order _ Hwf _ Hactive)
    as (order' & Horder' & Hid & Htraded & Hvolume & _).
  pose proof (fill_of_Some _ _ _ _ _ _ Hfill) as (Horder & _).
  rewrite Horder in Horder'. injection Horder' as <-.
  exists order, price. repeat split; try done.
  unfold fill_volume. rewrite Htraded. clear - Hvolume. qc_lra.
Qed.

Lemma Forall2_orderid (P : string → TradeData.t → Prop) (ks : list string)
    (trades : list TradeData.t) :
  Forall2 P ks trades →
  (∀ k trade, k ∈ ks → P k trade → TradeData.orderid trade = k) →
  TradeData.orderid <$> trades = ks.
Proof.
  induction 1 as [|k trade ks trades HP Hall IH]; intros Hid; [done|].
  rewrite fmap_cons, IH by (intros; apply Hid; [by right|done]).
  f_equal. apply Hid; [by left|done].
Qed.

Lemma wf_update_tick (tick : TickData.t) (self : t) :
  wf self → wf (update_tick tick self).
Proof.
  intros Hwf.
  destruct (update_tick_fills tick self (wf_active_nodup _ Hwf))
    as (after & Hfills & ->).
  set (vt_symbol := TickData.vt_symbol tick) in *.
  set (ks := filter (λ k, is_Some (fill_of vt_symbol tick self k))
               (active_orders self)) in *.
  assert (NoDup ks) as Hks by (apply NoDup_filter, Hwf).
  destruct (with_tick_fields tick self)
    as ((_ & _ & _ & _ & Hactive0 & Hcount0 & Horders0)
        & (_ & _ & _ & Hevents0) & _ & Hnonneg0).
  destruct (fills_frame _ _ _ _ _ Hfills)
    as ((_ & _ & _ & _ & Hactive & Hcount & _) & Hother & _).
  destruct (fills_orders_trades _ _ _ _ _ Hfills Hks)
    as (_ & trades & Htrades & Hall).
  assert (TradeData.orderid <$> trades = ks) as Hids.
  { eapply Forall2_orderid; [exact Hall|].
    intros k trade Hk (order & price & Hfill & Hid & _).
    rewrite fill_of_with_tick in Hfill.
    destruct (filled_active _ _ _ _ Hwf Hk) as (order' & price' & Hfill' & _ & Hid' & _).
    rewrite Hfill in Hfill'. injection Hfill' as <- <-. by rewrite Hid. }
  assert (∀ k, k ∈ ks → k ∈ active_orders self) as Hsub
    by (intros k [_ ?]%list_elem_of_filter; done).
  assert (trades_of (event_engine
            (on_tick tick (set_active_orders (filter (λ k, k ∉ ks) (active_orders self))
                             after)))
          = trades_of (event_engine self) ++ trades) as Htrades'.
  { cbn [on_tick on_event event_engine set_event_engine set_active_orders].
    rewrite trades_of_app, Htrades, Hevents0. apply app_nil_r. }
  split.
  - cbn [on_tick on_event active_orders set_event_engine set_active_orders].
    apply NoDup_filter, Hwf.
  - cbn [on_tick on_event active_orders orders set_event_engine set_active_orders].
    intros k [Hk Hin]%list_elem_of_filter.
    rewrite Hother, Horders0 by done. by apply wf_active_order.
  - cbn [on_tick on_event active_orders order_count set_event_engine set_active_orders].
    intros k [Hk Hin]%list_elem_of_filter.
    rewrite Hcount, Hcount0. by apply wf_active_id.
  - cbn [on_tick on_event positions set_event_engine set_active_orders].
    eapply fills_positions_nonneg; [exact Hfills|done| |].
    + intros k order Hk. rewrite Horders0. intros Horder.
      destruct (filled_active _ _ _ _ Hwf Hk) as (order' & _ & _ & Horder' & _ & _ & _ & Hvol).
      rewrite Horder in Horder'. by injection Horder' as <-.
    + apply Hnonneg0, Hwf.
  - intros trade. rewrite Htrades'.
    cbn [on_tick on_event active_orders order_count set_event_engine set_active_orders].
    rewrite Hcount, Hcount0, elem_of_app. intros [Hold|Hnew].
    + destruct (wf_trade_id _ Hwf _ Hold) as (Hnot & Hid). split; [|done].
      rewrite list_elem_of_filter. by intros [_ ?].
    + assert (TradeData.orderid trade ∈ ks) as Hk
        by (rewrite <- Hids; by apply list_elem_of_fmap_2).
      split.
      * rewrite list_elem_of_filter. by intros [? _].
      * by apply wf_active_id, Hsub.
  - rewrite Htrades', fmap_app, Hids. apply NoDup_app.
    split; [by apply wf_trade_nodup|]. split; [|done].
    intros k (trade & -> & Hold)%list_elem_of_fmap Hk.
    destruct (wf_trade_id _ Hwf _ Hold) as (Hnot & _).
    by apply Hnot, Hsub.
Qed.

Lemma wf_step (self : t) (a : Action) : wf self → wf (step self a).
Proof.
  destruct a; cbn [step];
    auto using wf_send_order, wf_cancel_order, wf_update_tick.
Qed.

Lemma wf_run (actions : list Action) (self : t) : wf self → wf (run actions self).
Proof.
  revert self. induction actions as [|a actions IH]; intros self Hwf; [done|].
  apply IH, wf_step, Hwf.
Qed.

(** *** What a tick does to one active order *)

Lemma update_tick_trades (tick : TickData.t) (self : t) :
  wf self →
  let vt_symbol := TickData.vt_symbol tick in
  let ks := filter (λ k, is_Some (fill_of vt_symbol tick self k)) (active_orders self) in
  ∃ trades,
    trades_of (event_engine (update_tick tick self))
    = trades_of (event_engine self) ++ trades
    ∧ Forall2 (λ k trade,
        ∃ order price,
          fill_of vt_symbol tick self k = Some (order, price)
          ∧ TradeData.orderid trade = k
          ∧ TradeData.direction trade = OrderData.direction order
          ∧ TradeData.price trade = price
          ∧ TradeData.volume trade = fill_volume order) ks trades.
Proof.
  intros Hwf vt_symbol ks.
  destruct (update_tick_fills tick self (wf_active_nodup _ Hwf))
    as (after & Hfills & ->).
  fold vt_symbol ks in Hfills |- *.
  assert (NoDup ks) as Hks by (apply NoDup_filter, Hwf).
  destruct (with_tick_fields tick self) as (_ & (_ & _ & _ & Hevents0) & _).
  destruct (fills_orders_trades _ _ _ _ _ Hfills Hks)
    as (_ & trades & Htrades & Hall).
  exists trades. split.
  - cbn [on_tick on_event event_engine set_event_engine set_active_orders].
    rewrite trades_of_app, Htrades, Hevents0. apply app_nil_r.
  - eapply Forall2_impl_elem_of; [exact Hall|].
    intros k trade Hk (order & price & Hfill & Hid & Hrest).
    rewrite fill_of_with_tick in Hfill.
    destruct (filled_active _ _ _ _ Hwf Hk) as (order' & price' & Hfill' & _ & Hid' & _).
    rewrite Hfill in Hfill'. injection Hfill' as <- <-.
    exists order, price. rewrite Hid. done.
Qed.

(** An active order that the tick fills. *)
Lemma update_tick_filled (tick : TickData.t) (self : t) (k : string)
    (order : OrderData.t) (price : Qc) :
  wf self → k ∈ active_orders self →
  fill_of (TickData.vt_symbol tick) tick self k = Some (order, price) →
  let self' := update_tick tick self in
  (k ∉ active_orders self')
  ∧ orders self' !! k = Some (executed order)
  ∧ (∃ trade,
       trade ∈ trades_of (event_engine self')
       ∧ TradeData.orderid trade = k
       ∧ TradeData.direction trade = OrderData.direction order
       ∧ TradeData.price trade = price
       ∧ TradeData.volume trade = fill_volume order).
Proof.
  intros Hwf Hactive Hfill self'. subst self'.
  destruct (update_tick_trades tick self Hwf) as (trades & Htrades & Hall).
  rewrite Htrades. clear Htrades.
  destruct (update_tick_fills tick self (wf_active_nodup _ Hwf))
    as (after & Hfills & ->).
  set (vt_symbol := TickData.vt_symbol tick) in *.
  set (ks := filter (λ k, is_Some (fill_of vt_symbol tick self k))
               (active_orders self)) in *.
  assert (k ∈ ks) as Hk by (apply list_elem_of_filter; by rewrite Hfill).
  assert (NoDup ks) as Hks by (apply NoDup_filter, Hwf).
  cbn [on_tick on_event active_orders orders set_event_engine set_active_orders].
  split; [|split].
  - rewrite list_elem_of_filter. by intros [? _].
  - destruct (fills_orders_trades _ _ _ _ _ Hfills Hks) as (Horders & _).
    destruct (Horders k Hk) as (order' & price' & Hfill' & ->).
    rewrite fill_of_with_tick, Hfill in Hfill'. by injection Hfill' as <- <-.
  - apply list_elem_of_lookup in Hk as [i Hi].
    destruct (Forall2_lookup_l _ _ _ _ _ Hall Hi)
      as (trade & Htrade & order' & price' & Hfill' & Hrest).
    rewrite Hfill in Hfill'. injection Hfill' as <- <-.
    exists trade. split; [|done].
    apply elem_of_app. right. by eapply list_elem_of_lookup_2.
Qed.

(** An active order that the tick does not fill. *)
Lemma update_tick_unfilled (tick : TickData.t) (self : t) (k : string) :
  wf self → k ∈ active_orders self →
  fill_of (TickData.vt_symbol tick) tick self k = None →
  let self' := update_tick tick self in
  k ∈ active_orders self'
  ∧ orders self' !! k = orders self !! k
  ∧ (∀ trade, trade ∈ trades_of (event_engine self') → TradeData.orderid trade ≠ k).
Proof.
  intros Hwf Hactive Hfill self'. subst self'.
  destruct (update_tick_trades tick self Hwf) as (trades & Htrades & Hall).
  rewrite Htrades. clear Htrades.
  destruct (update_tick_fills tick self (wf_active_nodup _ Hwf))
    as (after & Hfills & ->).
  set (vt_symbol := TickData.vt_symbol tick) in *.
  set (ks := filter (λ k, is_Some (fill_of vt_symbol tick self k))
               (active_orders self)) in *.
  assert (k ∉ ks) as Hk.
  { intros [Hsome _]%list_elem_of_filter. rewrite Hfill in Hsome. by destruct Hsome. }
  cbn [on_tick on_event active_orders orders set_event_engine set_active_orders].
  split; [|split].
  - by apply list_elem_of_filter.
  - destruct (fills_frame _ _ _ _ _ Hfills) as (_ & Hother & _).
    destruct (with_tick_fields tick self) as ((_ & _ & _ & _ & _ & _ & Horders0) & _).
    by rewrite Hother, Horders0.
  - intros trade [Hold|Hnew]%elem_of_app.
    + destruct (wf_trade_id _ Hwf _ Hold) as (Hnot & _).
      intros Heq. by rewrite Heq in Hnot.
    + apply list_elem_of_lookup in Hnew as [i Hi].
      destruct (Forall2_lookup_r _ _ _ _ _ Hall Hi)
        as (k' & Hk' & order' & price' & _ & Hid & _).
      rewrite Hid. intros ->. apply Hk. by eapply list_elem_of_lookup_2.
Qed.

Lemma NoDup_fmap_unique {A B} (f : A → B) (l : list A) (x y : A) :
  NoDup (f <$> l) → x ∈ l → y ∈ l → f x = f y → x = y.
Proof.
  induction l as [|z l IH]; [by intros _ ?%elem_of_nil|].
  rewrite fmap_cons, NoDup_cons, !elem_of_cons.
  intros [Hz Hl] [->|Hx] [->|Hy] Heq; try done.
  - exfalso. apply Hz. rewrite Heq. by apply list_elem_of_fmap_2.
  - exfalso. apply Hz. rewrite <- Heq. by apply list_elem_of_fmap_2.
  - by apply IH.
Qed.

(** *** Limit orders *)

Lemma can_fill_at_limit_buy (order : OrderData.t) (tick : TickData.t) :
  OrderData.type order = LIMIT → OrderData.direction order = LONG →
  can_fill_at order tick
  = if decide (limit_buy_fills order tick) then (true, OrderData.price order)
    else (false, 0).
Proof.
  intros Htype Hdir. unfold can_fill_at, limit_buy_fills.
  rewrite Htype, Hdir. rewrite decide_False by done.
  rewrite !decide_True by done.
  destruct (decide (0 < TickData.ask_price_1 tick)) as [Hask|Hask];
    destruct (decide (TickData.ask_price_1 tick ≤ OrderData.price order)) as [Hle|Hle];
    destruct (decide (TickData.last_price tick ≤ OrderData.price order)) as [Hlast|Hlast];
    rewrite ?(bool_decide_eq_true_2 _ Hask), ?(bool_decide_eq_false_2 _ Hask),
      ?(bool_decide_eq_true_2 _ Hle), ?(bool_decide_eq_false_2 _ Hle);
    cbn [andb];
    (rewrite decide_True by tauto) || (rewrite decide_False by tauto); done.
Qed.

Lemma can_fill_at_limit_sell (order : OrderData.t) (tick : TickData.t) :
  OrderData.type order = LIMIT → OrderData.direction order ≠ LONG →
  can_fill_at order tick
  = if decide (limit_sell_fills order tick) then (true, OrderData.price order)
    else (false, 0).
Proof.
  intros Htype Hdir. unfold can_fill_at, limit_sell_fills.
  rewrite Htype. rewrite decide_False by done.
  rewrite decide_True by done. rewrite (decide_False (P := _ = LONG)) by done.
  destruct (decide (0 < TickData.bid_price_1 tick)) as [Hbid|Hbid];
    destruct (decide (OrderData.price order ≤ TickData.bid_price_1 tick)) as [Hle|Hle];
    destruct (decide (OrderData.price order ≤ TickData.last_price tick)) as [Hlast|Hlast];
    rewrite ?(bool_decide_eq_true_2 _ Hbid), ?(bool_decide_eq_false_2 _ Hbid),
      ?(bool_decide_eq_true_2 _ Hle), ?(bool_decide_eq_false_2 _ Hle);
    cbn [andb];
    (rewrite decide_True by tauto) || (rewrite decide_False by tauto); done.
Qed.

(** [fill_of] for a limit order on the tick's symbol. *)
Lemma fill_of_limit (tick : TickData.t) (self : t) (k : string) (order : OrderData.t) :
  orders self !! k = Some order →
  OrderData.type order = LIMIT →
  make_vt_symbol (OrderData.symbol order) (OrderData.exchange order)
  = TickData.vt_symbol tick →
  fill_of (TickData.vt_symbol tick) tick self k
  = if decide (OrderData.direction order = LONG) then
      if decide (limit_buy_fills order tick)
      then Some (order, OrderData.price order * (1 + slippage self)) else None
    else
      if decide (limit_sell_fills order tick)
      then Some (order, OrderData.price order * (1 - slippage self)) else None.
Proof.
  intros Horder Htype Hvt. unfold fill_of. rewrite Horder, decide_True by done.
  destruct (decide (OrderData.direction order = LONG)) as [Hdir|Hdir].
  - rewrite can_fill_at_limit_buy by done. by case_decide.
  - rewrite can_fill_at_limit_sell by done. by case_decide.
Qed.

Lemma wf_connect (setting : Setting.t) (self : t) : wf self → wf (connect setting self).
Proof.
  intros Hwf.
  split; cbn [connect _push_account write_log on_account on_event active_orders orders
              order_count positions event_engine set_event_engine];
    rewrite ?trades_of_app, ?app_nil_r; by apply Hwf.
Qed.

(** C2.  On a tick of its symbol, an active limit buy order fills exactly
    when the best ask is positive and at most the order price, or the last
    price is at most the order price; the trade is made at the order's
    limit price raised by the slippage, price × (1 + slippage).  A limit
    sell fills exactly when the best bid is positive and at least the
    order price, or the last price is at least the order price, at
    price × (1 − slippage).  With capital 100,000, commission 0.0003,
    stamp duty 0.001 and slippage 0.001, a limit buy of 1000 at 10.50
    freezes 10,503.15 and leaves balance 89,496.85; a tick with ask 10.48
    then fills it at 10.5105. *)
Theorem limit_order_fill_rule :
  (∀ (tick : TickData.t) (self : t) (k : string) (order : OrderData.t),
     wf self → k ∈ active_orders self → orders self !! k = Some order →
     OrderData.type order = LIMIT →
     make_vt_symbol (OrderData.symbol order) (OrderData.exchange order)
     = TickData.vt_symbol tick →
     let self' := update_tick tick self in
     let fill_price :=
       if decide (OrderData.direction order = LONG)
       then OrderData.price order * (1 + slippage self)
       else OrderData.price order * (1 - slippage self) in
     let fills_now :=
       if decide (OrderData.direction order = LONG)
       then limit_buy_fills order tick else limit_sell_fills order tick in
     (fills_now →
        (k ∉ active_orders self')
        ∧ (∃ trade, trade ∈ trades_of (event_engine self')
                    ∧ TradeData.orderid trade = k
                    ∧ TradeData.price trade = fill_price))
     ∧ (¬ fills_now →
          k ∈ active_orders self'
          ∧ (∀ trade, trade ∈ trades_of (event_engine self') →
                      TradeData.orderid trade ≠ k)))
  ∧ (let self :=
       connect (Setting.mk (Some (float 100000)) (Some (float 0.0003))
                  (Some (float 0.001)) (Some (float 0.001)) None) (init "PAPER") in
     let req := OrderRequest.mk "000001" SZSE LONG LIMIT (float 1000) (float 10.50) in
     let tick :=
       TickData.mk "000001" SZSE (float 10.48) (float 10.49) (float 10.48) "PAPER" in
     let self1 := (send_order req self).2 in
     let self2 := update_tick tick self1 in
     frozen self1 = float 10503.15
     ∧ balance self1 = float 89496.85
     ∧ active_orders self2 = []
     ∧ (∃ trade, trades_of (event_engine self2) = [trade]%list
                 ∧ TradeData.orderid trade = "PAPER_1"
                 ∧ TradeData.volume trade = float 1000
                 ∧ TradeData.price trade = float 10.5105)).
Proof.
  split.
  - intros tick self k order Hwf Hactive Horder Htype Hvt self' fill_price fills_now.
    pose proof (fill_of_limit tick self k order Horder Htype Hvt) as Hfill.
    subst self' fill_price fills_now.
    destruct (decide (OrderData.direction order = LONG)) as [Hdir|Hdir].
    + destruct (decide (limit_buy_fills order tick)) as [Hcond|Hcond].
      * split; [intros _|done].
        destruct (update_tick_filled tick self k order _ Hwf Hactive Hfill)
          as (Hgone & _ & trade & Hin & Hid & _ & Hprice & _).
        split; [done|]. by exists trade.
      * split; [done|intros _].
        destruct (update_tick_unfilled tick self k Hwf Hactive Hfill)
          as (Hstays & _ & Hnone).
        by split.
    + destruct (decide (limit_sell_fills order tick)) as [Hcond|Hcond].
      * split; [intros _|done].
        destruct (update_tick_filled tick self k order _ Hwf Hactive Hfill)
          as (Hgone & _ & trade & Hin & Hid & _ & Hprice & _).
        split; [done|]. by exists trade.
      * split; [done|intros _].
        destruct (update_tick_unfilled tick self k Hwf Hactive Hfill)
          as (Hstays & _ & Hnone).
        by split.
  - intros self req tick self1 self2.
    split; [qc_compute|]. split; [qc_compute|]. split; [by vm_compute|].
    eexists. split; [vm_compute; reflexivity|].
    split; [done|]. split; qc_compute.
Qed.

Lemma limit_order_fill_rule_witness :
  let self :=
    (send_order (OrderRequest.mk "000001" SZSE LONG LIMIT (float 1000) (float 10.50))
       (init "PAPER")).2 in
  let tick :=
    TickData.mk "000001" SZSE (float 10.60) (float 10.49) (float 10.48) "PAPER" in
  "PAPER_1" ∉ active_orders (update_tick tick self).
Proof.
  intros self tick.
  assert (wf self) as Hwf by apply wf_send_order, wf_init.
  destruct (proj1 limit_order_fill_rule tick self "PAPER_1"
              (OrderData.mk "000001" SZSE "PAPER_1" LIMIT LONG (float 10.50)
                 (float 1000) 0 NOTTRADED "PAPER") Hwf) as [Hfills _];
    [by apply (bool_decide_unpack _); vm_compute | by vm_compute | done | done |].
  apply Hfills. left. by vm_compute.
Defined.

(** *** One trade per order *)

Lemma filter_fmap_NoDup_length {A B} `{EqDecision B} (f : A → B) (l : list A) (b : B) :
  NoDup (f <$> l) → (length (filter (λ a, f a = b) l) ≤ 1)%nat.
Proof.
  induction l as [|a l IH]; [simpl; lia|].
  rewrite fmap_cons, NoDup_cons, filter_cons. intros [Ha Hl].
  destruct (decide (f a = b)) as [Heq|Hne]; [|by apply IH].
  rewrite filter_none_in; [simpl; lia|].
  intros a' Ha' Heq'. apply Ha. rewrite Heq, <- Heq'.
  by apply list_elem_of_fmap_2.
Qed.

(** C10.  A tick that matches an active order trades its whole remaining
    volume in one trade: the order leaves the active orders with status
    [ALLTRADED] and traded = volume, and the trade reported for it is the
    only trade that ever carries its identifier.  The matching path never
    stores status [PARTTRADED].  Over any run, an order identifier occurs
    on at most one trade. *)
Theorem matched_order_fills_completely :
  (∀ (tick : TickData.t) (self : t) (k : string) (order : OrderData.t) (price : Qc),
     wf self → k ∈ active_orders self →
     fill_of (TickData.vt_symbol tick) tick self k = Some (order, price) →
     let self' := update_tick tick self in
     (k ∉ active_orders self')
     ∧ (∃ order', orders self' !! k = Some order'
                  ∧ OrderData.status order' = ALLTRADED
                  ∧ OrderData.traded order' = OrderData.volume order)
     ∧ (∃ trade, trade ∈ trades_of (event_engine self')
                 ∧ TradeData.orderid trade = k
                 ∧ TradeData.volume trade
                   = OrderData.volume order - OrderData.traded order
                 ∧ (∀ trade', trade' ∈ trades_of (event_engine self') →
                              TradeData.orderid trade' = k → trade' = trade)))
  ∧ (∀ (k : string) (order : OrderData.t) (price : Qc) (self : t),
       OrderData.status <$> orders (_execute_trade k order price self) !! k
       = Some ALLTRADED)
  ∧ (∀ (actions : list Action) (self : t) (orderid : string),
       wf self →
       (length (filter (λ trade, TradeData.orderid trade = orderid)
                  (trades_of (event_engine (run actions self)))) ≤ 1)%nat).
Proof.
  split; [|split].
  - intros tick self k order price Hwf Hactive Hfill self'. subst self'.
    destruct (update_tick_filled tick self k order price Hwf Hactive Hfill)
      as (Hgone & Horder & trade & Hin & Hid & _ & _ & Hvolume).
    split; [done|]. split.
    + exists (executed order). split; [done|]. split; [done|].
      unfold executed, fill_volume.
      cbn [OrderData.traded OrderData.set_status OrderData.set_traded]. ring.
    + exists trade. repeat split; try done.
      intros trade' Hin' Hid'.
      eapply (NoDup_fmap_unique TradeData.orderid); [|done..|congruence].
      by apply wf_trade_nodup, wf_update_tick.
  - intros k order price self. by rewrite _execute_trade_orders, lookup_insert_eq.
  - intros actions self orderid Hwf.
    apply filter_fmap_NoDup_length. by apply wf_trade_nodup, wf_run.
Qed.

Lemma matched_order_fills_completely_witness :
  let self :=
    (send_order (OrderRequest.mk "000001" SZSE LONG LIMIT (float 1000) (float 10.50))
       (init "PAPER")).2 in
  let tick :=
    TickData.mk "000001" SZSE (float 10.48) (float 10.49) (float 10.48) "PAPER" in
  ("PAPER_1" ∉ active_orders (update_tick tick self))
  ∧ (length (filter (λ trade, TradeData.orderid trade = "PAPER_1")
               (trades_of (event_engine (run [UpdateTick tick; UpdateTick tick] self))))
     ≤ 1)%nat.
Proof.
  intros self tick.
  assert (wf self) as Hwf by apply wf_send_order, wf_init.
  split.
  - eapply (proj1 matched_order_fills_completely tick self "PAPER_1");
      [done | by apply (bool_decide_unpack _); vm_compute | by vm_compute].
  - by apply (proj2 (proj2 matched_order_fills_completely)).
Defined.

(** *** The ledger total over a run *)

Lemma step_events (self : t) (a : Action) :
  wf self → ∃ new, event_engine (step self a) = event_engine self ++ new.
Proof.
  intros Hwf. destruct a as [req|req|tick]; cbn [step].
  - destruct (_validate_order req
                (make_vt_symbol (OrderRequest.symbol req) (OrderRequest.exchange req))
                self) as [[] error_msg] eqn:Hvalid.
    + destruct (send_order_accepted req self error_msg Hvalid)
        as (_ & _ & _ & _ & (e & ->)). by eexists.
    + rewrite (send_order_rejected _ _ _ Hvalid). by eexists.
  - destruct (decide (CancelRequest.orderid req ∈ active_orders self)) as [Hin|Hnot].
    + destruct (wf_active_order _ Hwf _ Hin) as (order & Horder & _).
      destruct (cancel_order_active req self order Hin Horder)
        as (_ & _ & _ & (e1 & e2 & e3 & ->)). by eexists.
    + rewrite cancel_order_inactive by done. by eexists.
  - destruct (update_tick_fills tick self (wf_active_nodup _ Hwf))
      as (after & Hfills & ->).
    destruct (fills_frame _ _ _ _ _ Hfills) as (_ & _ & (new & Hnew)).
    destruct (with_tick_fields tick self) as (_ & (_ & _ & _ & Hevents0) & _).
    cbn [on_tick on_event event_engine set_event_engine set_active_orders].
    rewrite Hnew, Hevents0, <- app_assoc. by eexists.
Qed.

Lemma run_events (actions : list Action) (self : t) :
  wf self → ∃ new, event_engine (run actions self) = event_engine self ++ new.
Proof.
  revert self. induction actions as [|a actions IH]; intros self Hwf.
  - exists []. by rewrite app_nil_r.
  - destruct (step_events self a Hwf) as (new1 & Hnew1).
    destruct (IH (step self a) (wf_step _ _ Hwf)) as (new2 & Hnew2).
    exists (new1 ++ new2). cbn [run foldl] in *. fold (run actions (step self a)).
    by rewrite Hnew2, Hnew1, app_assoc.
Qed.

Lemma events_since_app (before after : t) (new : list Event) :
  event_engine after = event_engine before ++ new → events_since before after = new.
Proof. intros Heq. unfold events_since. rewrite Heq. apply drop_app_length. Qed.

(** One call in which only buy orders fill: the ledger total falls by what
    the call adds to [total_commission]. *)
Lemma step_ledger (self : t) (a : Action) :
  wf self →
  (∀ trade, trade ∈ trades_of (events_since self (step self a)) →
            TradeData.direction trade = LONG) →
  ledger_total (step self a)
  = ledger_total self - (total_commission (step self a) - total_commission self).
Proof.
  intros Hwf Hbuys. destruct a as [req|req|tick]; cbn [step] in *.
  - clear Hbuys.
    destruct (_validate_order req
                (make_vt_symbol (OrderRequest.symbol req) (OrderRequest.exchange req))
                self) as [[] error_msg] eqn:Hvalid.
    + destruct (send_order_accepted req self error_msg Hvalid)
        as (_ & (_ & _ & _ & _ & Hpositions & Hcommission & _)
            & _ & (Hbalance & Hfrozen) & _).
      unfold ledger_total. rewrite Hpositions, Hcommission, Hbalance, Hfrozen. ring.
    + rewrite (send_order_rejected _ _ _ Hvalid). unfold ledger_total.
      cbn [snd balance frozen positions total_commission set_event_engine
           set_order_count]. ring.
  - clear Hbuys.
    destruct (decide (CancelRequest.orderid req ∈ active_orders self)) as [Hin|Hnot].
    + destruct (wf_active_order _ Hwf _ Hin) as (order & Horder & _).
      destruct (cancel_order_active req self order Hin Horder)
        as ((_ & _ & _ & _ & Hpositions & Hcommission & _)
            & _ & (Hbalance & Hfrozen) & _).
      unfold ledger_total. rewrite Hpositions, Hcommission, Hbalance, Hfrozen. ring.
    + rewrite cancel_order_inactive by done. unfold ledger_total.
      cbn [write_log on_event balance frozen positions total_commission
           set_event_engine]. ring.
  - destruct (update_tick_trades tick self Hwf) as (trades & Htrades & Hall).
    destruct (step_events self (UpdateTick tick) Hwf) as (new & Hnew).
    cbn [step] in Hnew.
    rewrite (events_since_app _ _ _ Hnew) in Hbuys.
    rewrite Hnew, trades_of_app in Htrades. apply app_inv_head in Htrades.
    rewrite Htrades in Hbuys. clear new Hnew Htrades.
    destruct (update_tick_fills tick self (wf_active_nodup _ Hwf))
      as (after & Hfills & ->).
    set (vt_symbol := TickData.vt_symbol tick) in *.
    set (ks := filter (λ k, is_Some (fill_of vt_symbol tick self k))
                 (active_orders self)) in *.
    assert (NoDup ks) as Hks by (apply NoDup_filter, Hwf).
    destruct (with_tick_fields tick self)
      as ((_ & _ & _ & _ & _ & _ & Horders0)
          & (Hbalance0 & Hfrozen0 & Hcommission0 & _) & Hcost0 & Hnonneg0).
    assert (ledger_total after
            = ledger_total (with_tick tick self)
              - (total_commission after - total_commission (with_tick tick self)))
      as Hledger.
    { eapply fills_ledger_buys; [exact Hfills|done| |apply Hnonneg0, Hwf].
      intros k order Hk. rewrite Horders0. intros Horder.
      destruct (filled_active _ _ _ _ Hwf Hk)
        as (order' & price & Hfill & Horder' & _ & _ & _ & Hvol).
      rewrite Horder in Horder'. injection Horder' as <-. split; [|done].
      apply list_elem_of_lookup in Hk as [i Hi].
      destruct (Forall2_lookup_l _ _ _ _ _ Hall Hi)
        as (trade & Htrade & order' & price' & Hfill' & _ & Hdir & _).
      rewrite Hfill in Hfill'. injection Hfill' as <- <-.
      rewrite <- Hdir. apply Hbuys. by eapply list_elem_of_lookup_2. }
    unfold ledger_total in *.
    cbn [on_tick on_event balance frozen positions total_commission
         set_event_engine set_active_orders].
    rewrite Hledger, Hbalance0, Hfrozen0, Hcost0, Hcommission0. ring.
Qed.

(** C1 as stated fails: buy 1000 at 10.50, then sell 500 at 11.00.  Both
    orders are accepted and filled, and the ledger total does not end at
    its initial value less the costs charged: the sale realises a profit. *)
Lemma ledger_not_conserved_by_sell :
  let self :=
    connect (Setting.mk (Some (float 100000)) (Some (float 0.0003))
               (Some (float 0.001)) (Some (float 0.001)) None) (init "PAPER") in
  let actions :=
    [ SendOrder (OrderRequest.mk "000001" SZSE LONG LIMIT (float 1000) (float 10.50));
      UpdateTick (TickData.mk "000001" SZSE (float 10.48) (float 10.49) (float 10.48) "PAPER");
      SendOrder (OrderRequest.mk "000001" SZSE SHORT LIMIT (float 500) (float 11));
      UpdateTick (TickData.mk "000001" SZSE (float 11) (float 11) (float 11.01) "PAPER") ] in
  let self' := run actions self in
  length (trades_of (event_engine self')) = 2%nat
  ∧ active_orders self' = []
  ∧ ledger_total self'
    ≠ ledger_total self - (total_commission self' - total_commission self).
Proof.
  intros self actions self'.
  split; [by vm_compute|]. split; [by vm_compute|].
  intros Heq%Qc_eq_Qeq. by vm_compute in Heq.
Qed.

(** C1, amended.  Over every run of orders, cancellations and ticks from a
    well-formed account in which only buy orders fill, balance + frozen +
    Σ volume × avg_price ends at its initial value less the commissions
    charged during the run.  A sell fill of at most the held volume
    changes that total by (fill price − avg_price) × filled volume, less
    the commission and stamp duty charged on it. *)
Theorem ledger_conservation :
  (∀ (actions : list Action) (self : t),
     wf self →
     (∀ trade, trade ∈ trades_of (events_since self (run actions self)) →
               TradeData.direction trade = LONG) →
     ledger_total (run actions self)
     = ledger_total self
       - (total_commission (run actions self) - total_commission self))
  ∧ (∀ (k : string) (order : OrderData.t) (price : Qc) (self : t)
       (pos : PaperPosition.t),
       OrderData.direction order ≠ LONG →
       positions self !! make_vt_symbol (OrderData.symbol order) (OrderData.exchange order)
       = Some pos →
       OrderData.volume order - OrderData.traded order ≤ PaperPosition.volume pos →
       let self' := _execute_trade k order price self in
       ledger_total self'
       = ledger_total self
         + (price - PaperPosition.avg_price pos)
           * (OrderData.volume order - OrderData.traded order)
         - (total_commission self' - total_commission self)).
Proof.
  split.
  - intros actions. induction actions as [|a actions IH]; intros self Hwf Hbuys.
    + cbn [run foldl]. ring.
    + destruct (step_events self a Hwf) as (new1 & Hnew1).
      destruct (run_events actions (step self a) (wf_step _ _ Hwf)) as (new2 & Hnew2).
      change (run (a :: actions) self) with (run actions (step self a)) in *.
      assert (events_since self (run actions (step self a)) = new1 ++ new2) as Hsince
        by (apply events_since_app; by rewrite Hnew2, Hnew1, app_assoc).
      rewrite Hsince, trades_of_app in Hbuys.
      rewrite (IH (step self a)), (step_ledger self a); [ring|done| |by apply wf_step|].
      * rewrite (events_since_app _ _ _ Hnew1). intros trade Hin.
        apply Hbuys, elem_of_app. by left.
      * rewrite (events_since_app _ _ _ Hnew2). intros trade Hin.
        apply Hbuys, elem_of_app. by right.
  - intros k order price self pos Hdir Hpos Hheld self'. subst self'.
    rewrite (_execute_trade_ledger_sell k order price self pos) by done.
    destruct (_execute_trade_fields k order price self)
      as (_ & (_ & _ & ->) & _).
    unfold fill_volume. ring.
Qed.

Lemma ledger_conservation_witness :
  let self := init "PAPER" in
  let actions :=
    [ SendOrder (OrderRequest.mk "000001" SZSE LONG LIMIT (float 1000) (float 10.50));
      UpdateTick (TickData.mk "000001" SZSE (float 10.48) (float 10.49) (float 10.48) "PAPER");
      CancelOrder (CancelRequest.mk "PAPER_1" "000001" SZSE) ] in
  ledger_total (run actions self)
  = ledger_total self - (total_commission (run actions self) - total_commission self).
Proof.
  intros self actions.
  apply (proj1 ledger_conservation actions self (wf_init "PAPER")).
  intros trade Hin.
  assert (Forall (λ trade, TradeData.direction trade = LONG)
            (trades_of (events_since self (run actions self)))) as Hall
    by (vm_compute; repeat constructor).
  by apply (proj1 (Forall_forall _ _) Hall).
Defined.

(** *** Position volumes *)

(** C9.  A position update with a positive trade volume keeps the volume
    non-negative: a buy adds the traded volume and recomputes the average
    cost as the volume-weighted mean of the holding and the fill, a sell
    subtracts it, clamped at zero; whenever the resulting volume is zero
    the average cost is zero.  Over any run of the account no position
    has a negative volume.  Buying 1000 at 10.00 and then 500 at 11.00
    gives the average cost (1000×10 + 500×11)/1500. *)
Theorem update_trade_volume_nonneg :
  (∀ (direction : Direction) (volume' price : Qc) (pos : PaperPosition.t),
     0 ≤ PaperPosition.volume pos → 0 < volume' →
     let pos' := PaperPosition.update_trade direction volume' price pos in
     0 ≤ PaperPosition.volume pos'
     ∧ (PaperPosition.volume pos' = 0 → PaperPosition.avg_price pos' = 0)
     ∧ (direction = LONG →
          PaperPosition.volume pos' = PaperPosition.volume pos + volume'
          ∧ PaperPosition.avg_price pos'
            = (PaperPosition.avg_price pos * PaperPosition.volume pos + price * volume')
              / (PaperPosition.volume pos + volume'))
     ∧ (direction ≠ LONG →
          (PaperPosition.volume pos ≤ volume' → PaperPosition.volume pos' = 0)
          ∧ (volume' < PaperPosition.volume pos →
               PaperPosition.volume pos' = PaperPosition.volume pos - volume'
               ∧ PaperPosition.avg_price pos' = PaperPosition.avg_price pos)))
  ∧ (∀ (actions : list Action) (self : t) (vt_symbol : string) (pos : PaperPosition.t),
       wf self →
       positions (run actions self) !! vt_symbol = Some pos →
       0 ≤ PaperPosition.volume pos)
  ∧ (∀ (symbol : string) (exchange : Exchange),
       PaperPosition.avg_price
         (PaperPosition.update_trade LONG (float 500) (float 11)
            (PaperPosition.update_trade LONG (float 1000) (float 10)
               (PaperPosition.init symbol exchange)))
       = (float 1000 * float 10 + float 500 * float 11) / float 1500).
Proof.
  split; [|split].
  - intros direction volume' price pos Hvol Hpos pos'.
    destruct (decide (direction = LONG)) as [->|Hd].
    + assert (0 < PaperPosition.volume pos + volume') as Hsum by qc_lra.
      subst pos'. rewrite update_trade_long by done. simpl.
      repeat split; try done; [qc_lra | intros; qc_lra].
    + destruct (decide (PaperPosition.volume pos ≤ volume')) as [Hle|Hgt].
      * subst pos'. rewrite update_trade_sell_all by done. simpl.
        repeat split; try done; intros; qc_lra.
      * assert (volume' < PaperPosition.volume pos) as Hlt by qc_lra.
        subst pos'. rewrite update_trade_sell_part by done. simpl.
        repeat split; try done; [qc_lra | intros; qc_lra].
  - intros actions self vt_symbol pos Hwf.
    apply wf_position_volume, wf_run, Hwf.
  - intros symbol exchange. unfold PaperPosition.update_trade, PaperPosition.init.
    simpl. qc_compute.
Qed.

Lemma update_trade_volume_nonneg_witness :
  let pos := PaperPosition.mk "000001" SZSE (float 1000) 0 (float 10) 0 in
  0 ≤ PaperPosition.volume (PaperPosition.update_trade SHORT (float 1500) (float 11) pos).
Proof.
  intros pos.
  apply (proj1 update_trade_volume_nonneg SHORT (float 1500) (float 11) pos);
    by vm_compute.
Defined.
(** *** Market orders, and the orders no tick fills *)

Lemma fill_of_market (tick : TickData.t) (self : t) (k : string) (order : OrderData.t) :
  orders self !! k = Some order →
  OrderData.type order = MARKET →
  make_vt_symbol (OrderData.symbol order) (OrderData.exchange order)
  = TickData.vt_symbol tick →
  fill_of (TickData.vt_symbol tick) tick self k
  = Some (order,
          if decide (OrderData.direction order = LONG)
          then (if decide (0 < TickData.ask_price_1 tick)
                then TickData.ask_price_1 tick else TickData.last_price tick)
               * (1 + slippage self)
          else (if decide (0 < TickData.bid_price_1 tick)
                then TickData.bid_price_1 tick else TickData.last_price tick)
               * (1 - slippage self)).
Proof.
  intros Horder Htype Hsymbol. unfold fill_of. rewrite Horder, decide_True by done.
  unfold can_fill_at. rewrite decide_True by done.
  by destruct (decide (OrderData.direction order = LONG)).
Qed.

Lemma fill_of_never (tick : TickData.t) (self : t) (k : string) (order : OrderData.t) :
  orders self !! k = Some order →
  make_vt_symbol (OrderData.symbol order) (OrderData.exchange order)
  ≠ TickData.vt_symbol tick
  ∨ (OrderData.type order ≠ LIMIT ∧ OrderData.type order ≠ MARKET) →
  fill_of (TickData.vt_symbol tick) tick self k = None.
Proof.
  intros Horder Hnever. unfold fill_of. rewrite Horder.
  destruct (decide (_ = TickData.vt_symbol tick)) as [Heq|Hne]; [|done].
  destruct Hnever as [?|[Hlimit Hmarket]]; [done|].
  unfold can_fill_at.
  rewrite (decide_False (P := OrderData.type order = MARKET)) by done.
  by rewrite (decide_False (P := OrderData.type order = LIMIT)) by done.
Qed.

(** X1.  A market order that is active when a tick of its symbol arrives is
    always filled by it, whatever its own price field: a buy at the best
    ask, a sell at the best bid, at the last price when that quote is not
    positive, moved against the order by the slippage.  The order leaves
    the active ones fully traded, with one trade for its whole volume. *)
Theorem market_order_fill_rule (tick : TickData.t) (self : t) (k : string)
    (order : OrderData.t) :
  wf self → k ∈ active_orders self → orders self !! k = Some order →
  OrderData.type order = MARKET →
  make_vt_symbol (OrderData.symbol order) (OrderData.exchange order)
  = TickData.vt_symbol tick →
  let quote :=
    if decide (OrderData.direction order = LONG)
    then if decide (0 < TickData.ask_price_1 tick)
         then TickData.ask_price_1 tick else TickData.last_price tick
    else if decide (0 < TickData.bid_price_1 tick)
         then TickData.bid_price_1 tick else TickData.last_price tick in
  let fill_price :=
    if decide (OrderData.direction order = LONG)
    then quote * (1 + slippage self) else quote * (1 - slippage self) in
  let self' := update_tick tick self in
  (k ∉ active_orders self')
  ∧ (∃ order', orders self' !! k = Some order'
               ∧ OrderData.status order' = ALLTRADED
               ∧ OrderData.traded order' = OrderData.volume order)
  ∧ (∃ trade, trade ∈ trades_of (event_engine self')
              ∧ TradeData.orderid trade = k
              ∧ TradeData.direction trade = OrderData.direction order
              ∧ TradeData.price trade = fill_price
              ∧ TradeData.volume trade = OrderData.volume order).
Proof.
  intros Hwf Hactive Horder Htype Hsymbol quote fill_price self'.
  subst quote fill_price self'.
  pose proof (fill_of_market tick self k order Horder Htype Hsymbol) as Hfill.
  destruct (wf_active_order _ Hwf k Hactive) as (order0 & Horder0 & _ & Htraded & _).
  rewrite Horder in Horder0. injection Horder0 as <-.
  destruct (update_tick_filled tick self k order _ Hwf Hactive Hfill)
    as (Hgone & Hstored & trade & Hin & Hid & Hdir & Hprice & Hvolume).
  split; [done|]. split.
  - exists (executed order). split; [done|]. split; [done|].
    unfold executed, fill_volume. cbn. rewrite Htraded. ring.
  - exists trade. repeat split; try done.
    + rewrite Hprice. by destruct (decide (OrderData.direction order = LONG)).
    + rewrite Hvolume. unfold fill_volume. rewrite Htraded. ring.
Qed.

Lemma market_order_fill_rule_witness :
  let self :=
    (send_order (OrderRequest.mk "600000" SSE SHORT MARKET (float 200) 0)
       (set_positions
          {[ "600000.SSE" := PaperPosition.mk "600000" SSE (float 500) 0 (float 8) 0 ]}
          (init "PAPER"))).2 in
  let tick := TickData.mk "600000" SSE (float 9) (float 8.99) (float 9.01) "PAPER" in
  ∃ trade, trade ∈ trades_of (event_engine (update_tick tick self))
           ∧ TradeData.orderid trade = "PAPER_1"
           ∧ TradeData.price trade = float 8.99 * (1 - float 0.001).
Proof.
  intros self tick.
  assert (wf self) as Hwf.
  { apply wf_send_order. destruct (wf_init "PAPER"). split; try done.
    intros vt pos. cbn. intros [<- <-]%lookup_singleton_Some. by vm_compute. }
  destruct (market_order_fill_rule tick self "PAPER_1"
              (OrderData.mk "600000" SSE "PAPER_1" MARKET SHORT 0
                 (float 200) 0 NOTTRADED "PAPER") Hwf)
    as (_ & _ & trade & Hin & Hid & _ & Hprice & _);
    [by apply (bool_decide_unpack _); vm_compute | by vm_compute | done | done |].
  exists trade. repeat split; try done.
Defined.

(** X2.  A tick never fills an order of another symbol, nor an order that is
    neither a limit nor a market order (stop, FAK, FOK, ...): the order
    stays active and unchanged, and no trade is reported for it. *)
Theorem update_tick_never_fills (tick : TickData.t) (self : t) (k : string)
    (order : OrderData.t) :
  wf self → k ∈ active_orders self → orders self !! k = Some order →
  make_vt_symbol (OrderData.symbol order) (OrderData.exchange order)
  ≠ TickData.vt_symbol tick
  ∨ (OrderData.type order ≠ LIMIT ∧ OrderData.type order ≠ MARKET) →
  let self' := update_tick tick self in
  k ∈ active_orders self'
  ∧ orders self' !! k = Some order
  ∧ (∀ trade, trade ∈ trades_of (event_engine self') → TradeData.orderid trade ≠ k).
Proof.
  intros Hwf Hactive Horder Hnever self'. subst self'.
  pose proof (fill_of_never tick self k order Horder Hnever) as Hfill.
  destruct (update_tick_unfilled tick self k Hwf Hactive Hfill) as (Hin & Hsame & Hnone).
  by rewrite Hsame.
Qed.

Lemma update_tick_never_fills_witness :
  let self :=
    (send_order (OrderRequest.mk "000001" SZSE LONG STOP (float 100) (float 10))
       (init "PAPER")).2 in
  let tick := TickData.mk "000001" SZSE (float 9) (float 8.99) (float 9.01) "PAPER" in
  "PAPER_1" ∈ active_orders (update_tick tick self).
Proof.
  intros self tick.
  assert (wf self) as Hwf by apply wf_send_order, wf_init.
  eapply (update_tick_never_fills tick self "PAPER_1"
            (OrderData.mk "000001" SZSE "PAPER_1" STOP LONG (float 10)
               (float 100) 0 NOTTRADED "PAPER") Hwf);
    [by apply (bool_decide_unpack _); vm_compute | by vm_compute | by right].
Defined.

(** *** Which orders [send_order] accepts *)

Lemma _validate_order_true (req : OrderRequest.t) (vt_symbol : string) (self : t) :
  (_validate_order req vt_symbol self).1 = true
  ↔ float 100 ≤ OrderRequest.volume req
    ∧ (∃ n : Z, OrderRequest.volume req = float 100 * Qc_of_Z n)
    ∧ (OrderRequest.direction req = LONG →
         reservation self (OrderRequest.price req) (OrderRequest.volume req)
         ≤ balance self - frozen self)
    ∧ (OrderRequest.direction req = SHORT →
         ∃ pos, positions self !! vt_symbol = Some pos
                ∧ OrderRequest.volume req ≤ PaperPosition.volume pos).
Proof.
  unfold _validate_order, reservation.
  destruct (decide (OrderRequest.volume req < float 100)) as [Hsmall|Hsmall].
  { split; [done|]. intros [Hmin _]. by apply Qcle_not_lt in Hmin. }
  apply Qcnot_lt_le in Hsmall.
  destruct (decide (py_mod (OrderRequest.volume req) (float 100) ≠ 0)) as [Hmod|Hmod].
  { split; [done|]. intros (_ & Hmultiple & _). by apply py_mod_multiple in Hmultiple. }
  apply dec_stable, py_mod_multiple in Hmod.
  destruct (decide (OrderRequest.direction req = LONG)) as [Hlong|Hlong].
  { cbv zeta.
    destruct (decide (balance self - frozen self < _)) as [Hfunds|Hfunds]; cbn [fst].
    - split; [done|]. intros (_ & _ & Henough & _). specialize (Henough Hlong).
      exfalso. clear - Hfunds Henough. qc_lra.
    - split; [|done]. intros _. repeat split; try done.
      + intros _. clear - Hfunds. qc_lra.
      + intros Hshort. by rewrite Hlong in Hshort. }
  destruct (decide (OrderRequest.direction req = SHORT)) as [Hshort|Hshort].
  { destruct (positions self !! vt_symbol) as [pos|] eqn:Hpos.
    - destruct (decide (PaperPosition.volume pos < OrderRequest.volume req))
        as [Hless|Hless]; cbn [fst].
      + split; [done|]. intros (_ & _ & _ & Hheld).
        destruct (Hheld Hshort) as (pos' & [= <-] & Hle). by apply Qcle_not_lt in Hle.
      + split; [|done]. intros _. repeat split; try done.
        intros _. exists pos. split; [done|]. by apply Qcnot_lt_le.
    - cbn [fst]. split; [done|]. intros (_ & _ & _ & Hheld).
      by destruct (Hheld Hshort) as (pos' & ? & _). }
  cbn [fst]. split; [|done]. intros _. repeat split; done.
Qed.

Lemma send_order_validates (req : OrderRequest.t) (self : t) :
  (send_order req self).1 ≠ EmptyString
  ↔ (_validate_order req
       (make_vt_symbol (OrderRequest.symbol req) (OrderRequest.exchange req)) self).1
    = true.
Proof.
  destruct (_validate_order req _ self) as [[] error_msg] eqn:Hvalid; cbn [fst].
  - destruct (send_order_accepted req self error_msg Hvalid) as (-> & _).
    split; [done|]. intros _. by destruct (gateway_name self).
  - rewrite (send_order_rejected _ _ _ Hvalid). cbn [fst]. split; [done|done].
Qed.

Lemma send_order_nonempty (req : OrderRequest.t) (self : t) :
  (send_order req self).1 ≠ EmptyString
  ↔ float 100 ≤ OrderRequest.volume req
    ∧ (∃ n : Z, OrderRequest.volume req = float 100 * Qc_of_Z n)
    ∧ (OrderRequest.direction req = LONG →
         OrderRequest.price req * OrderRequest.volume req * (1 + commission_rate self)
         ≤ balance self - frozen self)
    ∧ (OrderRequest.direction req = SHORT →
         ∃ pos,
           positions self
             !! make_vt_symbol (OrderRequest.symbol req) (OrderRequest.exchange req)
           = Some pos
           ∧ OrderRequest.volume req ≤ PaperPosition.volume pos).
Proof. rewrite send_order_validates. apply _validate_order_true. Qed.



(** X4.  An order with a valid lot size is rejected when it is a buy that
    needs more than balance − frozen, or a sell of more than the position
    held (nothing, when the symbol has no position).  [send_order]
    returns the empty identifier, queues the rejected order and logs the
    reason with the two amounts; the order counter advances and nothing
    else changes. *)
Theorem send_order_insufficient_rejected (req : OrderRequest.t) (self : t) :
  let vt_symbol :=
    make_vt_symbol (OrderRequest.symbol req) (OrderRequest.exchange req) in
  let required :=
    OrderRequest.price req * OrderRequest.volume req
    + OrderRequest.price req * OrderRequest.volume req * commission_rate self in
  let available := balance self - frozen self in
  let held :=
    match positions self !! vt_symbol with
    | Some pos => PaperPosition.volume pos
    | None => 0
    end in
  float 100 ≤ OrderRequest.volume req →
  (∃ n : Z, OrderRequest.volume req = float 100 * Qc_of_Z n) →
  (OrderRequest.direction req = LONG ∧ available < required)
  ∨ (OrderRequest.direction req = SHORT ∧ held < OrderRequest.volume req) →
  let error_msg :=
    if decide (OrderRequest.direction req = LONG)
    then InsufficientFunds required available
    else InsufficientPosition (OrderRequest.volume req) held in
  let self' := (send_order req self).2 in
  (send_order req self).1 = EmptyString
  ∧ event_engine self'
    = event_engine self
      ++ [EventOrder
            (OrderData.set_status REJECTED
               (create_order_data req (make_orderid (S (order_count self)))
                  (gateway_name self)));
          EventLog (LogOrderRejected error_msg)]
  ∧ order_count self' = S (order_count self)
  ∧ balance self' = balance self
  ∧ frozen self' = frozen self
  ∧ positions self' = positions self
  ∧ orders self' = orders self
  ∧ active_orders self' = active_orders self.
Proof.
  intros vt_symbol required available held Hmin Hmultiple Hshort error_msg self'.
  subst self'.
  assert (_validate_order req vt_symbol self = (false, error_msg)) as Hvalid.
  { subst error_msg. unfold _validate_order.
    rewrite decide_False by (by apply Qcle_not_lt).
    rewrite (decide_False (P := py_mod _ _ ≠ 0))
      by (intros Hmod; by apply Hmod, py_mod_multiple).
    destruct Hshort as [[Hlong Hfunds]|[Hsell Hheld]].
    - rewrite !(decide_True (P := OrderRequest.direction req = LONG)) by done.
      cbv zeta. by rewrite decide_True by done.
    - rewrite !(decide_False (P := OrderRequest.direction req = LONG))
        by (by rewrite Hsell).
      rewrite (decide_True (P := OrderRequest.direction req = SHORT)) by done.
      subst held. fold vt_symbol.
      destruct (positions self !! vt_symbol) as [pos|]; [|done].
      by rewrite decide_True by done. }
  by rewrite (send_order_rejected _ _ _ Hvalid).
Qed.

Lemma send_order_insufficient_rejected_witness :
  let self := init "PAPER" in
  let req := OrderRequest.mk "000001" SZSE SHORT LIMIT (float 100) (float 10) in
  (send_order req self).1 = EmptyString ∧ orders (send_order req self).2 = orders self.
Proof.
  intros self req.
  destruct (send_order_insufficient_rejected req self)
    as (Hid & _ & _ & _ & _ & _ & Horders & _).
  - by vm_compute.
  - exists 1%Z. qc_compute.
  - right. by vm_compute.
  - by split.
Defined.

(** X5.  An accepted buy order moves price × volume × (1 + commission_rate)
    from balance to frozen.  [_validate_order] takes balance − frozen as
    the funds available, so these fall by twice that amount: the same
    order is accepted a second time only if three times the amount was
    available.  Positions are not touched. *)
Theorem send_order_reserves (req : OrderRequest.t) (self : t) :
  OrderRequest.direction req = LONG →
  (send_order req self).1 ≠ EmptyString →
  let amount :=
    OrderRequest.price req * OrderRequest.volume req * (1 + commission_rate self) in
  let self' := (send_order req self).2 in
  balance self' = balance self - amount
  ∧ frozen self' = frozen self + amount
  ∧ balance self' - frozen self' = balance self - frozen self - (amount + amount)
  ∧ positions self' = positions self
  ∧ ((send_order req self').1 ≠ EmptyString
     ↔ amount + amount + amount ≤ balance self - frozen self).
Proof.
  intros Hlong Hid amount self'. subst self'.
  pose proof Hid as Hvalid. apply send_order_validates in Hvalid.
  destruct (_validate_order req _ self) as [[] error_msg] eqn:Hvalid'; [|done].
  destruct (send_order_accepted req self error_msg Hvalid')
    as (_ & (_ & Hrate & _ & _ & Hpositions & _) & _ & (Hbalance & Hfrozen) & _).
  rewrite decide_True in Hbalance, Hfrozen by done. unfold reservation in *.
  fold amount in Hbalance, Hfrozen.
  apply (proj1 (send_order_nonempty req self)) in Hid as (Hmin & Hmultiple & _).
  rewrite (send_order_nonempty req _), Hrate, Hpositions.
  fold amount. revert Hbalance Hfrozen. generalize (send_order req self).2.
  intros self' Hbalance Hfrozen. rewrite Hbalance, Hfrozen.
  split; [done|]. split; [done|]. split; [ring|]. split; [done|]. split.
  - intros (_ & _ & Hfunds & _). specialize (Hfunds Hlong).
    clear - Hfunds. qc_lra.
  - intros Hthree. split; [done|]. split; [done|]. split.
    + intros _. clear - Hthree. qc_lra.
    + intros Hsell. by rewrite Hlong in Hsell.
Qed.

Lemma send_order_reserves_witness :
  let self := init "PAPER" in
  let req := OrderRequest.mk "000001" SZSE LONG LIMIT (float 1000) (float 10.50) in
  frozen (send_order req self).2 = float 10503.15.
Proof.
  intros self req.
  destruct (send_order_reserves req self) as (_ & -> & _); [done | by vm_compute |].
  qc_compute.
Defined.

(** X6.  An accepted sell order freezes nothing: balance, frozen and the
    position are as before, so the position it sells is not set aside,
    and the same sell order is accepted again. *)
Theorem send_order_sell_not_reserved (req : OrderRequest.t) (self : t) :
  OrderRequest.direction req = SHORT →
  (send_order req self).1 ≠ EmptyString →
  let self' := (send_order req self).2 in
  balance self' = balance self
  ∧ frozen self' = frozen self
  ∧ positions self' = positions self
  ∧ (send_order req self').1 ≠ EmptyString.
Proof.
  intros Hsell Hid self'. subst self'.
  pose proof Hid as Hvalid. apply send_order_validates in Hvalid.
  destruct (_validate_order req _ self) as [[] error_msg] eqn:Hvalid'; [|done].
  destruct (send_order_accepted req self error_msg Hvalid')
    as (_ & (_ & Hrate & _ & _ & Hpositions & _) & _ & (Hbalance & Hfrozen) & _).
  rewrite decide_False in Hbalance, Hfrozen by (by rewrite Hsell).
  apply (proj1 (send_order_nonempty req self)) in Hid
    as (Hmin & Hmultiple & _ & Hheld).
  rewrite (send_order_nonempty req _), Hpositions.
  revert Hbalance Hfrozen. generalize (send_order req self).2.
  intros self' Hbalance Hfrozen. rewrite Hbalance, Hfrozen.
  repeat split; try done; try ring.
  intros Hlong. by rewrite Hsell in Hlong.
Qed.

Lemma send_order_sell_not_reserved_witness :
  let self :=
    set_positions
      {[ "600000.SSE" := PaperPosition.mk "600000" SSE (float 500) 0 (float 8) 0 ]}
      (init "PAPER") in
  let req := OrderRequest.mk "600000" SSE SHORT LIMIT (float 500) (float 9) in
  (send_order req (send_order req self).2).1 ≠ EmptyString.
Proof.
  intros self req.
  by destruct (send_order_sell_not_reserved req self) as (_ & _ & _ & Hagain);
    [done | by vm_compute |].
Defined.

(** *** Calls that trade nothing, and what the trades account for *)

Lemma _execute_trade_counters (k : string) (order : OrderData.t) (price : Qc) (self : t) :
  let self' := _execute_trade k order price self in
  initial_capital self' = initial_capital self
  ∧ execution_delay self' = execution_delay self
  ∧ trade_count self' = S (trade_count self)
  ∧ total_trades self' = S (total_trades self).
Proof.
  cbv zeta. unfold _execute_trade.
  destruct (decide (OrderData.direction order = LONG));
    account_cbv; rewrite lookup_insert_eq; account_cbv; done.
Qed.

Lemma quiet_refl (self : t) : quiet self self.
Proof. split; try done. exists []. by rewrite app_nil_r. Qed.

Lemma quiet_trans (s1 s2 s3 : t) : quiet s1 s2 → quiet s2 s3 → quiet s1 s3.
Proof.
  intros [Hs1 Hc1 Ht1 Hm1 Hb1 (new1 & He1 & Hn1)] [Hs2 Hc2 Ht2 Hm2 Hb2 (new2 & He2 & Hn2)].
  split; try congruence.
  exists (new1 ++ new2). rewrite He2, He1, app_assoc, trades_of_app, Hn1, Hn2. done.
Qed.

Lemma quiet_send_order (req : OrderRequest.t) (self : t) :
  quiet self (send_order req self).2.
Proof.
  rewrite send_order_validate. cbv zeta.
  destruct (_validate_order req _ self) as [[] error_msg].
  - rewrite store_active_fields.
    destruct (decide (OrderRequest.direction req = LONG));
      (split; unfold settings; account_cbv_all; try done; try ring;
       eexists; rewrite <- app_assoc; split; done).
  - split; unfold settings; account_cbv_all; try done.
    eexists; rewrite <- app_assoc; split; done.
Qed.

Lemma quiet_cancel_order (req : CancelRequest.t) (self : t) :
  quiet self (cancel_order req self).
Proof.
  unfold cancel_order. cbv zeta.
  destruct (decide (CancelRequest.orderid req ∉ active_orders self)).
  { split; unfold settings; account_cbv_all; try done. by eexists. }
  destruct (orders self !! CancelRequest.orderid req) as [order|];
    [|apply quiet_refl].
  destruct (decide (OrderData.direction order = LONG));
    (split; unfold settings; account_cbv_all; try done; try ring;
     eexists; rewrite <- !app_assoc; split; done).
Qed.

Lemma quiet_with_tick (tick : TickData.t) (self : t) : quiet self (with_tick tick self).
Proof.
  unfold with_tick. cbv zeta. cbn [positions set_ticks].
  destruct (positions self !! TickData.vt_symbol tick);
    (split; try done; exists []; by rewrite app_nil_r).
Qed.

Lemma quiet_set_active_orders (l : list string) (self : t) :
  quiet self (set_active_orders l self).
Proof. split; try done. exists []. by rewrite app_nil_r. Qed.

Lemma quiet_on_tick (tick : TickData.t) (self : t) : quiet self (on_tick tick self).
Proof. split; try done. by eexists. Qed.

Section StepRelation.

Variable R : t → t → Prop.
Hypothesis R_refl : ∀ s, R s s.
Hypothesis R_trans : ∀ s1 s2 s3, R s1 s2 → R s2 s3 → R s1 s3.
Hypothesis R_quiet : ∀ s s', quiet s s' → R s s'.
Hypothesis R_execute : ∀ k order price s,
  orders s !! k = Some order → R s (_execute_trade k order price s).

Lemma foldl_match_order_rel (vt_symbol : string) (tick : TickData.t) (l : list string) :
  ∀ (self : t) (orders_to_remove : list string),
    R self (foldl (match_order vt_symbol tick) (self, orders_to_remove) l).1.
Proof.
  induction l as [|k l IH]; intros self orders_to_remove; [apply R_refl|].
  change (foldl ?f ?a (k :: l)) with (foldl f (f a k) l).
  rewrite match_order_fill_of.
  destruct (fill_of vt_symbol tick self k) as [[order price]|] eqn:Hfill; [|apply IH].
  eapply R_trans; [|apply IH]. apply R_execute.
  by apply fill_of_Some in Hfill as (? & _).
Qed.

Lemma update_tick_rel (tick : TickData.t) (self : t) : R self (update_tick tick self).
Proof.
  rewrite update_tick_with_tick.
  eapply R_trans; [apply R_quiet, quiet_with_tick|].
  eapply R_trans; [|apply R_quiet, quiet_on_tick].
  unfold _match_orders.
  pose proof (foldl_match_order_rel (TickData.vt_symbol tick) tick
                (active_orders (with_tick tick self)) (with_tick tick self) []) as Hfold.
  destruct (foldl _ _ _) as [after orders_to_remove]. cbn [fst] in Hfold.
  eapply R_trans; [exact Hfold|]. rewrite foldl_del_active.
  apply R_quiet, quiet_set_active_orders.
Qed.

Lemma step_rel (self : t) (a : Action) : R self (step self a).
Proof.
  destruct a as [req|req|tick]; cbn [step].
  - apply R_quiet, quiet_send_order.
  - apply R_quiet, quiet_cancel_order.
  - apply update_tick_rel.
Qed.

Lemma run_rel (actions : list Action) (self : t) : R self (run actions self).
Proof.
  revert self. induction actions as [|a actions IH]; intros self; [apply R_refl|].
  cbn [run foldl]. eapply R_trans; [apply step_rel|]. apply IH.
Qed.

End StepRelation.

Lemma sum_Qc_app (l1 l2 : list Qc) : sum_Qc (l1 ++ l2) = sum_Qc l1 + sum_Qc l2.
Proof.
  unfold sum_Qc. induction l1 as [|x l1 IH]; simpl; [ring|]. rewrite IH. ring.
Qed.

Lemma tradeids_from_app (n a b : nat) :
  tradeids_from n (a + b) = tradeids_from n a ++ tradeids_from (n + a) b.
Proof.
  unfold tradeids_from. by rewrite seq_app, fmap_app.
Qed.

Lemma trade_cost_settings (s1 s2 : t) (trade : TradeData.t) :
  settings s2 = settings s1 → trade_cost s2 trade = trade_cost s1 trade.
Proof.
  unfold settings, trade_cost. intros [= _ _ -> -> _ _]. done.
Qed.

Lemma accounted_refl (self : t) : accounted self self.
Proof.
  split; [done|]. exists []. rewrite app_nil_r. cbn.
  rewrite !Nat.add_0_r. repeat split; try done; unfold sum_Qc; simpl; ring.
Qed.

Lemma accounted_trans (s1 s2 s3 : t) : accounted s1 s2 → accounted s2 s3 → accounted s1 s3.
Proof.
  intros [Hs1 (new1 & He1 & Hc1 & Ht1 & Hi1 & Hm1 & Hb1)]
         [Hs2 (new2 & He2 & Hc2 & Ht2 & Hi2 & Hm2 & Hb2)].
  split; [congruence|].
  exists (new1 ++ new2).
  assert (trade_cost s2 <$> trades_of new2 = trade_cost s1 <$> trades_of new2) as Hcost.
  { apply list_fmap_ext. intros _ trade _. by apply trade_cost_settings. }
  rewrite Hcost in Hm2, Hb2.
  rewrite trades_of_app, !fmap_app, !sum_Qc_app, length_app, tradeids_from_app.
  rewrite He2, He1, app_assoc, Hc2, Hc1, Ht2, Ht1, Hi1, Hi2, Hc1, Hm2, Hm1, Hb2, Hb1.
  repeat split; try done; try lia; ring.
Qed.

Lemma accounted_quiet (s s' : t) : quiet s s' → accounted s s'.
Proof.
  intros [Hs Hc Ht Hm Hb (new & He & Hn)]. split; [done|].
  exists new. rewrite Hn, Hc, Ht, Hm, Hb. cbn. rewrite !Nat.add_0_r.
  repeat split; try done; unfold sum_Qc; simpl; ring.
Qed.

Lemma accounted_execute (k : string) (order : OrderData.t) (price : Qc) (self : t) :
  accounted self (_execute_trade k order price self).
Proof.
  destruct (_execute_trade_counters k order price self) as (Hcap & Hdelay & Hc & Ht).
  exec_fields k order price self.
  split; [unfold settings; congruence|].
  eexists. split; [exact Hevents|].
  cbn [trades_of omap option_bind app length fmap list_fmap].
  cbn. rewrite Hc, Ht, Hcommission, Hcash.
  unfold tradeids_from, trade_cost, trade_cash, fill_cost, trade_of, sum_Qc. cbn.
  repeat split; try lia; try done.
  - ring.
  - destruct (decide (OrderData.direction order = LONG)); ring.
Qed.

Lemma run_accounted (actions : list Action) (self : t) : accounted self (run actions self).
Proof.
  apply run_rel.
  - apply accounted_refl.
  - apply accounted_trans.
  - apply accounted_quiet.
  - intros k order price s _. apply accounted_execute.
Qed.

Lemma run_settings (actions : list Action) (self : t) :
  settings (run actions self) = settings self.
Proof. apply run_accounted. Qed.

Lemma tradeids_from_NoDup (n count : nat) : NoDup (tradeids_from n count).
Proof.
  unfold tradeids_from. apply NoDup_fmap_2; [|apply NoDup_seq].
  intros i j Heq. apply (inj (String.append "TRADE_")) in Heq.
  by apply (inj pretty) in Heq.
Qed.

(** X7.  Over any run of orders, cancellations and ticks, each fill takes the
    next trade number: the trades queued carry the identifiers
    [TRADE_n+1], [TRADE_n+2], ... in order, with no gap and no repeat,
    where [n] is the trade counter at the start, and [trade_count] and
    the statistic [total_trades] both grow by the number of trades.  From
    a new account, [total_trades] is the number of trades queued. *)
Theorem trades_are_counted :
  (∀ (actions : list Action) (self : t),
     let after := run actions self in
     let trades := trades_of (events_since self after) in
     trade_count after = (trade_count self + length trades)%nat
     ∧ total_trades after = (total_trades self + length trades)%nat
     ∧ TradeData.tradeid <$> trades = tradeids_from (trade_count self) (length trades)
     ∧ NoDup (TradeData.tradeid <$> trades))
  ∧ (∀ (actions : list Action) (gateway_name : string),
       let after := run actions (init gateway_name) in
       total_trades after = length (trades_of (event_engine after))
       ∧ trade_count after = total_trades after).
Proof.
  split.
  - intros actions self after trades. subst after trades.
    destruct (run_accounted actions self)
      as [_ (new & Hevents & Hcount & Htotal & Hids & _)].
    rewrite (events_since_app _ _ _ Hevents), Hids.
    repeat split; try done. apply tradeids_from_NoDup.
  - intros actions gateway_name after. subst after.
    destruct (run_accounted actions (init gateway_name))
      as [_ (new & Hevents & Hcount & Htotal & _)].
    rewrite Hevents, Hcount, Htotal. done.
Qed.

(** X8.  The commission total grows, over any run, by what its trades were
    charged: price × volume × commission_rate on every trade, and price ×
    volume × stamp_duty_rate more on every sell. *)
Theorem total_commission_of_trades (actions : list Action) (self : t) :
  let after := run actions self in
  total_commission after
  = total_commission self
    + sum_Qc (trade_cost self <$> trades_of (events_since self after)).
Proof.
  intros after. subst after.
  destruct (run_accounted actions self) as [_ (new & Hevents & _ & _ & _ & Hcost & _)].
  by rewrite (events_since_app _ _ _ Hevents).
Qed.

(** X9.  Money enters and leaves the account through trades only.  Over any
    run, balance + frozen changes by the value of the sells, minus the
    value of the buys, minus the commission and stamp duty charged;
    submitting and cancelling orders moves money between balance and
    frozen and changes their sum by nothing. *)
Theorem cash_flow_of_trades :
  (∀ (actions : list Action) (self : t),
     let after := run actions self in
     let trades := trades_of (events_since self after) in
     balance after + frozen after
     = balance self + frozen self + sum_Qc (trade_cash <$> trades)
       - (total_commission after - total_commission self))
  ∧ (∀ (req : OrderRequest.t) (self : t),
       balance (send_order req self).2 + frozen (send_order req self).2
       = balance self + frozen self)
  ∧ (∀ (req : CancelRequest.t) (self : t),
       balance (cancel_order req self) + frozen (cancel_order req self)
       = balance self + frozen self).
Proof.
  split; [|split].
  - intros actions self after trades. subst after trades.
    destruct (run_accounted actions self)
      as [_ (new & Hevents & _ & _ & _ & Hcost & Hcash)].
    rewrite (events_since_app _ _ _ Hevents), Hcash, Hcost. ring.
  - intros req self. apply quiet_send_order.
  - intros req self. apply quiet_cancel_order.
Qed.

(** *** [reset] and [get_statistics] *)

Lemma connect_fields (setting : Setting.t) (gateway_name' : string) :
  let capital := default (float 1000000) (Setting.initial_capital setting) in
  let self := connect setting (init gateway_name') in
  settings self
  = (gateway_name', capital,
     default (float 0.0003) (Setting.commission_rate setting),
     default (float 0.001) (Setting.stamp_duty_rate setting),
     default (float 0.001) (Setting.slippage setting),
     default 100%Z (Setting.execution_delay setting))
  ∧ balance self = capital ∧ frozen self = 0
  ∧ positions self = ∅ ∧ orders self = ∅ ∧ active_orders self = []
  ∧ order_count self = 0%nat ∧ trade_count self = 0%nat
  ∧ total_commission self = 0 ∧ total_trades self = 0%nat ∧ ticks self = ∅.
Proof. done. Qed.

Lemma reset_fields (msg : LogMsg) (self : t) :
  let self' := reset msg self in
  settings self' = settings self
  ∧ balance self' = initial_capital self ∧ frozen self' = 0
  ∧ positions self' = ∅ ∧ orders self' = ∅ ∧ active_orders self' = []
  ∧ order_count self' = 0%nat ∧ trade_count self' = 0%nat
  ∧ total_commission self' = 0 ∧ total_trades self' = 0%nat
  ∧ ticks self' = ticks self
  ∧ event_engine self'
    = event_engine self
      ++ [EventLog msg;
          EventAccount
            (AccountData.mk "PAPER" (initial_capital self) 0 (gateway_name self))].
Proof.
  cbv zeta. unfold reset, settings. account_cbv_all.
  rewrite map_fold_empty, <- app_assoc, !Qcplus_0_r.
  repeat split; done.
Qed.

Lemma send_order_id_frame (req : OrderRequest.t) (self : t)
    (ticks' : gmap string TickData.t) (events : list Event) :
  (send_order req (set_ticks ticks' (set_event_engine events self))).1
  = (send_order req self).1.
Proof.
  rewrite !send_order_validate. cbv zeta.
  change (_validate_order req ?vt (set_ticks _ (set_event_engine _ self)))
    with (_validate_order req vt self).
  by destruct (_validate_order req _ self) as [[] error_msg].
Qed.

(** X10.  [reset] undoes a whole run.  Whatever orders, cancellations and ticks
    a connected account has processed, after [reset] it is the account
    [connect] left, except for the stored ticks, which are kept, and the
    event queue, which gains the log line and an account event carrying
    the initial capital.  In particular the order counter is back at
    zero: the next order gets the identifier of the first order again. *)
Theorem reset_restores (msg : LogMsg) (setting : Setting.t) (gateway_name' : string)
    (actions : list Action) :
  let connected := connect setting (init gateway_name') in
  let before := run actions connected in
  let self := reset msg before in
  set_ticks (ticks connected) (set_event_engine (event_engine connected) self)
  = connected
  ∧ ticks self = ticks before
  ∧ event_engine self
    = event_engine before
      ++ [EventLog msg;
          EventAccount
            (AccountData.mk "PAPER" (initial_capital connected) 0 gateway_name')]
  ∧ (∀ req : OrderRequest.t, (send_order req self).1 = (send_order req connected).1).
Proof.
  intros connected before self.
  pose proof (run_settings actions connected) as Hsettings. fold before in Hsettings.
  destruct (reset_fields msg before)
    as (Hs & Hbalance & Hfrozen & Hpositions & Horders & Hactive & Hcount & Htrades
        & Hcommission & Htotal & Hticks & Hevents).
  fold self in Hs, Hbalance, Hfrozen, Hpositions, Horders, Hactive, Hcount, Htrades,
    Hcommission, Htotal, Hticks, Hevents.
  rewrite Hsettings in Hs.
  destruct (connect_fields setting gateway_name')
    as (Hcs & Hcbalance & Hcfrozen & Hcpositions & Hcorders & Hcactive & Hccount
        & Hctrades & Hccommission & Hctotal & Hcticks).
  fold connected in Hcs, Hcbalance, Hcfrozen, Hcpositions, Hcorders, Hcactive,
    Hccount, Hctrades, Hccommission, Hctotal, Hcticks.
  assert (initial_capital before = initial_capital connected) as Hcapital.
  { unfold settings in Hsettings. by injection Hsettings. }
  assert (gateway_name before = gateway_name') as Hname.
  { rewrite Hcs in Hsettings. unfold settings in Hsettings. by injection Hsettings. }
  assert (set_ticks (ticks connected)
            (set_event_engine (event_engine connected) self) = connected) as Hsame.
  { clearbody self connected before.
    rewrite Hcs in Hs. rewrite Hcapital in Hbalance. unfold settings in Hs, Hcs.
    destruct self, connected. cbn in *.
    injection Hs as -> -> -> -> -> ->. injection Hcs as -> -> -> -> -> ->.
    unfold set_ticks, set_event_engine. cbn. congruence. }
  split; [done|]. split; [done|]. split; [by rewrite Hevents, Hcapital, Hname|].
  intros req. rewrite <- Hsame. symmetry. apply send_order_id_frame.
Qed.

Lemma get_statistics_fields (self : t) :
  initial_capital self ≠ 0 →
  ∃ stats,
    get_statistics self = Return stats
    ∧ Statistics.initial_capital stats = initial_capital self
    ∧ Statistics.current_balance stats = balance self
    ∧ Statistics.frozen stats = frozen self
    ∧ Statistics.total_pnl stats
      = map_fold (λ _ pos acc, acc + PaperPosition.pnl pos) 0 (positions self)
    ∧ Statistics.total_commission stats = total_commission self
    ∧ Statistics.total_trades stats = total_trades self
    ∧ Statistics.return_pct stats
      = (balance self + Statistics.total_pnl stats - initial_capital self)
        / initial_capital self * float 100.
Proof.
  intros Hcapital. unfold get_statistics, py_div. cbv zeta.
  rewrite decide_False by done. by eexists.
Qed.

(** X11.  [get_statistics] divides by the initial capital.  On an account
    connected with an initial capital of 0 it raises [ZeroDivisionError],
    whatever orders and ticks the account has processed since, and
    [TradingEngine.get_account] raises with it.  With any other capital
    both return: [return_pct] is (balance + the positions' P&L − initial
    capital) / initial capital × 100, and [get_account] reports balance −
    frozen as the available funds. *)
Theorem get_statistics_zero_capital (setting : Setting.t) (gateway_name' : string)
    (actions : list Action) :
  let capital := default (float 1000000) (Setting.initial_capital setting) in
  let self := run actions (connect setting (init gateway_name')) in
  (capital = 0 →
     get_statistics self = Raise ZeroDivisionError
     ∧ get_account self = Raise ZeroDivisionError)
  ∧ (capital ≠ 0 →
       ∃ stats info,
         get_statistics self = Return stats
         ∧ get_account self = Return info
         ∧ Statistics.initial_capital stats = capital
         ∧ Statistics.current_balance stats = balance self
         ∧ Statistics.total_trades stats = total_trades self
         ∧ Statistics.return_pct stats
           = (balance self + Statistics.total_pnl stats - capital) / capital * float 100
         ∧ AccountInfo.available info = balance self - frozen self
         ∧ AccountInfo.return_pct info = Statistics.return_pct stats).
Proof.
  intros capital self.
  assert (initial_capital self = capital) as Hcapital.
  { pose proof (run_settings actions (connect setting (init gateway_name'))) as Hs.
    fold self in Hs. destruct (connect_fields setting gateway_name') as (Hcs & _).
    rewrite Hcs in Hs. unfold settings in Hs. by injection Hs. }
  split.
  - intros Hzero. unfold get_account, get_statistics, py_div. cbv zeta.
    by rewrite Hcapital, decide_True.
  - intros Hpositive. rewrite <- Hcapital in *.
    destruct (get_statistics_fields self Hpositive)
      as (stats & Hstats & Hinitial & Hbalance & Hfrozen & Hpnl & Hcommission
          & Htotal & Hreturn).
    exists stats. eexists. unfold get_account. rewrite Hstats. cbn.
    rewrite Hbalance, Hfrozen. repeat split; done.
Qed.

Lemma get_statistics_zero_capital_witness :
  get_statistics
    (run [SendOrder (OrderRequest.mk "000001" SZSE LONG LIMIT (float 100) (float 10))]
       (connect (Setting.mk (Some 0) None None None None) (init "PAPER")))
  = Raise ZeroDivisionError.
Proof.
  by destruct (get_statistics_zero_capital (Setting.mk (Some 0) None None None None)
                 "PAPER"
                 [SendOrder (OrderRequest.mk "000001" SZSE LONG LIMIT (float 100)
                               (float 10))])
    as [[Hraise _] _].
Defined.

(** X12.  After any run of a connected account, [TradingEngine.reset_account]
    reports a clean account: balance and available funds equal to the
    initial capital, nothing frozen, no P&L, commission or trades, and a
    return of zero.  With an initial capital of 0 it raises
    [ZeroDivisionError], after the account has been reset. *)
Theorem reset_account_reports (msg : LogMsg) (setting : Setting.t)
    (gateway_name' : string) (actions : list Action) :
  let capital := default (float 1000000) (Setting.initial_capital setting) in
  let before := run actions (connect setting (init gateway_name')) in
  (reset_account msg before).2 = reset msg before
  ∧ (capital ≠ 0 →
       (reset_account msg before).1
       = Return (AccountInfo.mk capital capital 0 capital 0 0 0%nat 0))
  ∧ (capital = 0 → (reset_account msg before).1 = Raise ZeroDivisionError).
Proof.
  intros capital before.
  assert (initial_capital before = capital) as Hcapital.
  { pose proof (run_settings actions (connect setting (init gateway_name'))) as Hs.
    fold before in Hs. destruct (connect_fields setting gateway_name') as (Hcs & _).
    rewrite Hcs in Hs. unfold settings in Hs. by injection Hs. }
  destruct (reset_fields msg before)
    as (Hs & Hbalance & Hfrozen & Hpositions & _ & _ & _ & _ & Hcommission & Htotal & _).
  assert (initial_capital (reset msg before) = capital) as Hcapital'.
  { by rewrite <- Hcapital. }
  unfold reset_account. cbv zeta. cbn [fst snd]. split; [done|].
  unfold get_account, get_statistics, py_div. cbv zeta.
  rewrite Hcapital', Hbalance, Hfrozen, Hpositions, Hcommission, Htotal, Hcapital,
    map_fold_empty.
  split.
  - intros Hpositive. rewrite decide_False by done. cbn. f_equal.
    f_equal; [ring | by field].
  - intros ->. by rewrite decide_True.
Qed.

Lemma reset_account_reports_witness :
  let before :=
    run [SendOrder (OrderRequest.mk "000001" SZSE LONG LIMIT (float 100) (float 10))]
      (connect (Setting.mk (Some (float 5000)) None None None None) (init "PAPER")) in
  (reset_account (LogInitialized (float 5000)) before).1
  = Return (AccountInfo.mk (float 5000) (float 5000) 0 (float 5000) 0 0 0%nat 0).
Proof.
  intros before.
  by apply (proj1 (proj2 (reset_account_reports (LogInitialized (float 5000))
                            (Setting.mk (Some (float 5000)) None None None None)
                            "PAPER" _))).
Defined.

(** *** Frozen funds are the reservations of the active buy orders *)

Lemma reserved_by_ext (s s' : t) (k : string) :
  orders s' !! k = orders s !! k → commission_rate s' = commission_rate s →
  reserved_by s' k = reserved_by s k.
Proof. unfold reserved_by, reservation. by intros -> ->. Qed.

Lemma sum_Qc_fmap_ext {A} (f g : A → Qc) (l : list A) :
  (∀ x, x ∈ l → f x = g x) → sum_Qc (f <$> l) = sum_Qc (g <$> l).
Proof.
  intros Hext. f_equal. apply list_fmap_ext. intros i x Hx. apply Hext.
  by eapply list_elem_of_lookup_2.
Qed.

Lemma sum_Qc_filter_split {A} (f : A → Qc) (P : A → Prop) `{∀ x, Decision (P x)}
    (l : list A) :
  sum_Qc (f <$> l)
  = sum_Qc (f <$> filter P l) + sum_Qc (f <$> filter (λ x, ¬ P x) l).
Proof.
  induction l as [|x l IH]; [unfold sum_Qc; simpl; ring|].
  rewrite !filter_cons. cbn [fmap list_fmap sum_Qc foldr]. fold (sum_Qc (f <$> l)).
  rewrite IH. destruct (decide (P x)) as [HP|HP].
  - rewrite decide_False by tauto. cbn. fold (sum_Qc (f <$> filter P l)). ring.
  - rewrite decide_True by done. cbn.
    fold (sum_Qc (f <$> filter (λ x, ¬ P x) l)). ring.
Qed.

Lemma sum_Qc_remove (f : string → Qc) (k : string) (l : list string) :
  NoDup l → k ∈ l →
  sum_Qc (f <$> l) = f k + sum_Qc (f <$> filter (λ k', k' ≠ k) l).
Proof.
  intros Hnodup Hin.
  rewrite (sum_Qc_filter_split f (λ k', k' = k) l). f_equal.
  induction Hnodup as [|k' l Hk' Hnodup IH]; [by apply elem_of_nil in Hin|].
  rewrite filter_cons. apply elem_of_cons in Hin as [->|Hin].
  - rewrite decide_True by done.
    rewrite filter_none_in by (intros k'' Hk'' ->; done).
    unfold sum_Qc. simpl. ring.
  - rewrite decide_False by (intros ->; done). by apply IH.
Qed.

Lemma fills_frozen (vt_symbol : string) (tick : TickData.t) (ks : list string)
    (self self' : t) :
  fills vt_symbol tick ks self self' → NoDup ks →
  frozen self' = frozen self - sum_Qc (reserved_by self <$> ks).
Proof.
  induction 1 as [self|k ks order price self self' Hfill Hfills IH]; intros Hnodup.
  - unfold sum_Qc. simpl. ring.
  - apply NoDup_cons in Hnodup as [Hk Hnodup]. rewrite (IH Hnodup).
    apply fill_of_Some in Hfill as (Horder & _).
    assert (sum_Qc (reserved_by (_execute_trade k order price self) <$> ks)
            = sum_Qc (reserved_by self <$> ks)) as ->.
    { apply sum_Qc_fmap_ext. intros k' Hk'. exec_fields k order price self.
      apply reserved_by_ext; [|done]. rewrite Horders, lookup_insert_ne; [done|].
      by intros ->. }
    cbn [fmap list_fmap sum_Qc foldr]. fold (sum_Qc (reserved_by self <$> ks)).
    unfold reserved_by at 2. rewrite Horder.
    pose proof (_execute_trade_fields k order price self) as Hfields. cbv zeta in Hfields.
    destruct Hfields as (_ & _ & _ & -> & _).
    destruct (decide (OrderData.direction order = LONG)); ring.
Qed.

Lemma frozen_reserved_send_order (req : OrderRequest.t) (self : t) :
  wf self → frozen self = active_reserved self →
  frozen (send_order req self).2 = active_reserved (send_order req self).2.
Proof.
  intros Hwf Hinv.
  destruct (_validate_order req
              (make_vt_symbol (OrderRequest.symbol req) (OrderRequest.exchange req)) self)
    as [[] error_msg] eqn:Hvalid.
  - destruct (new_orderid_fresh self Hwf) as [Hfresh _].
    destruct (send_order_accepted req self error_msg Hvalid)
      as (_ & (_ & Hrate & _) & (Horders & Hactive) & (_ & Hfrozen) & _).
    rewrite decide_False in Hactive by done.
    unfold active_reserved. rewrite Hfrozen, Hactive, fmap_app, sum_Qc_app, Hinv.
    unfold active_reserved. f_equal.
    + apply sum_Qc_fmap_ext. intros k Hk. symmetry. apply reserved_by_ext; [|done].
      rewrite Horders, lookup_insert_ne; [done|]. by intros <-.
    + cbn [fmap list_fmap sum_Qc foldr]. unfold reserved_by.
      rewrite Horders, lookup_insert_eq. unfold reservation, fill_volume. rewrite Hrate.
      cbn [OrderData.direction OrderData.price OrderData.volume OrderData.traded
           OrderData.set_status create_order_data].
      destruct (decide (OrderRequest.direction req = LONG)); ring.
  - rewrite (send_order_rejected _ _ _ Hvalid). exact Hinv.
Qed.

Lemma frozen_reserved_cancel_order (req : CancelRequest.t) (self : t) :
  wf self → frozen self = active_reserved self →
  frozen (cancel_order req self) = active_reserved (cancel_order req self).
Proof.
  intros Hwf Hinv.
  destruct (decide (CancelRequest.orderid req ∈ active_orders self)) as [Hin|Hin];
    [|by rewrite cancel_order_inactive].
  destruct (wf_active_order _ Hwf _ Hin) as (order & Horder & _).
  destruct (cancel_order_active req self order Hin Horder)
    as ((_ & Hrate & _) & (Horders & Hactive) & (_ & Hfrozen) & _).
  unfold active_reserved. rewrite Hfrozen, Hactive, Hinv.
  unfold active_reserved.
  rewrite (sum_Qc_remove _ (CancelRequest.orderid req) _ (wf_active_nodup _ Hwf) Hin).
  unfold reserved_by at 1. rewrite Horder.
  assert (sum_Qc (reserved_by (cancel_order req self)
                    <$> filter (λ k, k ≠ CancelRequest.orderid req) (active_orders self))
          = sum_Qc (reserved_by self
                      <$> filter (λ k, k ≠ CancelRequest.orderid req) (active_orders self)))
    as ->.
  { apply sum_Qc_fmap_ext. intros k [Hne _]%list_elem_of_filter.
    apply reserved_by_ext; [|done]. by rewrite Horders, lookup_insert_ne. }
  destruct (decide (OrderData.direction order = LONG)); ring.
Qed.

Lemma frozen_reserved_update_tick (tick : TickData.t) (self : t) :
  wf self → frozen self = active_reserved self →
  frozen (update_tick tick self) = active_reserved (update_tick tick self).
Proof.
  intros Hwf Hinv.
  pose proof (wf_active_nodup _ Hwf) as Hnodup.
  destruct (update_tick_fills tick self Hnodup) as (after & Hfills & ->).
  set (vt_symbol := TickData.vt_symbol tick) in *.
  set (P := λ k, is_Some (fill_of vt_symbol tick self k)) in *.
  set (ks := filter P (active_orders self)) in *.
  destruct (with_tick_fields tick self)
    as ((_ & Hrate & _ & _ & _ & _ & Horders) & (_ & Hfrozen & _) & _).
  destruct (fills_frame _ _ _ _ _ Hfills) as ((_ & Hrate' & _) & Hother & _).
  pose proof (fills_frozen _ _ _ _ _ Hfills (NoDup_filter _ _ Hnodup)) as Hafter.
  unfold active_reserved.
  change (frozen (on_tick tick (set_active_orders ?l after))) with (frozen after).
  change (active_orders (on_tick tick (set_active_orders ?l after))) with l.
  rewrite Hafter, Hfrozen, Hinv. unfold active_reserved.
  rewrite (sum_Qc_filter_split (reserved_by self) P (active_orders self)).
  fold ks.
  assert (sum_Qc (reserved_by (with_tick tick self) <$> ks)
          = sum_Qc (reserved_by self <$> ks)) as ->.
  { apply sum_Qc_fmap_ext. intros k _.
    apply reserved_by_ext; [by rewrite Horders | done]. }
  assert (filter (λ k, k ∉ ks) (active_orders self)
          = filter (λ k, ¬ P k) (active_orders self)) as ->.
  { apply filter_ext_in. intros k Hk. subst ks. rewrite list_elem_of_filter. tauto. }
  assert (sum_Qc (reserved_by (on_tick tick
                     (set_active_orders (filter (λ k, ¬ P k) (active_orders self)) after))
                    <$> filter (λ k, ¬ P k) (active_orders self))
          = sum_Qc (reserved_by self <$> filter (λ k, ¬ P k) (active_orders self)))
    as ->.
  { apply sum_Qc_fmap_ext. intros k [HP Hk]%list_elem_of_filter.
    apply reserved_by_ext.
    - change (orders (on_tick tick (set_active_orders ?l after))) with (orders after).
      rewrite Hother, Horders; [done|].
      subst ks. rewrite list_elem_of_filter. tauto.
    - change (commission_rate (on_tick tick (set_active_orders ?l after)))
        with (commission_rate after).
      by rewrite Hrate'. }
  ring.
Qed.

(** X13.  Frozen funds are exactly what the active buy orders hold back: over
    any run, [frozen] equals the sum, over the active orders that are
    buys, of price × unfilled volume × (1 + commission_rate).  On an
    account run from [connect], no money stays frozen once no order is
    active. *)
Theorem frozen_is_reserved :
  (∀ (actions : list Action) (self : t),
     wf self → frozen self = active_reserved self →
     frozen (run actions self) = active_reserved (run actions self))
  ∧ (∀ (setting : Setting.t) (gateway_name' : string) (actions : list Action),
       let after := run actions (connect setting (init gateway_name')) in
       frozen after = active_reserved after
       ∧ (active_orders after = [] → frozen after = 0)).
Proof.
  assert (∀ (actions : list Action) (self : t),
            wf self → frozen self = active_reserved self →
            frozen (run actions self) = active_reserved (run actions self)) as Hrun.
  { induction actions as [|a actions IH]; intros self Hwf Hinv; [done|].
    cbn [run foldl]. apply IH; [by apply wf_step|].
    destruct a as [req|req|tick]; cbn [step].
    - by apply frozen_reserved_send_order.
    - by apply frozen_reserved_cancel_order.
    - by apply frozen_reserved_update_tick. }
  split; [exact Hrun|].
  intros setting gateway_name' actions after.
  assert (frozen after = active_reserved after) as Hinv.
  { apply Hrun; [apply wf_connect, wf_init | done]. }
  split; [done|]. intros Hnone. rewrite Hinv. unfold active_reserved. by rewrite Hnone.
Qed.

Lemma frozen_is_reserved_witness :
  let actions :=
    [ SendOrder (OrderRequest.mk "000001" SZSE LONG LIMIT (float 1000) (float 10.50));
      SendOrder (OrderRequest.mk "600000" SSE LONG LIMIT (float 200) (float 8));
      UpdateTick (TickData.mk "000001" SZSE (float 10.48) (float 10.49) (float 10.48) "PAPER") ] in
  frozen (run actions (init "PAPER")) = active_reserved (run actions (init "PAPER")).
Proof.
  intros actions.
  apply (proj1 frozen_is_reserved actions (init "PAPER") (wf_init "PAPER")).
  by vm_compute.
Defined.

(** *** Orders that are no longer active *)

Lemma ids_issued_init (gateway_name' : string) : ids_issued (init gateway_name').
Proof. intros k [order Horder]. cbn in Horder. by rewrite lookup_empty in Horder. Qed.

Lemma ids_issued_connect (setting : Setting.t) (self : t) :
  ids_issued self → ids_issued (connect setting self).
Proof. done. Qed.

Lemma filled_keys_active (vt_symbol : string) (tick : TickData.t) (self : t) (k : string) :
  k ∈ filter (λ k, is_Some (fill_of vt_symbol tick self k)) (active_orders self) →
  k ∈ active_orders self ∧ is_Some (orders self !! k).
Proof.
  intros [[[order price] Hfill] Hin]%list_elem_of_filter. split; [done|].
  apply fill_of_Some in Hfill as (Horder & _). by eexists.
Qed.

Lemma update_tick_orders (tick : TickData.t) (self : t) :
  wf self →
  let ks :=
    filter (λ k, is_Some (fill_of (TickData.vt_symbol tick) tick self k))
      (active_orders self) in
  order_count (update_tick tick self) = order_count self
  ∧ active_orders (update_tick tick self) = filter (λ k, k ∉ ks) (active_orders self)
  ∧ (∀ k, k ∉ ks → orders (update_tick tick self) !! k = orders self !! k)
  ∧ (∀ k, is_Some (orders (update_tick tick self) !! k) → is_Some (orders self !! k)).
Proof.
  intros Hwf ks.
  destruct (update_tick_fills tick self (wf_active_nodup _ Hwf)) as (after & Hfills & ->).
  fold ks in Hfills.
  destruct (with_tick_fields tick self)
    as ((_ & _ & _ & _ & _ & Hcount & Horders) & _).
  destruct (fills_frame _ _ _ _ _ Hfills) as ((_ & _ & _ & _ & _ & Hcount' & _) & Hother & _).
  change (order_count (on_tick tick (set_active_orders ?l after)))
    with (order_count after).
  change (active_orders (on_tick tick (set_active_orders ?l after))) with l.
  change (orders (on_tick tick (set_active_orders ?l after))) with (orders after).
  split; [congruence|]. split; [done|]. split.
  - intros k Hk. by rewrite Hother, Horders.
  - intros k Hsome. destruct (decide (k ∈ ks)) as [Hk|Hk].
    + by apply filled_keys_active in Hk as [_ ?].
    + by rewrite Hother, Horders in Hsome.
Qed.

Lemma ids_issued_step (self : t) (a : Action) :
  wf self → ids_issued self → ids_issued (step self a).
Proof.
  intros Hwf Hissued. destruct a as [req|req|tick]; cbn [step].
  - destruct (_validate_order req
                (make_vt_symbol (OrderRequest.symbol req) (OrderRequest.exchange req))
                self) as [[] error_msg] eqn:Hvalid.
    + destruct (send_order_accepted req self error_msg Hvalid)
        as (_ & (_ & _ & _ & _ & _ & _ & Hcount) & (Horders & _) & _).
      intros k. rewrite Horders, Hcount.
      destruct (decide (make_orderid (S (order_count self)) = k)) as [<-|Hne].
      * intros _. by exists (S (order_count self)).
      * rewrite lookup_insert_ne by done. intros Hsome.
        destruct (Hissued k Hsome) as (n & Hn & ->). exists n. split; [lia | done].
    + rewrite (send_order_rejected _ _ _ Hvalid). intros k Hsome.
      destruct (Hissued k Hsome) as (n & Hn & ->). exists n. split; [cbn; lia | done].
  - destruct (decide (CancelRequest.orderid req ∈ active_orders self)) as [Hin|Hin];
      [|by rewrite cancel_order_inactive].
    destruct (wf_active_order _ Hwf _ Hin) as (order & Horder & _).
    destruct (cancel_order_active req self order Hin Horder)
      as ((_ & _ & _ & _ & _ & _ & Hcount) & (Horders & _) & _).
    intros k. rewrite Horders, Hcount.
    destruct (decide (CancelRequest.orderid req = k)) as [<-|Hne].
    + intros _. apply Hissued. by eexists.
    + rewrite lookup_insert_ne by done. apply Hissued.
  - destruct (update_tick_orders tick self Hwf) as (Hcount & _ & _ & Hsome).
    intros k Hk. rewrite Hcount. by apply Hissued, Hsome.
Qed.

Lemma closed_order_step (self : t) (a : Action) (k : string) :
  wf self → ids_issued self →
  is_Some (orders self !! k) → k ∉ active_orders self →
  orders (step self a) !! k = orders self !! k ∧ (k ∉ active_orders (step self a)).
Proof.
  intros Hwf Hissued Hsome Hclosed.
  destruct (Hissued k Hsome) as (n & Hn & Hk).
  destruct a as [req|req|tick]; cbn [step].
  - destruct (_validate_order req
                (make_vt_symbol (OrderRequest.symbol req) (OrderRequest.exchange req))
                self) as [[] error_msg] eqn:Hvalid.
    + destruct (send_order_accepted req self error_msg Hvalid)
        as (_ & _ & (Horders & Hactive) & _).
      assert (make_orderid (S (order_count self)) ≠ k) as Hne.
      { rewrite Hk. intros Heq%make_orderid_inj. lia. }
      rewrite Horders, Hactive, lookup_insert_ne by done. split; [done|].
      case_decide; [done|]. rewrite elem_of_app, list_elem_of_singleton.
      by intros [?|?].
    + by rewrite (send_order_rejected _ _ _ Hvalid).
  - destruct (decide (CancelRequest.orderid req ∈ active_orders self)) as [Hin|Hin];
      [|by rewrite cancel_order_inactive].
    destruct (wf_active_order _ Hwf _ Hin) as (order & Horder & _).
    destruct (cancel_order_active req self order Hin Horder)
      as (_ & (Horders & Hactive) & _).
    rewrite Horders, Hactive, lookup_insert_ne by (by intros <-).
    split; [done|]. rewrite list_elem_of_filter. by intros [_ ?].
  - destruct (update_tick_orders tick self Hwf) as (_ & Hactive & Hother & _).
    rewrite Hactive. split.
    + apply Hother. by intros [? _]%filled_keys_active.
    + rewrite list_elem_of_filter. by intros [_ ?].
Qed.

(** X14.  An order that is stored but no longer active, because it was filled
    or cancelled, is final: whatever orders, cancellations and ticks
    follow, its record (status, traded volume, price) stays as it is and
    it never becomes active again; cancelling it only logs that the order
    was not found.  New orders never overwrite a stored one: on an
    account run from [connect], every stored order has an identifier the
    counter has issued. *)
Theorem closed_order_is_final :
  (∀ (actions : list Action) (self : t) (k : string),
     wf self → ids_issued self →
     is_Some (orders self !! k) → k ∉ active_orders self →
     let after := run actions self in
     orders after !! k = orders self !! k
     ∧ (k ∉ active_orders after)
     ∧ (∀ req, CancelRequest.orderid req = k →
               cancel_order req after
               = write_log (LogOrderNotFound k) after))
  ∧ (∀ (setting : Setting.t) (gateway_name' : string) (actions : list Action),
       let after := run actions (connect setting (init gateway_name')) in
       wf after ∧ ids_issued after).
Proof.
  assert (∀ (actions : list Action) (self : t),
            wf self → ids_issued self → ids_issued (run actions self)) as Hissued.
  { induction actions as [|a actions IH]; intros self Hwf Hinv; [done|].
    cbn [run foldl]. apply IH; [by apply wf_step | by apply ids_issued_step]. }
  split.
  - intros actions self k Hwf Hinv Hsome Hclosed after. subst after.
    assert (orders (run actions self) !! k = orders self !! k
            ∧ (k ∉ active_orders (run actions self))) as [Hsame Hstill].
    { revert self Hwf Hinv Hsome Hclosed.
      induction actions as [|a actions IH]; intros self Hwf Hinv Hsome Hclosed; [done|].
      destruct (closed_order_step self a k Hwf Hinv Hsome Hclosed) as [Hsame Hstill].
      change (run (a :: actions) self) with (run actions (step self a)).
      destruct (IH (step self a)) as [Hsame' Hstill'];
        [by apply wf_step | by apply ids_issued_step | by rewrite Hsame | done |].
      split; [|done]. by rewrite Hsame', Hsame. }
    split; [done|]. split; [done|].
    intros req <-. by apply cancel_order_inactive.
  - intros setting gateway_name' actions after. split.
    + apply wf_run, wf_connect, wf_init.
    + apply Hissued; [apply wf_connect, wf_init|].
      apply ids_issued_connect, ids_issued_init.
Qed.

Lemma closed_order_is_final_witness :
  let self :=
    run [ SendOrder (OrderRequest.mk "000001" SZSE LONG LIMIT (float 1000) (float 10.50));
          CancelOrder (CancelRequest.mk "PAPER_1" "000001" SZSE) ]
      (connect (Setting.mk None None None None None) (init "PAPER")) in
  let actions :=
    [ SendOrder (OrderRequest.mk "000001" SZSE LONG LIMIT (float 1000) (float 10.50));
      UpdateTick (TickData.mk "000001" SZSE (float 10.48) (float 10.49) (float 10.48) "PAPER") ] in
  OrderData.status <$> orders (run actions self) !! "PAPER_1" = Some CANCELLED.
Proof.
  intros self actions.
  destruct (proj2 closed_order_is_final (Setting.mk None None None None None) "PAPER"
              [ SendOrder (OrderRequest.mk "000001" SZSE LONG LIMIT (float 1000)
                             (float 10.50));
                CancelOrder (CancelRequest.mk "PAPER_1" "000001" SZSE) ]) as [Hwf Hissued].
  destruct (proj1 closed_order_is_final actions self "PAPER_1" Hwf Hissued)
    as (-> & _);
    [vm_compute; by eexists | apply (bool_decide_unpack _); by vm_compute
    | by vm_compute].
Defined.

(** *** A buy order from submission to fill *)

Lemma update_trade_long_volume (volume' price : Qc) (pos : PaperPosition.t) :
  PaperPosition.volume (PaperPosition.update_trade LONG volume' price pos)
  = PaperPosition.volume pos + volume'.
Proof.
  unfold PaperPosition.update_trade. rewrite decide_True by done. cbv zeta.
  by destruct (decide (0 < _)).
Qed.

Lemma update_tick_single (tick : TickData.t) (self : t) (k : string)
    (order : OrderData.t) (price : Qc) :
  active_orders self = [k]%list →
  fill_of (TickData.vt_symbol tick) tick self k = Some (order, price) →
  update_tick tick self
  = on_tick tick
      (set_active_orders [] (_execute_trade k order price (with_tick tick self))).
Proof.
  intros Hactive Hfill.
  assert (NoDup (active_orders self)) as Hnodup.
  { rewrite Hactive. apply NoDup_singleton. }
  destruct (update_tick_fills tick self Hnodup) as (after & Hexec & ->).
  assert (filter (λ k0, is_Some (fill_of (TickData.vt_symbol tick) tick self k0))
            (active_orders self) = [k]%list) as Hks.
  { rewrite Hactive, filter_cons, decide_True by (by rewrite Hfill).
    by rewrite filter_nil. }
  rewrite Hks in Hexec. rewrite Hks, Hactive.
  assert (filter (λ k0, k0 ∉ [k]%list) [k]%list = []) as ->.
  { rewrite filter_cons, decide_False, filter_nil; [done|].
    intros Hk. apply Hk. by left. }
  inversion Hexec as [|? ? order' price' ? ? Hfill' Hrest]; subst.
  inversion Hrest; subst.
  rewrite fill_of_with_tick, Hfill in Hfill'. by injection Hfill' as <- <-.
Qed.

Lemma with_tick_held (tick : TickData.t) (self : t) (pos0 : PaperPosition.t) :
  PaperPosition.volume (default pos0 (positions (with_tick tick self)
                                        !! TickData.vt_symbol tick))
  = PaperPosition.volume (default pos0 (positions self !! TickData.vt_symbol tick)).
Proof.
  unfold with_tick. cbv zeta. cbn [positions set_ticks].
  destruct (positions self !! TickData.vt_symbol tick) as [pos|] eqn:Hpos.
  - cbn [positions set_positions set_ticks]. rewrite lookup_insert_eq. cbn.
    unfold PaperPosition.calculate_pnl. by destruct (_ && _).
  - cbn [positions set_ticks]. by rewrite Hpos.
Qed.

(** The arithmetic of a buy that is reserved and then filled. *)
Lemma buy_fill_arith (balance0 frozen0 balance1 frozen1 balance2 frozen2 : Qc)
    (price volume rate slip : Qc) :
  balance1 = balance0 - price * volume * (1 + rate) →
  frozen1 = frozen0 + price * volume * (1 + rate) →
  balance2 + frozen2
  = balance1 + frozen1 + - (price * (1 + slip) * (volume - 0))
    - (price * (1 + slip) * (volume - 0) * rate + 0) →
  frozen2 = frozen1 - price * (volume - 0) * (1 + rate) →
  balance2 = balance0 - price * (1 + slip) * volume * (1 + rate) ∧ frozen2 = frozen0.
Proof.
  intros -> -> Hcash ->. split; [|ring].
  assert (balance2
          = balance2 + (frozen0 + price * volume * (1 + rate)
                        - price * (volume - 0) * (1 + rate))
            - (frozen0 + price * volume * (1 + rate)
               - price * (volume - 0) * (1 + rate))) as -> by ring.
  rewrite Hcash. ring.
Qed.

(** X15.  A limit buy submitted to an account without active orders and filled
    by the next tick of its symbol pays price × (1 + slippage) × volume ×
    (1 + commission_rate) out of the balance, which is more than the
    price × volume × (1 + commission_rate) that was reserved for it when
    price, volume and slippage are positive.  Frozen funds are back at
    their old value, no order is active, the commission total has grown
    by the commission on the fill price, and the position has grown by
    the order's volume. *)
Theorem filled_buy_costs (req : OrderRequest.t) (tick : TickData.t) (self : t) :
  active_orders self = [] →
  OrderRequest.direction req = LONG → OrderRequest.type req = LIMIT →
  (send_order req self).1 ≠ EmptyString →
  TickData.vt_symbol tick
  = make_vt_symbol (OrderRequest.symbol req) (OrderRequest.exchange req) →
  (0 < TickData.ask_price_1 tick ∧ TickData.ask_price_1 tick ≤ OrderRequest.price req)
  ∨ TickData.last_price tick ≤ OrderRequest.price req →
  let fill_price := OrderRequest.price req * (1 + slippage self) in
  let paid := fill_price * OrderRequest.volume req * (1 + commission_rate self) in
  let held :=
    match positions self !! TickData.vt_symbol tick with
    | Some pos => PaperPosition.volume pos
    | None => 0
    end in
  let self' := update_tick tick (send_order req self).2 in
  balance self' = balance self - paid
  ∧ frozen self' = frozen self
  ∧ active_orders self' = []
  ∧ total_commission self'
    = total_commission self + fill_price * OrderRequest.volume req * commission_rate self
  ∧ (∃ pos, positions self' !! TickData.vt_symbol tick = Some pos
            ∧ PaperPosition.volume pos = held + OrderRequest.volume req)
  ∧ trades_of (events_since self self')
    = [TradeData.mk (OrderRequest.symbol req) (OrderRequest.exchange req)
         (make_orderid (S (order_count self)))
         ("TRADE_" +:+ pretty (S (trade_count self))) LONG fill_price
         (OrderRequest.volume req) (gateway_name self)]%list.
Proof.
  intros Hnone Hlong Hlimit Hid Hsymbol Hfills fill_price paid held self'.
  subst self' paid fill_price held.
  apply send_order_validates in Hid.
  destruct (_validate_order req _ self) as [[] error_msg] eqn:Hvalid; [|done].
  clear Hid.
  destruct (send_order_accepted req self error_msg Hvalid)
    as (_ & (Hname & Hrate & _ & Hslip & Hpositions & Hcommission & _)
        & (Horders & Hactive) & (Hbalance & Hfrozen)
        & (e & Hevents)).
  clear Hvalid.
  rewrite decide_True in Hbalance, Hfrozen by done.
  rewrite Hnone, decide_False in Hactive by apply not_elem_of_nil.
  cbn [app] in Hactive.
  pose proof (quiet_trade_count _ _ (quiet_send_order req self)) as Htrades.
  unfold reservation in Hbalance, Hfrozen.
  revert Hname Hrate Hslip Hpositions Hcommission Horders Hactive Hbalance Hfrozen
    Hevents Htrades.
  generalize (send_order req self).2.
  intros s1 Hname Hrate Hslip Hpositions Hcommission Horders Hactive Hbalance Hfrozen
    Hevents Htrades.
  set (k := make_orderid (S (order_count self))) in *.
  set (order := OrderData.mk (OrderRequest.symbol req) (OrderRequest.exchange req) k
                  (OrderRequest.type req) (OrderRequest.direction req)
                  (OrderRequest.price req) (OrderRequest.volume req) 0 NOTTRADED
                  (gateway_name self)).
  assert (orders s1 !! k = Some order) as Horder by by rewrite Horders, lookup_insert_eq.
  assert (fill_of (TickData.vt_symbol tick) tick s1 k
          = Some (order, OrderRequest.price req * (1 + slippage self))) as Hfill.
  { rewrite (fill_of_limit tick s1 k order Horder); [|done|by symmetry].
    rewrite decide_True by done. by rewrite decide_True, Hslip. }
  rewrite (update_tick_single tick s1 k order _ Hactive Hfill).
  destruct (with_tick_fields tick s1)
    as ((Hname1 & Hrate1 & _ & _ & _ & _ & _) & (Hbalance1 & Hfrozen1 & Hcommission1
        & Hevents1) & _).
  pose proof (with_tick_held tick s1
                (PaperPosition.init (OrderRequest.symbol req) (OrderRequest.exchange req)))
    as Hheld.
  pose proof (quiet_trade_count _ _ (quiet_with_tick tick s1)) as Hcount1.
  pose proof (_execute_trade_fields k order
                (OrderRequest.price req * (1 + slippage self)) (with_tick tick s1))
    as Hfields. cbv zeta in Hfields.
  destruct Hfields as (_ & (_ & Hpositions2 & Hcommission2) & Hcash2 & Hfrozen2
                       & (e1 & e2 & e3 & e4 & Hevents2)).
  unfold fill_cost, reservation, position_after, trade_of, fill_volume
    in Hpositions2, Hcommission2, Hcash2, Hfrozen2, Hevents2.
  cbn [OrderData.symbol OrderData.exchange OrderData.orderid OrderData.direction
       OrderData.price OrderData.volume OrderData.traded order]
    in Hpositions2, Hcommission2, Hcash2, Hfrozen2, Hevents2.
  rewrite Hlong in Hpositions2, Hcommission2, Hcash2, Hfrozen2, Hevents2.
  rewrite (decide_True (P := LONG = LONG)) in Hcash2, Hfrozen2 by done.
  rewrite (decide_False (P := LONG = SHORT)) in Hcommission2, Hcash2 by done.
  rewrite <- Hsymbol in Hpositions2.
  rewrite Hrate1, Hrate in Hcommission2, Hcash2, Hfrozen2.
  rewrite Hname1, Hname, Hcount1, Htrades, Hevents1, Hevents in Hevents2.
  rewrite Hbalance1, Hfrozen1 in Hcash2. rewrite Hfrozen1 in Hfrozen2.
  rewrite Hcommission1, Hcommission in Hcommission2.
  revert Hpositions2 Hcommission2 Hcash2 Hfrozen2 Hevents2.
  generalize (_execute_trade k order (OrderRequest.price req * (1 + slippage self))
                (with_tick tick s1)).
  intros after Hpositions2 Hcommission2 Hcash2 Hfrozen2 Hevents2.
  unfold events_since.
  change (balance (on_tick tick (set_active_orders [] after))) with (balance after).
  change (frozen (on_tick tick (set_active_orders [] after))) with (frozen after).
  change (positions (on_tick tick (set_active_orders [] after))) with (positions after).
  change (total_commission (on_tick tick (set_active_orders [] after)))
    with (total_commission after).
  change (active_orders (on_tick tick (set_active_orders [] after))) with (@nil string).
  change (event_engine (on_tick tick (set_active_orders [] after)))
    with (event_engine after ++ [EventTick tick]).
  destruct (buy_fill_arith _ _ _ _ _ _ _ _ _ _ Hbalance Hfrozen Hcash2 Hfrozen2)
    as [Hb Hf].
  split; [exact Hb|]. split; [exact Hf|]. split; [done|]. split; [|split].
  - rewrite Hcommission2. ring.
  - eexists. rewrite Hpositions2, lookup_insert_eq. split; [done|].
    rewrite update_trade_long_volume, Hheld, Hpositions.
    destruct (positions self !! TickData.vt_symbol tick); cbn; ring.
  - rewrite Hevents2, <- !app_assoc, drop_app_length. cbn.
    do 2 f_equal. ring.
Qed.

Lemma filled_buy_costs_witness :
  let self :=
    connect (Setting.mk (Some (float 100000)) (Some (float 0.0003))
               (Some (float 0.001)) (Some (float 0.001)) None) (init "PAPER") in
  let req := OrderRequest.mk "000001" SZSE LONG LIMIT (float 1000) (float 10.50) in
  let tick := TickData.mk "000001" SZSE (float 10.48) (float 10.49) (float 10.48) "PAPER" in
  balance (update_tick tick (send_order req self).2)
  = float 100000 - float 10.50 * (1 + float 0.001) * float 1000 * (1 + float 0.0003).
Proof.
  intros self req tick.
  destruct (filled_buy_costs req tick self) as (Hbalance & _);
    [done | done | done | by vm_compute | done | right; by vm_compute | done].
Defined.

End Account.

(** ** [RiskManager]: sizing, order checks and the daily counters *)

Section Sizing.
Import RiskManager RiskChecks.

Lemma Qfloor_Qc (x : Qc) : Qc_of_Z (Qfloor x) ≤ x ∧ x < Qc_of_Z (Qfloor x + 1).
Proof. split; [apply Qfloor_le | apply Qlt_floor]. Qed.

Lemma Qc_of_Z_100 : Qc_of_Z 100 = float 100.
Proof. qc_compute. Qed.

(** [int] of a non-negative float is its floor. *)
Lemma py_int_floor (x : Qc) :
  0 ≤ x → (0 ≤ py_int x)%Z ∧ Qc_of_Z (py_int x) ≤ x ∧ x < Qc_of_Z (py_int x + 1).
Proof.
  intros Hx. unfold py_int. rewrite decide_True by done.
  destruct (Qfloor_Qc x) as [Hle Hlt]. split; [|done].
  apply Z.lt_succ_r, Z2Qc_inj_lt. rewrite <- Z.add_1_r.
  eapply Qcle_lt_trans; [exact Hx | exact Hlt].
Qed.

Lemma py_int_neg (x : Qc) : x < 0 → (py_int x ≤ 0)%Z.
Proof.
  intros Hx. unfold py_int. rewrite decide_False by (by apply Qclt_not_le).
  unfold Qceiling. apply Z.opp_nonpos_nonneg.
  change 0%Z with (Qfloor 0). apply Qfloor_resp_le.
  unfold Qclt in Hx. change (this 0) with 0%Q in Hx.
  revert Hx. generalize (this x). intros q Hq. lra.
Qed.

Lemma Qc_pos_ne_0 (v : Qc) : 0 < v → v ≠ 0.
Proof. intros Hv ->. by apply (irreflexivity Qclt 0). Qed.

Lemma ratio_lt_1 (v : Qc) : 0 < v → float 0.02 / v < 1 ↔ float 0.02 < v.
Proof.
  intros Hv. rewrite (Qcmult_lt_mono_pos_r _ _ v Hv).
  assert (float 0.02 / v * v = float 0.02) as ->.
  { field. by apply Qc_pos_ne_0. }
  by rewrite Qcmult_1_l.
Qed.

Lemma calculate_position_size_min (symbol : string) (price portfolio_value : Qc)
    (volatility : option Qc) (self : t) :
  price * float 100
  ≤ calculate_position_size symbol price portfolio_value volatility self.
Proof.
  unfold calculate_position_size. cbv zeta.
  case_decide; [done | by apply Qcnot_lt_le].
Qed.

Lemma calculate_position_size_cases (symbol : string) (price portfolio_value : Qc)
    (volatility : option Qc) (self : t) :
  let base := portfolio_value * RiskLimits.position_size (limits self) in
  let min_size := price * float 100 in
  let at_least (x : Qc) := if decide (x < min_size) then min_size else x in
  let size := calculate_position_size symbol price portfolio_value volatility self in
  min_size ≤ size
  ∧ match volatility with
    | Some v =>
        if decide (float 0.02 < v) then size = at_least (base * (float 0.02 / v))
        else size = at_least base
    | None => size = at_least base
    end
  ∧ (0 ≤ base → size ≤ at_least base).
Proof.
  intros base min_size at_least size.
  assert (∀ x, min_size ≤ at_least x) as Hmin.
  { intros x. unfold at_least. case_decide; [done | by apply Qcnot_lt_le]. }
  assert (∀ x y, x ≤ y → at_least x ≤ at_least y) as Hmono.
  { intros x y Hxy. unfold at_least.
    destruct (decide (x < min_size)), (decide (y < min_size)); try done.
    - by apply Qcnot_lt_le.
    - exfalso. apply n. by eapply Qcle_lt_trans. }
  assert (match volatility with
          | Some v =>
              if decide (float 0.02 < v) then size = at_least (base * (float 0.02 / v))
              else size = at_least base
          | None => size = at_least base
          end) as Hsize.
  { subst size. unfold calculate_position_size. cbv zeta. fold base min_size.
    destruct volatility as [v|]; [|done]. cbn [truthy_Qc default from_option id].
    destruct (decide (float 0.02 < v)) as [Hhigh|Hlow].
    - assert (0 < v) as Hv by (eapply Qclt_trans; [|exact Hhigh]; done).
      rewrite (bool_decide_eq_true_2 (v ≠ 0)) by by apply Qc_pos_ne_0.
      rewrite (bool_decide_eq_true_2 (0 < v)) by done. cbn [andb].
      by rewrite (decide_True (P := float 0.02 / v < 1)) by by apply ratio_lt_1.
    - destruct (decide (0 < v)) as [Hv|Hv].
      + rewrite (bool_decide_eq_true_2 (v ≠ 0)) by by apply Qc_pos_ne_0.
        rewrite (bool_decide_eq_true_2 (0 < v)) by done. cbn [andb].
        rewrite (decide_False (P := float 0.02 / v < 1)) by (by rewrite ratio_lt_1).
        by rewrite Qcmult_1_r.
      + rewrite (bool_decide_eq_false_2 (0 < v)) by done.
        by rewrite andb_false_r. }
  split; [|split; [exact Hsize|]].
  - destruct volatility as [v|]; [destruct (decide (float 0.02 < v))|];
      rewrite Hsize; apply Hmin.
  - intros Hbase. destruct volatility as [v|]; [|by rewrite Hsize].
    destruct (decide (float 0.02 < v)) as [Hhigh|Hlow]; [|by rewrite Hsize].
    rewrite Hsize. apply Hmono.
    assert (0 < v) as Hv by (eapply Qclt_trans; [|exact Hhigh]; done).
    rewrite <- (Qcmult_1_r base) at 2. apply Qcmult_le_mono_nonneg_l; [done|].
    by apply Qclt_le_weak, ratio_lt_1.
Qed.


(** X16.  The position size is never below the value of 100 shares.  Without a
    volatility, or with one that is zero, negative or at most 0.02, it is
    the larger of portfolio value × position_size and that minimum; a
    volatility above 0.02 scales portfolio value × position_size by
    0.02 / volatility first, so a volatility only ever reduces the size. *)
Theorem calculate_position_size_bounds (symbol : string) (price portfolio_value : Qc)
    (volatility : option Qc) (self : t) :
  let base := portfolio_value * RiskLimits.position_size (limits self) in
  let min_size := price * float 100 in
  let at_least (x : Qc) := if decide (x < min_size) then min_size else x in
  let size := calculate_position_size symbol price portfolio_value volatility self in
  min_size ≤ size
  ∧ match volatility with
    | Some v =>
        if decide (float 0.02 < v) then size = at_least (base * (float 0.02 / v))
        else size = at_least base
    | None => size = at_least base
    end
  ∧ (0 ≤ base → size ≤ at_least base).
Proof. apply calculate_position_size_cases. Qed.

Lemma calculate_position_size_bounds_witness :
  calculate_position_size "000001.SZSE" (float 10) (float 100000) (Some (float 0.04))
    (init None)
  ≤ float 3000.
Proof.
  destruct (calculate_position_size_bounds "000001.SZSE" (float 10) (float 100000)
              (Some (float 0.04)) (init None)) as (_ & _ & Hle).
  eapply Qcle_trans; [apply Hle; by vm_compute | by vm_compute].
Defined.

Lemma calculate_volume_positive (position_value price : Qc) (lot_size : Z) (self : t) :
  0 < price → (0 < lot_size)%Z → 0 ≤ position_value →
  ∃ n : Z,
    calculate_volume position_value price lot_size self = Return (n * lot_size)%Z
    ∧ (0 ≤ n)%Z
    ∧ Qc_of_Z (n * lot_size) * price ≤ position_value
    ∧ position_value < Qc_of_Z ((n + 1) * lot_size) * price.
Proof.
  intros Hprice Hlot Hvalue. unfold calculate_volume, py_div.
  rewrite decide_False by (by apply Qclt_not_le).
  rewrite decide_False by (by apply Qc_pos_ne_0). cbn [mbind PyResult_bind].
  assert (0 < Qc_of_Z lot_size) as Hlot'
    by (rewrite <- Z2Qc_inj_0; by apply (proj1 (Z2Qc_inj_lt 0 lot_size))).
  rewrite decide_False by (by apply Qc_pos_ne_0). cbn [mbind PyResult_bind].
  set (lots := position_value / price / Qc_of_Z lot_size).
  assert (lots * (Qc_of_Z lot_size * price) = position_value) as Hlots.
  { subst lots. field. split; by apply Qc_pos_ne_0. }
  assert (0 < Qc_of_Z lot_size * price) as Hpos by by apply Qcmult_pos_pos.
  assert (0 ≤ lots) as Hnonneg.
  { apply (Qcmult_le_mono_pos_r _ _ _ Hpos). by rewrite Qcmult_0_l, Hlots. }
  destruct (py_int_floor lots Hnonneg) as (Hn & Hle & Hlt).
  exists (py_int lots). split; [|split; [done|split]].
  - f_equal. case_decide; [done|]. nia.
  - rewrite Z2Qc_inj_mul, <- Qcmult_assoc, <- Hlots.
    by apply Qcmult_le_mono_pos_r.
  - rewrite Z2Qc_inj_mul, <- Qcmult_assoc, <- Hlots.
    by apply Qcmult_lt_mono_pos_r.
Qed.





(** *** [check_order] *)

(** X19.  The decision of [check_order].  The reason is empty exactly when the
    order is allowed.  An order whose direction is not the string "buy"
    is allowed exactly when the daily loss and the drawdown are within
    their limits, whatever its volume, price and symbol.  A buy must,
    besides, be for a symbol that has an entry in [current_positions]
    (also an entry of 0) or find fewer non-zero positions than
    [max_positions], and be worth at most 1.5 × portfolio value ×
    position_size. *)
Theorem check_order_allows (symbol direction : string) (volume : Z) (price : Qc)
    (current_positions : gmap string Qc) (portfolio_value : Qc) (self : t) :
  let result :=
    check_order symbol direction volume price current_positions portfolio_value self in
  let within_limits :=
    ¬ daily_pnl self < - RiskLimits.daily_loss_limit (limits self) * portfolio_value
    ∧ ¬ RiskLimits.max_drawdown (limits self) < current_drawdown self in
  let count :=
    Z.of_nat (length (filter (λ v, v ≠ 0) (map_to_list current_positions).*2)) in
  (result.1 = true ↔ result.2 = EmptyString)
  ∧ (direction ≠ "buy" → result.1 = true ↔ within_limits)
  ∧ (direction = "buy" →
       result.1 = true
       ↔ within_limits
         ∧ (is_Some (current_positions !! symbol)
            ∨ (count < RiskLimits.max_positions (limits self))%Z)
         ∧ Qc_of_Z volume * price
           ≤ portfolio_value * RiskLimits.position_size (limits self) * float 1.5).
Proof.
  intros result within_limits count. subst result within_limits count.
  unfold check_order. cbv zeta.
  destruct (decide (daily_pnl self < _)) as [Hloss|Hloss];
    [cbn; split; [done|]; split; intros; split; try done; tauto|].
  destruct (decide (RiskLimits.max_drawdown (limits self) < _)) as [Hdd|Hdd];
    [cbn; split; [done|]; split; intros; split; try done; tauto|].
  destruct (decide (direction = "buy")) as [Hbuy|Hbuy];
    [|cbn; split; [done|]; split; intros; split; try done; tauto].
  destruct (current_positions !! symbol) as [v|] eqn:Hpos.
  - rewrite (bool_decide_eq_false_2 (Some v = None)) by done. cbn [andb].
    destruct (decide (_ < Qc_of_Z volume * price)) as [Hlarge|Hlarge]; cbn.
    + split; [done|]. split; [done|]. intros _. split; [done|].
      intros (_ & _ & Hle). by apply Qcle_not_lt in Hle.
    + split; [done|]. split; [done|]. intros _. split; [|done]. intros _.
      split; [done|]. split; [by left; eexists | by apply Qcnot_lt_le].
  - rewrite (bool_decide_eq_true_2 (None = None)) by done. cbn [andb].
    destruct (bool_decide _) eqn:Hfull.
    + apply bool_decide_eq_true_1 in Hfull. cbn.
      split; [done|]. split; [done|]. intros _. split; [done|].
      intros (_ & [[? ?]|Hfree] & _); [done | lia].
    + apply bool_decide_eq_false_1 in Hfull.
      destruct (decide (_ < Qc_of_Z volume * price)) as [Hlarge|Hlarge]; cbn.
      * split; [done|]. split; [done|]. intros _. split; [done|].
        intros (_ & _ & Hle). by apply Qcle_not_lt in Hle.
      * split; [done|]. split; [done|]. intros _. split; [|done]. intros _.
        split; [done|]. split; [right; lia | by apply Qcnot_lt_le].
Qed.

Lemma check_order_allows_witness :
  (check_order "000001.SZSE" "sell" 1000000 (float 10) ∅ (float 1000) (init None)).1
  = true.
Proof.
  apply (proj1 (proj2 (check_order_allows "000001.SZSE" "sell" 1000000 (float 10) ∅
                         (float 1000) (init None)))); [done|].
  split; by vm_compute.
Defined.

(** X20.  [check_order] and [apply_filters] share the drawdown gate.  Once
    [apply_filters] has returned the empty frame for a non-empty input
    because the drawdown exceeds [max_drawdown], [check_order] rejects
    every order, buy or sell, until the tracking is updated again; and
    when [apply_filters] has let signals through, [check_order] does not
    reject for the drawdown. *)
Theorem check_order_follows_filters (df : DataFrame) (current_positions : gmap string Qc)
    (portfolio_value : Qc) (self : t) :
  df ≠ [] →
  let filtered := (apply_filters (Some df) current_positions portfolio_value self).1 in
  let self' := (apply_filters (Some df) current_positions portfolio_value self).2 in
  (_is_trading_allowed self' = false →
     filtered = Some []
     ∧ ∀ symbol direction volume price positions' value',
         (check_order symbol direction volume price positions' value' self').1 = false)
  ∧ (_is_trading_allowed self' = true →
       ∀ symbol direction volume price positions' value',
         (check_order symbol direction volume price positions' value' self').2
         ≠ "Maximum drawdown exceeded").
Proof.
  intros Hne filtered self'. subst filtered self'.
  rewrite (apply_filters_nonempty df current_positions portfolio_value self Hne).
  cbv zeta. cbn [fst snd]. unfold _is_trading_allowed.
  rewrite _update_tracking_limits.
  set (self' := _update_tracking portfolio_value self).
  assert (limits self' = limits self) as Hlimits by apply _update_tracking_limits.
  destruct (decide (RiskLimits.max_drawdown (limits self) < current_drawdown self'))
    as [Hdd|Hdd]; split; try done; intros _.
  - split; [done|]. intros symbol direction volume price positions' value'.
    unfold check_order. cbv zeta. rewrite Hlimits.
    destruct (decide (daily_pnl self' < _)); [done|].
    by rewrite decide_True.
  - intros symbol direction volume price positions' value'.
    unfold check_order. cbv zeta. rewrite Hlimits.
    destruct (decide (daily_pnl self' < _)); [done|].
    rewrite (decide_False (P := _ < current_drawdown self')) by done.
    repeat (case_decide || destruct (_ && _)); done.
Qed.

Lemma check_order_follows_filters_witness :
  let self := RiskManager.mk (RiskLimits.mk 30 (float 0.03) (float 0.15) (float 0.05)
                                (float 0.3)) (float 120000) 0 0 0 in
  let self' :=
    (apply_filters (Some [Signal.mk "000001.SZSE" 1]%list) ∅ (float 95000) self).2 in
  (check_order "000001.SZSE" "sell" 100 (float 10) ∅ (float 95000) self').1 = false.
Proof.
  intros self self'.
  apply (proj1 (check_order_follows_filters [Signal.mk "000001.SZSE" 1]%list ∅
                  (float 95000) self ltac:(done))).
  by vm_compute.
Defined.



(** *** The daily counters and the drawdown *)

Lemma risk_step_limits (self : t) (c : RiskCall) : limits (risk_step self c) = limits self.
Proof.
  destruct c as [signals positions value|value|value]; cbn [risk_step].
  - unfold apply_filters. destruct signals as [df|]; [|done].
    case_decide; [done|].
    by repeat (case_decide || destruct (negb _)); cbn [snd];
      rewrite ?_update_tracking_limits.
  - unfold update_pnl. by case_decide.
  - done.
Qed.

Lemma risk_step_daily (self : t) (c : RiskCall) :
  match c with ResetDaily _ => False | _ => True end →
  daily_start_value self = 0 → daily_pnl self = 0 →
  daily_start_value (risk_step self c) = 0 ∧ daily_pnl (risk_step self c) = 0.
Proof.
  intros Hc Hstart Hpnl.
  destruct c as [signals positions value|value|value]; cbn [risk_step]; [| |done].
  - unfold apply_filters. destruct signals as [df|]; [|done].
    case_decide; [done|].
    assert (daily_start_value (_update_tracking value self) = 0
            ∧ daily_pnl (_update_tracking value self) = 0) as Htracked.
    { unfold _update_tracking. by repeat case_decide. }
    by repeat (case_decide || destruct (negb _)).
  - unfold update_pnl. rewrite Hstart. by rewrite decide_False.
Qed.

(** X22.  The daily loss limit only works once [reset_daily] has been called
    with a positive portfolio value.  On a new risk manager,
    [update_pnl] and [apply_filters] leave the daily P&L at 0, so
    [check_order] never reports the daily loss limit (for a non-negative
    limit and portfolio value).  After [reset_daily] with a positive
    start value, [update_pnl] sets the daily P&L to the portfolio value
    minus the start value; after one with a start value of 0 or less it
    stays 0. *)
Theorem daily_loss_needs_reset_daily :
  (∀ (risk_config : option RiskConfig.t) (calls : list RiskCall),
     Forall (λ c, match c with ResetDaily _ => False | _ => True end) calls →
     let self := risk_run calls (init risk_config) in
     daily_pnl self = 0
     ∧ (∀ symbol direction volume price positions portfolio_value,
          0 ≤ RiskLimits.daily_loss_limit (limits self) * portfolio_value →
          (check_order symbol direction volume price positions portfolio_value self).2
          ≠ "Daily loss limit exceeded"))
  ∧ (∀ (start portfolio_value : Qc) (self : t),
       daily_pnl (update_pnl portfolio_value (reset_daily start self))
       = if decide (0 < start) then portfolio_value - start else 0).
Proof.
  split.
  - intros risk_config calls Hcalls self.
    assert (daily_start_value self = 0 ∧ daily_pnl self = 0) as [Hstart Hpnl].
    { subst self. generalize (init risk_config) (eq_refl : daily_start_value (init risk_config) = 0)
        (eq_refl : daily_pnl (init risk_config) = 0).
      induction Hcalls as [|c calls Hc Hcalls IH]; intros self Hstart Hpnl; [done|].
      cbn [risk_run foldl].
      destruct (risk_step_daily self c Hc Hstart Hpnl) as [Hstart' Hpnl'].
      by apply IH. }
    split; [done|].
    intros symbol direction volume price positions portfolio_value Hlimit.
    unfold check_order. cbv zeta. rewrite Hpnl.
    rewrite decide_False.
    2:{ apply Qcle_not_lt. clear - Hlimit. qc_lra. }
    repeat (case_decide || destruct (_ && _)); done.
  - intros start portfolio_value self. unfold update_pnl, reset_daily. cbn.
    by case_decide.
Qed.

Lemma daily_loss_needs_reset_daily_witness :
  daily_pnl (risk_run [UpdatePnl (float 90000);
                       ApplyFilters (Some [Signal.mk "000001.SZSE" 1]%list) ∅ (float 90000);
                       UpdatePnl (float 50000)] (init None)) = 0.
Proof.
  apply (proj1 daily_loss_needs_reset_daily None). repeat constructor.
Defined.

Lemma Qcdiv_range (x y : Qc) : 0 < y → 0 ≤ x → 0 ≤ x / y ∧ (x ≤ y → x / y ≤ 1).
Proof.
  intros Hy Hx. split.
  - apply Qcmult_nonneg_nonneg; [done|]. by apply Qclt_le_weak, Qcinv_pos.
  - intros Hle. apply (Qcmult_le_mono_pos_r _ _ y Hy).
    assert (x / y * y = x) as ->; [field; by apply Qc_pos_ne_0|].
    by rewrite Qcmult_1_l.
Qed.

Lemma _update_tracking_range (portfolio_value : Qc) (self : t) :
  let self' := _update_tracking portfolio_value self in
  0 ≤ current_drawdown self'
  ∧ (0 ≤ portfolio_value → current_drawdown self' ≤ 1)
  ∧ (peak_portfolio_value self ≤ portfolio_value → current_drawdown self' = 0).
Proof.
  cbv zeta. rewrite _update_tracking_drawdown, _update_tracking_peak. cbv zeta.
  set (peak := if decide (peak_portfolio_value self < portfolio_value)
               then portfolio_value else peak_portfolio_value self).
  assert (portfolio_value ≤ peak) as Hpeak.
  { subst peak. case_decide; [done | by apply Qcnot_lt_le]. }
  destruct (decide (0 < peak)) as [Hpos|Hpos]; [|done].
  assert (0 ≤ peak - portfolio_value) as Hdiff by (clear - Hpeak; qc_lra).
  destruct (Qcdiv_range _ _ Hpos Hdiff) as [Hnonneg Hle].
  split; [done|]. split.
  - intros Hvalue. apply Hle. clear - Hvalue. qc_lra.
  - intros Hhigh.
    assert (peak = portfolio_value) as ->.
    { subst peak. case_decide; [done|]. by apply Qcle_antisym. }
    unfold Qcminus. rewrite Qcplus_opp_r. unfold Qcdiv. apply Qcmult_0_l.
Qed.

(** X23.  The drawdown is never negative and, while the portfolio value is not
    negative, never above 1; a portfolio value at or above the old peak
    resets it to zero.  So a [max_drawdown] of 1 or more never blocks
    trading on a non-negative portfolio value, and on a risk manager run
    from [__init__] the drawdown stays non-negative whatever is called. *)
Theorem drawdown_range :
  (∀ (portfolio_value : Qc) (self : t),
     let self' := _update_tracking portfolio_value self in
     0 ≤ current_drawdown self'
     ∧ (0 ≤ portfolio_value → current_drawdown self' ≤ 1)
     ∧ (peak_portfolio_value self ≤ portfolio_value → current_drawdown self' = 0)
     ∧ (0 ≤ portfolio_value → 1 ≤ RiskLimits.max_drawdown (limits self) →
          _is_trading_allowed self' = true))
  ∧ (∀ (risk_config : option RiskConfig.t) (calls : list RiskCall),
       0 ≤ current_drawdown (risk_run calls (init risk_config))).
Proof.
  split.
  - intros portfolio_value self self'.
    destruct (_update_tracking_range portfolio_value self) as (Hnonneg & Hle & Hzero).
    fold self' in Hnonneg, Hle, Hzero.
    split; [done|]. split; [done|]. split; [done|].
    intros Hvalue Hlimit. unfold _is_trading_allowed. subst self'.
    rewrite _update_tracking_limits. rewrite decide_False; [done|].
    apply Qcle_not_lt. eapply Qcle_trans; [by apply Hle | done].
  - intros risk_config calls.
    generalize (init risk_config) (Qcle_refl 0 : 0 ≤ current_drawdown (init risk_config)).
    induction calls as [|c calls IH]; intros self Hself; [done|].
    cbn [risk_run foldl]. apply IH.
    destruct c as [signals positions value|value|value]; cbn [risk_step].
    + unfold apply_filters. destruct signals as [df|]; [|done].
      case_decide; [done|].
      pose proof (proj1 (_update_tracking_range value self)).
      by repeat (case_decide || destruct (negb _)).
    + unfold update_pnl. by case_decide.
    + done.
Qed.

Lemma drawdown_range_witness :
  current_drawdown
    (_update_tracking (float 95000)
       (RiskManager.mk (RiskLimits.mk 30 (float 0.03) (float 0.15) (float 0.05) (float 0.3))
          (float 120000) 0 0 0))
  ≤ 1.
Proof.
  apply (proj1 drawdown_range (float 95000)). by vm_compute.
Defined.

End Sizing.

(** ** [RuleEngine]: signals, entry logic and operators *)

Section Signals.
Import RuleEngine.

Variable float_of_str : string → option Qc.

Lemma _apply_rule_Return {IndicatorFrame : Type} (df : DataFrame)
    (rule : RuleCondition.t) (indicator_data : option (gmap string IndicatorFrame)) :
  _apply_rule df rule indicator_data = Return df.
Proof.
  unfold _apply_rule, py_getitem. destruct indicator_data as [data|]; [|done].
  destruct (bool_decide (data ≠ ∅)); [|done]. cbn [andb].
  case_bool_decide as Hin; [|done]. by destruct Hin as [frame ->].
Qed.

(** X24.  [evaluate] applies no entry rule.  Whatever the entry rules and the
    indicator data are, it returns the signals it was given, unchanged,
    and it never raises. *)
Theorem evaluate_returns_signals {IndicatorFrame : Type} (signals_df : option DataFrame)
    (indicator_data : option (gmap string IndicatorFrame)) (self : t) :
  evaluate signals_df indicator_data self = Return signals_df.
Proof.
  unfold evaluate. destruct signals_df as [df|]; [|done].
  case_decide; [done|].
  assert (∀ rules result_df,
            apply_rules result_df rules indicator_data = Return result_df) as ->; [|done].
  induction rules as [|rule rules IH]; intros result_df; [done|].
  cbn [apply_rules]. rewrite _apply_rule_Return. cbn. apply IH.
Qed.

(** *** How entry conditions are combined *)

Lemma combine_conditions_and (final_result : bool) (logic_operators : list string)
    (conditions_met : list bool) :
  Forall (λ op, op = "and") logic_operators →
  (length conditions_met ≤ length logic_operators)%nat →
  combine_conditions final_result logic_operators conditions_met
  = final_result && forallb id conditions_met.
Proof.
  intros Hops. revert final_result conditions_met.
  induction Hops as [|op ops Hop Hops IH]; intros final_result conditions_met Hlen.
  - destruct conditions_met; [|cbn in Hlen; lia]. cbn. by rewrite andb_true_r.
  - destruct conditions_met as [|c rest]; [cbn; by rewrite andb_true_r|].
    cbn [combine_conditions forallb]. rewrite decide_True by done.
    rewrite IH by (cbn in Hlen; lia). unfold id at 2. by rewrite andb_assoc.
Qed.

Lemma combine_conditions_or (final_result : bool) (logic_operators : list string)
    (conditions_met : list bool) :
  Forall (λ op, op ≠ "and") logic_operators →
  (length conditions_met ≤ length logic_operators)%nat →
  combine_conditions final_result logic_operators conditions_met
  = final_result || existsb id conditions_met.
Proof.
  intros Hops. revert final_result conditions_met.
  induction Hops as [|op ops Hop Hops IH]; intros final_result conditions_met Hlen.
  - destruct conditions_met; [|cbn in Hlen; lia]. cbn. by rewrite orb_false_r.
  - destruct conditions_met as [|c rest]; [cbn; by rewrite orb_false_r|].
    cbn [combine_conditions existsb]. rewrite decide_False by done.
    rewrite IH by (cbn in Hlen; lia). unfold id at 2. by rewrite orb_assoc.
Qed.

Lemma py_sum_bounds (conditions_met : list bool) :
  (0 ≤ py_sum conditions_met ≤ Z.of_nat (length conditions_met))%Z
  ∧ (py_sum conditions_met = Z.of_nat (length conditions_met)
     ↔ forallb id conditions_met = true).
Proof.
  unfold py_sum. induction conditions_met as [|c rest [IHle IHeq]]; [done|].
  cbn [foldr length forallb]. destruct c; unfold id at 1; cbn [andb].
  - split; [lia|]. rewrite <- IHeq. lia.
  - split; [lia|]. split; [lia | done].
Qed.

(** X25.  Entry conditions are combined from left to right, each rule's logic
    joining it to the next one, with no precedence of "and" over "or".
    When every rule says "and" the entry signal is the conjunction of
    the conditions, when none does it is their disjunction, and three
    rules "or", "and" give (first or second) and third.  The strength is
    between 0 and 1, and it is 1 exactly when every condition holds. *)
Theorem check_entry_signal_logic (symbol : string)
    (bar_data indicator_values : gmap string Qc) (self : t) :
  entry_rules self ≠ [] →
  let met := λ rule, condition_met float_of_str rule indicator_values in
  ∃ (should_enter : bool) (strength : Qc),
    check_entry_signal float_of_str symbol bar_data indicator_values self
    = Return (should_enter, strength)
    ∧ (Forall (λ rule, RuleCondition.logic rule = "and") (entry_rules self) →
         should_enter = forallb met (entry_rules self))
    ∧ (Forall (λ rule, RuleCondition.logic rule ≠ "and") (entry_rules self) →
         should_enter = existsb met (entry_rules self))
    ∧ (∀ r1 r2 r3, entry_rules self = [r1; r2; r3]%list →
         RuleCondition.logic r1 ≠ "and" → RuleCondition.logic r2 = "and" →
         should_enter = (met r1 || met r2) && met r3)
    ∧ 0 ≤ strength ∧ strength ≤ 1
    ∧ (strength = 1 ↔ forallb met (entry_rules self) = true).
Proof.
  intros Hrules met. unfold check_entry_signal.
  rewrite decide_False by done.
  rewrite (mapM_Return _ met) by (intros; apply _evaluate_condition_met).
  cbn [mbind PyResult_bind].
  rewrite decide_False by (by destruct (entry_rules self)).
  unfold py_div.
  assert (0 < Qc_of_Z (Z.of_nat (length (met <$> entry_rules self)))) as Hlen.
  { rewrite <- Z2Qc_inj_0. apply (proj1 (Z2Qc_inj_lt _ _)).
    rewrite length_fmap. destruct (entry_rules self); [done | cbn; lia]. }
  rewrite decide_False by (by apply Qc_pos_ne_0). cbn [mbind PyResult_bind].
  eexists _, _. split; [done|].
  destruct (py_sum_bounds (met <$> entry_rules self)) as [[Hlow Hhigh] Hall].
  assert (∀ l, forallb id (met <$> l) = forallb met l) as Hforall.
  { induction l as [|r l IH]; [done|]. cbn. by rewrite IH. }
  assert (∀ l, existsb id (met <$> l) = existsb met l) as Hexists.
  { induction l as [|r l IH]; [done|]. cbn. by rewrite IH. }
  split; [|split; [|split; [|split; [|split]]]].
  - intros Hand. destruct (entry_rules self) as [|r rules]; [done|].
    cbn [fmap list_fmap]. rewrite combine_conditions_and.
    + by rewrite Hforall.
    + apply Forall_cons in Hand as [Hr Hand].
      constructor; [done | by apply Forall_fmap].
    + cbn. rewrite !length_fmap. lia.
  - intros Hor. destruct (entry_rules self) as [|r rules]; [done|].
    cbn [fmap list_fmap]. rewrite combine_conditions_or.
    + by rewrite Hexists.
    + apply Forall_cons in Hor as [Hr Hor].
      constructor; [done | by apply Forall_fmap].
    + cbn. rewrite !length_fmap. lia.
  - intros r1 r2 r3 -> Hor Hand. cbn [fmap list_fmap combine_conditions].
    rewrite (decide_True (P := RuleCondition.logic r2 = "and")) by done.
    by rewrite (decide_False (P := RuleCondition.logic r1 = "and")) by done.
  - apply Qcdiv_range; [done|]. rewrite <- Z2Qc_inj_0.
    by apply (proj1 (Z2Qc_inj_le _ _)).
  - apply Qcdiv_range; [done| |by apply (proj1 (Z2Qc_inj_le _ _))].
    rewrite <- Z2Qc_inj_0. by apply (proj1 (Z2Qc_inj_le _ _)).
  - rewrite <- Hforall, <- Hall. split.
    + intros Hone. apply Z2Qc_inj.
      apply (f_equal (λ q, q * Qc_of_Z (Z.of_nat (length (met <$> entry_rules self)))))
        in Hone.
      rewrite Qcmult_1_l in Hone. rewrite <- Hone. field. by apply Qc_pos_ne_0.
    + intros ->. field. by apply Qc_pos_ne_0.
Qed.

(** *** The operators of a condition *)

Lemma _evaluate_condition_compare (rule : RuleCondition.t)
    (indicator_values : gmap string Qc) (x y : Qc) :
  indicator_values !! RuleCondition.indicator rule = Some x →
  comparand float_of_str rule indicator_values = Some y →
  _evaluate_condition float_of_str rule indicator_values
  = let op := RuleCondition.operator rule in
    if bool_decide (op = ">") || bool_decide (op = "gt")
    then Return (bool_decide (y < x))
    else if bool_decide (op = "<") || bool_decide (op = "lt")
    then Return (bool_decide (x < y))
    else if bool_decide (op = ">=") || bool_decide (op = "ge")
    then Return (bool_decide (y ≤ x))
    else if bool_decide (op = "<=") || bool_decide (op = "le")
    then Return (bool_decide (x ≤ y))
    else if bool_decide (op = "==") || bool_decide (op = "eq")
    then Return (bool_decide (Qcabs (x - y) < float 0.0001))
    else if bool_decide (op = "!=") || bool_decide (op = "ne")
    then Return (bool_decide (float 0.0001 ≤ Qcabs (x - y)))
    else Return false.
Proof.
  intros Hx Hy. unfold _evaluate_condition, py_getitem, comparand in *.
  rewrite Hx. rewrite decide_False by done. cbn [mbind PyResult_bind].
  assert (∀ v, (v = VNum y ∨ ∃ s, v = VStr s ∧ float_of_str s = Some y) →
               try_except (Some <$> py_float float_of_str v) [ValueError; TypeError]
                 (Return None) = Return (Some y)) as Hfloat.
  { intros v [->|(s & -> & Hs)]; cbn; [done|]. by rewrite Hs. }
  destruct (RuleCondition.value rule) as [y'|s|]; [| |done].
  - injection Hy as ->. cbn [mbind PyResult_bind]. rewrite Hfloat by by left.
    cbn [mbind PyResult_bind]. by repeat destruct (_ || _).
  - destruct (indicator_values !! s) as [y'|] eqn:Hs.
    + injection Hy as ->. rewrite decide_True by done.
      cbn [fmap PyResult_fmap mbind PyResult_bind].
      rewrite Hfloat by by left.
      cbn [mbind PyResult_bind]. by repeat destruct (_ || _).
    + rewrite decide_False by (by intros [? ?]). cbn [mbind PyResult_bind].
      rewrite Hfloat by (right; by exists s).
      cbn [mbind PyResult_bind]. by repeat destruct (_ || _).
Qed.


(** *** Exit thresholds in prices *)

Lemma pnl_take_profit (entry_price current_price take_profit : Qc) :
  0 < entry_price →
  take_profit ≤ (current_price - entry_price) / entry_price
  ↔ entry_price * (1 + take_profit) ≤ current_price.
Proof.
  intros Hentry. rewrite (Qcmult_le_mono_pos_r _ _ entry_price Hentry).
  assert ((current_price - entry_price) / entry_price * entry_price
          = current_price - entry_price) as ->.
  { field. by apply Qc_pos_ne_0. }
  split; intros Hle; clear - Hle; qc_lra.
Qed.

Lemma pnl_stop_loss (entry_price current_price stop_loss : Qc) :
  0 < entry_price →
  (current_price - entry_price) / entry_price ≤ - stop_loss
  ↔ current_price ≤ entry_price * (1 - stop_loss).
Proof.
  intros Hentry. rewrite (Qcmult_le_mono_pos_r _ _ entry_price Hentry).
  assert ((current_price - entry_price) / entry_price * entry_price
          = current_price - entry_price) as ->.
  { field. by apply Qc_pos_ne_0. }
  split; intros Hle; clear - Hle; qc_lra.
Qed.

Lemma spec_first_satisfied_conditions (rules : list RuleCondition.t)
    (met : RuleCondition.t → bool) :
  let result :=
    spec_first_satisfied
      ((λ rule, (met rule, Condition (RuleCondition.indicator rule))) <$> rules) in
  result = (false, NoReason) ∨ ∃ indicator, result = (true, Condition indicator).
Proof.
  cbv zeta. induction rules as [|rule rules IH]; [by left|].
  rewrite fmap_cons, spec_first_satisfied_cons.
  destruct (met rule); [right; by eexists | exact IH].
Qed.

Lemma check_exit_signal_stages (self : t) (symbol : string)
    (entry_price current_price : Qc) (holding_days : Z)
    (indicator_values : option (gmap string Qc)) :
  0 < entry_price →
  let exit_config := default RulesConfig.empty (StrategyConfig.exit_rules (config self)) in
  let pnl_pct := (current_price - entry_price) / entry_price in
  check_exit_signal float_of_str symbol entry_price current_price holding_days
    indicator_values self
  = if match RulesConfig.take_profit exit_config with
       | Some take_profit => bool_decide (take_profit ≠ 0 ∧ take_profit ≤ pnl_pct)
       | None => false
       end
    then Return (true, TakeProfit pnl_pct)
    else if match RulesConfig.stop_loss exit_config with
            | Some stop_loss => bool_decide (stop_loss ≠ 0 ∧ pnl_pct ≤ - stop_loss)
            | None => false
            end
    then Return (true, StopLoss pnl_pct)
    else if match RulesConfig.holding_days exit_config with
            | Some days => bool_decide (days ≠ 0 ∧ days ≤ holding_days)%Z
            | None => false
            end
    then Return (true, MaxHoldingDays holding_days)
    else Return (spec_first_satisfied
           ((λ rule,
               (match indicator_values with
                | Some values =>
                    bool_decide (values ≠ ∅) && condition_met float_of_str rule values
                | None => false
                end, Condition (RuleCondition.indicator rule))) <$> exit_rules self)).
Proof.
  intros Hentry exit_config pnl_pct. unfold check_exit_signal. cbv zeta.
  fold exit_config.
  rewrite take_profit_stage, stop_loss_stage, holding_days_stage, conditions_stage
    by done.
  done.
Qed.

Lemma check_exit_signal_no_entry (self : t) (symbol : string)
    (entry_price current_price : Qc) (holding_days : Z)
    (indicator_values : option (gmap string Qc)) :
  entry_price ≤ 0 →
  let exit_config := default RulesConfig.empty (StrategyConfig.exit_rules (config self)) in
  check_exit_signal float_of_str symbol entry_price current_price holding_days
    indicator_values self
  = if match RulesConfig.holding_days exit_config with
       | Some days => bool_decide (days ≠ 0 ∧ days ≤ holding_days)%Z
       | None => false
       end
    then Return (true, MaxHoldingDays holding_days)
    else Return (spec_first_satisfied
           ((λ rule,
               (match indicator_values with
                | Some values =>
                    bool_decide (values ≠ ∅) && condition_met float_of_str rule values
                | None => false
                end, Condition (RuleCondition.indicator rule))) <$> exit_rules self)).
Proof.
  intros Hentry exit_config. unfold check_exit_signal. cbv zeta. fold exit_config.
  rewrite (bool_decide_eq_false_2 (0 < entry_price)) by (by apply Qcle_not_lt).
  rewrite !andb_false_r. unfold or_continue at 1 2. cbn [mbind PyResult_bind].
  by rewrite holding_days_stage, conditions_stage.
Qed.


(** *** The runner's own exit check *)

Lemma spec_first_satisfied_none (rules : list RuleCondition.t) :
  spec_first_satisfied
    ((λ rule, (false, Condition (RuleCondition.indicator rule))) <$> rules)
  = (false, NoReason).
Proof.
  induction rules as [|rule rules IH]; [done|].
  rewrite fmap_cons, spec_first_satisfied_cons. exact IH.
Qed.


End Signals.

Lemma check_entry_signal_logic_witness :
  let self :=
    RuleEngine.mk (StrategyConfig.mk None None)
      [RuleCondition.mk "rsi" "<" (VNum (float 30)) "or";
       RuleCondition.mk "macd" ">" (VNum 0) "and";
       RuleCondition.mk "volume_ratio" ">" (VNum (float 2)) "and"] [] in
  ∃ strength,
    RuleEngine.check_entry_signal (λ _, None) "000001.SZSE" ∅
      (<["rsi" := float 25]> (<["macd" := float 0.5]> (<["volume_ratio" := float 1]> ∅)))
      self
    = Return (false, strength).
Proof.
  intros self.
  destruct (check_entry_signal_logic (λ _, None) "000001.SZSE" ∅
              (<["rsi" := float 25]> (<["macd" := float 0.5]>
                 (<["volume_ratio" := float 1]> ∅))) self)
    as (should_enter & strength & -> & _ & _ & Hmixed & _); [done|].
  exists strength. by rewrite (Hmixed _ _ _ eq_refl) by done.
Defined.




(** ** The replay runner against the paper account *)

Section Runner.
Import PaperAccount PaperTradingRunner.



(** X30.  The ticks the runner makes from bars quote the close × 0.999 as bid
    and the close × 1.001 as ask.  On such a tick, for a positive close,
    the quotes never decide a limit order: a limit buy fills exactly
    when the close is at most its price, a limit sell exactly when the
    close is at least its price, both at the order's price; a market buy
    fills at close × 1.001 and a market sell at close × 0.999, before
    slippage. *)
Theorem bar_tick_fill_rule (bar : BarData.t) (order : OrderData.t) :
  0 < BarData.close_price bar →
  let tick := _bar_to_tick bar in
  let close := BarData.close_price bar in
  TickData.vt_symbol tick = make_vt_symbol (BarData.symbol bar) (BarData.exchange bar)
  ∧ (OrderData.type order = LIMIT → OrderData.direction order = LONG →
       can_fill_at order tick
       = if decide (close ≤ OrderData.price order) then (true, OrderData.price order)
         else (false, 0))
  ∧ (OrderData.type order = LIMIT → OrderData.direction order ≠ LONG →
       can_fill_at order tick
       = if decide (OrderData.price order ≤ close) then (true, OrderData.price order)
         else (false, 0))
  ∧ (OrderData.type order = MARKET → OrderData.direction order = LONG →
       can_fill_at order tick = (true, close * float 1.001))
  ∧ (OrderData.type order = MARKET → OrderData.direction order ≠ LONG →
       can_fill_at order tick = (true, close * float 0.999)).
Proof.
  intros Hclose tick close.
  assert (0 < close * float 0.999 ∧ 0 < close * float 1.001) as [Hbid Hask].
  { split; by apply Qcmult_pos_pos. }
  assert (close * float 0.999 ≤ close ∧ close ≤ close * float 1.001) as [Hbelow Habove].
  { subst close. clear - Hclose. split; qc_lra. }
  split; [done|]. split; [|split; [|split]].
  - intros Htype Hlong. rewrite can_fill_at_limit_buy by done.
    unfold limit_buy_fills. cbn [tick _bar_to_tick TickData.ask_price_1
                                   TickData.last_price]. fold close.
    destruct (decide (close ≤ OrderData.price order)) as [Hle|Hle].
    + by rewrite decide_True by by right.
    + rewrite decide_False; [done|]. intros [[_ Hask']|?]; [|done].
      apply Hle. by eapply Qcle_trans.
  - intros Htype Hshort. rewrite can_fill_at_limit_sell by done.
    unfold limit_sell_fills. cbn [tick _bar_to_tick TickData.bid_price_1
                                    TickData.last_price]. fold close.
    destruct (decide (OrderData.price order ≤ close)) as [Hle|Hle].
    + by rewrite decide_True by by right.
    + rewrite decide_False; [done|]. intros [[_ Hbid']|?]; [|done].
      apply Hle. by eapply Qcle_trans.
  - intros Htype Hlong. unfold can_fill_at.
    rewrite (decide_True (P := OrderData.type order = MARKET)) by done.
    rewrite (decide_True (P := OrderData.direction order = LONG)) by done.
    cbn [tick _bar_to_tick TickData.ask_price_1]. fold close.
    by rewrite decide_True.
  - intros Htype Hshort. unfold can_fill_at.
    rewrite (decide_True (P := OrderData.type order = MARKET)) by done.
    rewrite (decide_False (P := OrderData.direction order = LONG)) by done.
    cbn [tick _bar_to_tick TickData.bid_price_1]. fold close.
    by rewrite decide_True.
Qed.

Lemma bar_tick_fill_rule_witness :
  can_fill_at
    (OrderData.mk "000001" SZSE "PAPER_1" LIMIT LONG (float 12.50) (float 100) 0
       NOTTRADED "PAPER")
    (_bar_to_tick (BarData.mk "000001" SZSE (float 12.50)))
  = (true, float 12.50).
Proof.
  by rewrite (proj1 (proj2 (bar_tick_fill_rule (BarData.mk "000001" SZSE (float 12.50))
                              (OrderData.mk "000001" SZSE "PAPER_1" LIMIT LONG
                                 (float 12.50) (float 100) 0 NOTTRADED "PAPER")
                              ltac:(done)))).
Defined.

End Runner.
